(** * VNLS-PRESS: recommendation scoring and semantic search ranking

    A shallow embedding of the three Deno edge functions of the repository

      - [fetch-news]               (supabase/functions/fetch-news/index.ts)
      - [generate-recommendations] (same file, second module)
      - [bert_search]              (supabase/functions/bert_search/index.ts)

    together with the properties their specification states about them.

    Conventions of the embedding.
      - JavaScript numbers that only ever hold integers (weights, ranks,
        lengths, epoch milliseconds) are [Z]; preference scores and cosine
        similarities are exact rationals [Q] (IEEE rounding and NaN are
        outside the model).
      - Labels, identifiers and titles are [string]; the search query, which
        is trimmed, is a list of UTF-16 code units.
      - A JS [Map] is an association list in insertion order, which is the
        order [Map.prototype.entries] enumerates.
      - [Array.prototype.sort] is stable (ECMAScript 2019); with a comparator
        that is a total preorder its result is determined, and [JS.sort]
        computes it by insertion from the right.
      - Everything a handler obtains from outside (environment, clock, HTTP
        and database answers, library calls) is a field of a [World] record;
        calls are logged in the state of the monad [M], exceptions are its
        left summand, each kept as the string [String(err)] renders it. *)

From Stdlib Require Import ZArith QArith Qminmax List String Ascii Bool Lia.
From Stdlib Require Import Sorted Permutation Lqa.
Import ListNotations.

Local Open Scope string_scope.
Local Open Scope list_scope.
Local Open Scope Z_scope.

(** ** JavaScript built-ins used by the handlers *)

Module JS.

Section StableSort.
Context {A : Type}.

(** [after a b] is [comparator(a, b) > 0]: [a] has to come after [b]. *)
Variable after : A -> A -> bool.

Fixpoint insert (x : A) (l : list A) : list A :=
  match l with
  | [] => [x]
  | y :: l' => if after x y then y :: insert x l' else x :: y :: l'
  end.

Definition sort (l : list A) : list A := fold_right insert [] l.
End StableSort.

(** [arr.indexOf(x)]: index of the first element equal to [x], or [-1]. *)
Fixpoint indexOf (l : list string) (x : string) : Z :=
  match l with
  | [] => -1
  | y :: l' =>
      if String.eqb y x then 0
      else let i := indexOf l' x in if i =? -1 then -1 else i + 1
  end.

(** [arr.slice(0, e)] for an integral [e]: a negative [e] counts from the
    end of the array. *)
Definition slice0 {A : Type} (l : list A) (e : Z) : list A :=
  let len := Z.of_nat (List.length l) in
  let final := if e <? 0 then Z.max (len + e) 0 else Z.min e len in
  firstn (Z.to_nat final) l.

(** [new Map<string, number>()] with [get] and [set]: [set] on a present key
    keeps the key's place, on a fresh key appends. *)
Definition Map := list (string * Z).

Fixpoint map_get (m : Map) (k : string) : option Z :=
  match m with
  | [] => None
  | (k', v) :: m' => if String.eqb k' k then Some v else map_get m' k
  end.

Fixpoint map_set (m : Map) (k : string) (v : Z) : Map :=
  match m with
  | [] => [(k, v)]
  | (k', v') :: m' =>
      if String.eqb k' k then (k', v) :: m' else (k', v') :: map_set m' k v
  end.

(** [x || 0] on the result of [get]: [undefined] and [0] are falsy. *)
Definition or_zero (o : option Z) : Z :=
  match o with
  | Some v => if v =? 0 then 0 else v
  | None => 0
  end.

(** [new Set(ids).has(x)]. *)
Definition set_has (s : list string) (x : string) : bool :=
  existsb (String.eqb x) s.

(** [s.includes(needle)]. *)
Fixpoint prefixb (p s : string) : bool :=
  match p, s with
  | EmptyString, _ => true
  | String a p', String b s' => Ascii.eqb a b && prefixb p' s'
  | String _ _, EmptyString => false
  end.

Fixpoint includes (s needle : string) : bool :=
  prefixb needle s ||
  match s with
  | EmptyString => false
  | String _ s' => includes s' needle
  end.

(** [s.toLowerCase()] on the ASCII letters; bytes of other characters are
    kept.  No character other than the ASCII capitals lowers to an ASCII
    letter of the word "sport", the only needle searched for after lowering. *)
Definition lower_ascii (a : ascii) : ascii :=
  let n := N_of_ascii a in
  if ((65 <=? n) && (n <=? 90))%N then ascii_of_N (n + 32) else a.

Fixpoint toLowerCase (s : string) : string :=
  match s with
  | EmptyString => EmptyString
  | String a s' => String (lower_ascii a) (toLowerCase s')
  end.

(** [s.replace(pat, by)] with a string pattern: the first occurrence only. *)
Fixpoint drop (n : nat) (s : string) : string :=
  match n, s with
  | O, _ => s
  | S n', String _ s' => drop n' s'
  | S _, EmptyString => EmptyString
  end.

Fixpoint replace (pat by_ s : string) : string :=
  if prefixb pat s then String.append by_ (drop (String.length pat) s)
  else match s with
       | EmptyString => EmptyString
       | String a s' => String a (replace pat by_ s')
       end.

End JS.

(** ** The monad of a request handler

    State: the log of calls to external collaborators and the number of clock
    readings taken so far.  Result: a thrown exception or a value. *)

Inductive event :=
| EvGetUser (token : string)
| EvSelectActivities (user : string) (since : Z)
| EvSelectArticles (since : Z)
| EvSelectInteracted (user : string)
| EvFetchNews (url : string)
| EvEmbedding (text : list N)
| EvRpcMatchNews (match_count : Z)
| EvSelectCandidates (since : Z).

Record hstate := { calls : list event; ticks : nat }.

(** A thrown value is kept as the string [String(err)] makes of it, which is
    all a handler ever reads of it: the name and the message for an [Error]
    object, "[object Object]" for any other object. *)
Definition exn := string.

(** [String(new Error(message))] *)
Definition new_Error (message : string) : exn :=
  match message with
  | EmptyString => "Error"
  | String _ _ => String.append "Error: " message
  end.

(** [String(o)] for an object [o] that is not an [Error], as is the [error]
    of the answer of a supabase query. *)
Definition object_Object : exn := "[object Object]".

Definition M (A : Type) : Type := hstate -> (exn + A) * hstate.

Definition ret {A} (a : A) : M A := fun s => (inr a, s).

Definition bind {A B} (c : M A) (k : A -> M B) : M B :=
  fun s => match c s with
           | (inl e, s') => (inl e, s')
           | (inr a, s') => k a s'
           end.

Definition throw {A} (e : exn) : M A := fun s => (inl e, s).

(** [try { c } catch (e) { h e }]. *)
Definition try_catch {A} (c : M A) (h : exn -> M A) : M A :=
  fun s => match c s with
           | (inl e, s') => h e s'
           | (inr a, s') => (inr a, s')
           end.

(** An external call: logged, then answered by the world. *)
Definition call {A} (ev : event) (answer : exn + A) : M A :=
  fun s => (answer, {| calls := calls s ++ [ev]; ticks := ticks s |}).

(** [Date.now()] / [new Date()]: the next reading of the clock. *)
Definition now (clock : nat -> Z) : M Z :=
  fun s => (inr (clock (ticks s)),
            {| calls := calls s; ticks := S (ticks s) |}).

Notation "x <- c ;; k" := (bind c (fun x => k))
  (at level 61, c at next level, right associativity).

Definition init : hstate := {| calls := []; ticks := O |}.


(** What a handler answers when it is run on a fresh state: the response of
    its body, or the response its outermost [catch] builds. *)
Definition serve {R} (c : M R) (on_error : exn -> R) : R * hstate :=
  match c init with
  | (inr r, s) => (r, s)
  | (inl e, s) => (on_error e, s)
  end.

Fixpoint mapM {A B} (f : A -> M B) (l : list A) : M (list B) :=
  match l with
  | [] => ret []
  | x :: l' => y <- f x ;; ys <- mapM f l' ;; ret (y :: ys)
  end.

(** The answer of a supabase query: [{ data, error }]. *)
Record QueryResult (A : Type) := { data : option A; error : option string }.
Arguments data {A} _.
Arguments error {A} _.

Definition ms_per_hour : Z := 1000 * 60 * 60.
Definition ms_per_day : Z := 24 * ms_per_hour.

(** ** generate-recommendations *)

Module Recommend.

Record UserActivity := {
  article_id : string;
  activity_type : string;
  dwell_time : Z;
  article_category : string;   (* metadata.article_category *)
  article_source : string      (* metadata.article_source *)
}.

Record Article := {
  id : string;
  title : string;
  category : string;
  source : string;
  published_at : Z   (* new Date(published_at).getTime(), epoch milliseconds *)
}.

(** [{ ...article, score }] *)
Record ScoredArticle := { article : Article; score : Q }.

Record Request := { method : string; authorization : option string }.

Inductive Body :=
| NoBody
| ErrorBody (error : string)
| Recommendations (recommendations : list ScoredArticle)
                  (top_categories top_sources : list string).

Record Response := { status : Z; body : Body }.

Record World := {
  clock : nat -> Z;
  (* supabaseClient.auth.getUser(token): { data: { user }, error } *)
  auth_getUser : string -> exn + (option string * option string);
  (* from('user_activities').select('*').eq('user_id', u).gte('created_at', t) *)
  select_activities : string -> Z -> exn + QueryResult (list UserActivity);
  (* from('news_articles').select('*').gte('published_at', t).order(..).limit(100) *)
  select_articles : Z -> exn + QueryResult (list Article);
  (* from('user_activities').select('article_id').eq('user_id', u) *)
  select_interacted : string -> exn + QueryResult (list string)
}.

(** *** Analyze user preferences (lines 190-220) *)

Definition weight (activity : UserActivity) : Z :=
  if String.eqb (activity_type activity) "click" then 3
  else if String.eqb (activity_type activity) "bookmark" then 5
  else if String.eqb (activity_type activity) "dwell"
          && (30 <? dwell_time activity)
       then 2
  else 1.

(** [prefs.set(label, (prefs.get(label) || 0) + weight)] *)
Definition tally (prefs : JS.Map) (label : string) (w : Z) : JS.Map :=
  JS.map_set prefs label (JS.or_zero (JS.map_get prefs label) + w).

(** One turn of the [for ... of activities] loop on the pair
    (categoryPreferences, sourcePreferences). *)
Definition analyze_step (prefs : JS.Map * JS.Map) (activity : UserActivity)
  : JS.Map * JS.Map :=
  let category := article_category activity in
  let source := article_source activity in
  let weight := weight activity in
  (tally (fst prefs) category weight, tally (snd prefs) source weight).

Definition analyze (activities : list UserActivity) : JS.Map * JS.Map :=
  fold_left analyze_step activities ([], []).

Definition categoryPreferences (activities : list UserActivity) : JS.Map :=
  fst (analyze activities).

Definition sourcePreferences (activities : list UserActivity) : JS.Map :=
  snd (analyze activities).

(** The comparator [(a, b) => b[1] - a[1]] is positive. *)
Definition by_weight_desc (a b : string * Z) : bool := 0 <? snd b - snd a.

(** [Array.from(prefs.entries()).sort(..).slice(0, 3).map(([k]) => k)] *)
Definition top3 (prefs : JS.Map) : list string :=
  map fst (JS.slice0 (JS.sort by_weight_desc prefs) 3).

Definition topCategories (activities : list UserActivity) : list string :=
  top3 (categoryPreferences activities).

Definition topSources (activities : list UserActivity) : list string :=
  top3 (sourcePreferences activities).

(** *** Score and filter articles (lines 252-277) *)

(** The body of the [.map(article => ...)] callback, given the reading
    [now_ms] of [Date.now()] taken in it. *)
Definition score_article (topCategories topSources : list string)
    (now_ms : Z) (article : Article) : Q :=
  let score := 0%Q in
  let categoryIndex := JS.indexOf topCategories (category article) in
  let score :=
    if categoryIndex =? -1 then score
    else (score + inject_Z ((3 - categoryIndex) * 10))%Q in
  let sourceIndex := JS.indexOf topSources (source article) in
  let score :=
    if sourceIndex =? -1 then score
    else (score + inject_Z ((3 - sourceIndex) * 5))%Q in
  let ageHours :=
    (inject_Z (now_ms - published_at article) / inject_Z ms_per_hour)%Q in
  (score + Qmax 0 (24 - ageHours))%Q.

(** The comparator [(a, b) => b.score - a.score] is positive. *)
Definition by_score_desc (a b : ScoredArticle) : bool :=
  negb (Qle_bool (score b - score a) 0).

Definition scoreM (w : World) (topCategories topSources : list string)
    (a : Article) : M ScoredArticle :=
  t <- now (clock w) ;;
  ret {| article := a; score := score_article topCategories topSources t a |}.

Definition internal_error : Response :=
  {| status := 500; body := ErrorBody "Internal server error" |}.

(** The [try] block of the handler.  [createClient] builds the client handle
    from the environment and calls nothing; it has no counterpart here. *)
Definition handler_body (w : World) (req : Request) : M Response :=
  (* req.headers.get('Authorization')! ; authHeader.replace('Bearer ', '') *)
  token <- match authorization req with
           | Some authHeader => ret (JS.replace "Bearer " "" authHeader)
           | None => throw "TypeError: Cannot read properties of null"
           end ;;
  auth <- call (EvGetUser token) (auth_getUser w token) ;;
  match auth with
  | (Some user, None) =>
      (* new Date(), then setDate(getDate() - 30): thirty days of 24 hours *)
      t30 <- now (clock w) ;;
      let thirtyDaysAgo := t30 - 30 * ms_per_day in
      acts <- call (EvSelectActivities user thirtyDaysAgo)
                   (select_activities w user thirtyDaysAgo) ;;
      match error acts with
      | Some _ =>
          ret {| status := 500;
                 body := ErrorBody "Failed to fetch user activities" |}
      | None =>
          activities <- match data acts with
                        | Some l => ret l
                        | None => throw "TypeError: activities is not iterable"
                        end ;;
          let topCategories := topCategories activities in
          let topSources := topSources activities in
          t7 <- now (clock w) ;;
          let sevenDaysAgo := t7 - 7 * ms_per_day in
          arts <- call (EvSelectArticles sevenDaysAgo)
                       (select_articles w sevenDaysAgo) ;;
          match error arts with
          | Some _ =>
              ret {| status := 500;
                     body := ErrorBody "Failed to fetch articles" |}
          | None =>
              inter <- call (EvSelectInteracted user)
                            (select_interacted w user) ;;
              (* new Set(interactedArticles?.map(a => a.article_id) || []) *)
              let interactedIds :=
                match data inter with Some ids => ids | None => [] end in
              recentArticles <- match data arts with
                                | Some l => ret l
                                | None => throw "TypeError: recentArticles is null"
                                end ;;
              scored <- mapM (scoreM w topCategories topSources)
                          (filter (fun article =>
                                     negb (JS.set_has interactedIds (id article)))
                                  recentArticles) ;;
              let scoredArticles :=
                JS.slice0 (JS.sort by_score_desc scored) 20 in
              ret {| status := 200;
                     body := Recommendations scoredArticles
                                             topCategories topSources |}
          end
      end
  | _ => ret {| status := 401; body := ErrorBody "Unauthorized" |}
  end.

Definition generate_recommendations (w : World) (req : Request)
  : Response * hstate :=
  if String.eqb (method req) "OPTIONS"
  then ({| status := 200; body := NoBody |}, init)
  else serve (handler_body w req) (fun _ => internal_error).

End Recommend.

(** ** fetch-news *)

Module FetchNews.

(** An article as NewsAPI sends it.  A field that is [null] or absent is
    represented by the empty string: the handler tests these fields for
    truthiness before it uses them, and both are falsy. *)
Record NewsAPIArticle := {
  title : string;
  description : string;
  url : string;
  urlToImage : string;
  source_name : string;   (* source.name *)
  publishedAt : string;
  content : string
}.

Record TransformedArticle := {
  id : string;
  t_title : string;
  summary : string;
  t_content : string;
  t_url : string;
  image_url : string;
  source : string;
  category : string;
  language : string;
  published_at : string
}.

Record NewsData := {
  d_status : string;
  message : string;
  articles : option (list NewsAPIArticle)
}.

Record HttpResponse := {
  ok : bool;
  json : exn + NewsData   (* await response.json() *)
}.

Record Request := { method : string }.

Inductive Body :=
| NoBody
| ErrorBody (error : string)
| Articles (articles : list TransformedArticle) (total : Z).

Record Response := { status : Z; body : Body }.

Record World := {
  NEWS_API_KEY : string;               (* Deno.env.get, "" when unset *)
  fetch : string -> exn + HttpResponse;
  btoa : string -> exn + string        (* throws outside Latin-1 *)
}.

Definition truthy (s : string) : bool := negb (String.eqb s "").

(** [a || b] on strings. *)
Definition or_str (a b : string) : string := if truthy a then a else b.

Definition is_alnum (a : ascii) : bool :=
  let n := N_of_ascii a in
  (((97 <=? n) && (n <=? 122)) || ((65 <=? n) && (n <=? 90))
   || ((48 <=? n) && (n <=? 57)))%N.

(** [s.replace(/[^a-zA-Z0-9]/g, '')] *)
Fixpoint keep_alnum (s : string) : string :=
  match s with
  | EmptyString => EmptyString
  | String a s' => if is_alnum a then String a (keep_alnum s') else keep_alnum s'
  end.

(** The [.filter(...)] predicate of lines 78-83. *)
Definition keep (article : NewsAPIArticle) : bool :=
  truthy (title article) && truthy (description article)
  && truthy (url article) && negb (String.eqb (title article) "[Removed]").

(** The category expression of line 92. *)
Definition classify (title : string) : string :=
  if JS.includes (JS.toLowerCase title) "sport" then "sports" else "technology".

(** The [.map(...)] callback of lines 84-95. *)
Definition transform (w : World) (article : NewsAPIArticle)
  : M TransformedArticle :=
  b64 <- (fun s => (btoa w (url article), s)) ;;
  ret {| id := String.substring 0 20 (keep_alnum b64);
         t_title := title article;
         summary := or_str (description article) (title article);
         t_content := or_str (content article)
                             (or_str (description article) "");
         t_url := url article;
         image_url := or_str (urlToImage article) "";
         source := source_name article;
         category := classify (title article);
         language := "en";
         published_at := publishedAt article |}.

Definition error_response (msg : string) : Response :=
  {| status := 500; body := ErrorBody msg |}.

Definition handler_body (w : World) : M Response :=
  let newsApiKey := NEWS_API_KEY w in
  if negb (truthy newsApiKey) then ret (error_response "API key not configured")
  else
    let newsApiUrl :=
      String.append
        "https://newsapi.org/v2/everything?q=technology OR sports&language=en&sortBy=publishedAt&apiKey="
        newsApiKey in
    response <- call (EvFetchNews newsApiUrl) (fetch w newsApiUrl) ;;
    if negb (ok response) then ret (error_response "Failed to fetch news")
    else
      data <- (fun s => (json response, s)) ;;
      if negb (String.eqb (d_status data) "ok")
      then ret (error_response (or_str (message data) "NewsAPI error"))
      else
        raw <- match articles data with
               | Some l => ret l
               | None => throw "TypeError: data.articles is undefined"
               end ;;
        transformedArticles <- mapM (transform w) (filter keep raw) ;;
        ret {| status := 200;
               body := Articles transformedArticles
                         (Z.of_nat (List.length transformedArticles)) |}.

Definition fetch_news (w : World) (req : Request) : Response * hstate :=
  if String.eqb (method req) "OPTIONS"
  then ({| status := 200; body := NoBody |}, init)
  else serve (handler_body w) (fun _ => error_response "Internal server error").

End FetchNews.

(** ** bert_search *)

Module BertSearch.

(** A JS string as its UTF-16 code units. *)
Definition jsstring := list N.

(** WhiteSpace and LineTerminator code points, the ones [trim] strips. *)
Definition is_space (c : N) : bool :=
  ((c =? 9) || (c =? 10) || (c =? 11) || (c =? 12) || (c =? 13) || (c =? 32)
   || (c =? 160) || (c =? 5760) || ((8192 <=? c) && (c <=? 8202))
   || (c =? 8232) || (c =? 8233) || (c =? 8239) || (c =? 8287)
   || (c =? 12288) || (c =? 65279))%N.

Fixpoint trimStart (s : jsstring) : jsstring :=
  match s with
  | [] => []
  | c :: s' => if is_space c then trimStart s' else s
  end.

Definition trim (s : jsstring) : jsstring :=
  rev (trimStart (rev (trimStart s))).

Record RequestBody := { query : option jsstring; top_k : option Z }.

(** [json] is [None] when [req.json()] rejects. *)
Record Request := { method : string; json : option RequestBody }.

Record RpcRow := {
  r_id : string; r_title : string; r_url : string; r_category : string;
  r_source : string; r_published_at : string; similarity : Q
}.

(** A row of [news_articles]; [embedding] is [None] when the column is null
    or not an array. *)
Record Candidate := {
  id : string; title : string; url : string; category : string;
  source : string; published_at : string; embedding : option (list Q)
}.

Record Scored := {
  s_id : string; s_title : string; s_url : string; s_category : string;
  s_source : string; s_published_at : string; score : Q
}.

Inductive Body :=
| NoBody
| Recommendations (recommendations : list (RpcRow + Scored))
| ErrorBody (error detail : string).

Record Response := { status : Z; body : Body }.

Record EmbeddingResponse := {
  ok : bool;
  res_status : string;
  text : string;
  (* (await res.json()).data[0].embedding: [inl] when the body cannot be
     parsed or [data[0]] cannot be read, [inr None] when the value read is
     not an array of numbers, [undefined] for an absent field *)
  res_embedding : exn + option (list Q)
}.

Record World := {
  clock : nat -> Z;
  OPENAI_API_KEY : option string;
  EMBEDDING_API_KEY : option string;
  (* POST https://api.openai.com/v1/embeddings { input, model } *)
  openai_embeddings : string -> jsstring -> string -> exn + EmbeddingResponse;
  (* supabase.rpc('match_news', { query_embedding, match_count }) *)
  rpc_match_news : option (list Q) -> Z -> exn + QueryResult (list RpcRow);
  (* from('news_articles').select(..).gte('published_at', t).limit(500) *)
  select_candidates : Z -> exn + QueryResult (list Candidate);
  (* cosineSimilarity of simple-statistics, called with the query embedding
     as [getOpenAIEmbedding] returned it; [None] when it throws *)
  cosineSimilarity : option (list Q) -> list Q -> option Q
}.

(** [getOpenAIEmbedding] (lines 50-74).  The value of
    [json.data[0].embedding] is returned as it is read: [None] stands for a
    value that is not an array of numbers. *)
Definition getOpenAIEmbedding (w : World) (text : jsstring)
    (model : string) : M (option (list Q)) :=
  let apiKey := match OPENAI_API_KEY w with
                | Some k => Some k
                | None => EMBEDDING_API_KEY w
                end in
  match apiKey with
  | Some (String c k) =>
      res <- call (EvEmbedding text)
                  (openai_embeddings w (String c k) text model) ;;
      if negb (ok res)
      then throw (new_Error
                    (String.append "OpenAI embedding request failed: "
                       (String.append (res_status res)
                          (String.append " " (BertSearch.text res)))))
      else (fun s => (res_embedding res, s))
  | _ => throw (new_Error
                  "Missing OPENAI_API_KEY (or EMBEDDING_API_KEY) in env")
  end.

(** The [.map(...)] callback of lines 129-138. *)
Definition score_candidate (w : World) (queryEmbedding : option (list Q))
    (a : Candidate) : Scored :=
  let emb := match embedding a with Some v => v | None => [] end in
  let sim := 0%Q in
  let sim := match cosineSimilarity w queryEmbedding emb with
             | Some s => s      (* try *)
             | None => 0%Q      (* catch *)
             end in
  {| s_id := id a; s_title := title a; s_url := url a;
     s_category := category a; s_source := source a;
     s_published_at := published_at a; score := sim |}.

Definition has_embedding (a : Candidate) : bool :=
  match embedding a with Some _ => true | None => false end.

(** The comparator [(x, y) => y.score - x.score] is positive. *)
Definition by_score_desc (x y : Scored) : bool :=
  negb (Qle_bool (score y - score x) 0).

(** The [scored] array of step 3: the candidates that carry an embedding,
    scored, sorted and cut. *)
Definition rank_candidates (w : World) (queryEmbedding : option (list Q))
    (candidates : list Candidate) (top_k : Z) : list Scored :=
  JS.slice0
    (JS.sort by_score_desc
       (map (score_candidate w queryEmbedding)
            (filter has_embedding candidates)))
    top_k.

Definition ok_response (l : list (RpcRow + Scored)) : Response :=
  {| status := 200; body := Recommendations l |}.

(** Step 2, the inner [try]: the response of the server-side search when it
    delivers rows, nothing when it fails, errs or comes back empty. *)
Definition rpc_search (w : World) (queryEmbedding : option (list Q))
    (top_k : Z) : M (option Response) :=
  try_catch
    (rpc <- call (EvRpcMatchNews top_k)
                 (rpc_match_news w queryEmbedding top_k) ;;
     match error rpc, data rpc with
     | None, Some (r :: rows) => ret (Some (ok_response (map inl (r :: rows))))
     | _, _ => ret None
     end)
    (fun _ => ret None).

(** Step 3: fetch the recent candidates and score them in memory.  What
    [if (error) throw error] throws is the error object of the answer. *)
Definition fallback_search (w : World) (queryEmbedding : option (list Q))
    (top_k : Z) : M Response :=
  t <- now (clock w) ;;
  let sevenDaysAgo := t - 7 * ms_per_day in
  res <- call (EvSelectCandidates sevenDaysAgo)
              (select_candidates w sevenDaysAgo) ;;
  match error res with
  | Some _ => throw object_Object
  | None =>
      match data res with
      | None | Some [] => ret (ok_response [])
      | Some candidates =>
          let scored := rank_candidates w queryEmbedding candidates top_k in
          ret (ok_response (map inr scored))
      end
  end.

(** The [try] block of the handler.  [createClient] builds the client handle
    from the required environment variables and calls nothing; it has no
    counterpart here. *)
Definition handler_body (w : World) (req : Request) : M Response :=
  let body := match json req with
              | Some b => b
              | None => {| query := None; top_k := None |}
              end in
  let q := trim (match query body with Some s => s | None => [] end) in
  let top_k := match top_k body with Some k => k | None => 10 end in
  match q with
  | [] => ret (ok_response [])
  | _ :: _ =>
      queryEmbedding <- getOpenAIEmbedding w q "text-embedding-3-small" ;;
      fast <- rpc_search w queryEmbedding top_k ;;
      match fast with
      | Some response => ret response
      | None => fallback_search w queryEmbedding top_k
      end
  end.

Definition bert_search (w : World) (req : Request) : Response * hstate :=
  if String.eqb (method req) "OPTIONS"
  then ({| status := 200; body := NoBody |}, init)
  else serve (handler_body w req)
             (* detail: String(err) *)
             (fun err => {| status := 500;
                            body := ErrorBody "Internal server error" err |}).

End BertSearch.

(** ** The vocabulary of the specification *)

Module Spec.
Import Recommend.

(** The 0-indexed rank of a label in a ranked list. *)
Fixpoint rank (l : list string) (x : string) : option nat :=
  match l with
  | [] => None
  | y :: l' => if String.eqb y x then Some O else option_map S (rank l' x)
  end.

(** (3 - i) * 10 at rank i, else 0. *)
Definition categoryScore (topCategories : list string) (c : string) : Q :=
  match rank topCategories c with
  | Some i => inject_Z ((3 - Z.of_nat i) * 10)
  | None => 0
  end.

(** (3 - i) * 5 at rank i, else 0. *)
Definition sourceScore (topSources : list string) (s : string) : Q :=
  match rank topSources s with
  | Some i => inject_Z ((3 - Z.of_nat i) * 5)
  | None => 0
  end.

(** Wall-clock time since publication, in hours. *)
Definition ageInHours (now_ms published_ms : Z) : Q :=
  inject_Z (now_ms - published_ms) / inject_Z ms_per_hour.

(** max(0, 24 - ageInHours). *)
Definition recencyScore (now_ms published_ms : Z) : Q :=
  Qmax 0 (24 - ageInHours now_ms published_ms).

(** The weight accumulated by [label] over the records whose [key] is it. *)
Definition accumulated (key : UserActivity -> string)
    (activities : list UserActivity) (label : string) : Z :=
  fold_right (fun a s => if String.eqb (key a) label then weight a + s else s)
             0 activities.

(** [x] occurs in [l] at a place before one of [y]. *)
Definition precedes {A} (l : list A) (x y : A) : Prop :=
  exists l1 l2, l = l1 ++ x :: l2 /\ In y l2.

(** Stability of a sort with comparator [after]: [a] stays before [b] when
    the comparator puts [b] after [a], or ties them and [a] was before [b]
    in the array given to the sort. *)
Definition stays_before {A} (after : A -> A -> bool) (l : list A) (a b : A)
  : Prop :=
  after b a = true
  \/ (after a b = false /\ after b a = false /\ precedes l a b).

(** [x] is first encountered in [l] before [y] is. *)
Definition encountered_before (l : list string) (x y : string) : Prop :=
  x <> y /\ exists l1 l2, l = l1 ++ x :: l2 /\ ~ In y l1.

(** The aggregation loop as seen on one of its two maps. *)
Definition loop (key : UserActivity -> string)
    (activities : list UserActivity) (m : JS.Map) : JS.Map :=
  fold_left (fun m a => tally m (key a) (weight a)) activities m.

(** What the loop leaves in a map that was empty before it. *)
Record aggregate_inv (key : UserActivity -> string)
    (acts : list UserActivity) (m : JS.Map) : Prop := {
  inv_nodup : NoDup (map fst m);
  inv_keys : forall k, In k (map fst m) <-> In k (map key acts);
  inv_value : forall k, In k (map key acts) ->
                        JS.map_get m k = Some (accumulated key acts k);
  inv_order : forall x y, precedes (map fst m) x y ->
                          encountered_before (map key acts) x y
}.

(** [x] ranks before [y]: more weight, or as much and encountered first. *)
Definition outranks (key : UserActivity -> string)
    (activities : list UserActivity) (x y : string) : Prop :=
  accumulated key activities y < accumulated key activities x
  \/ (accumulated key activities y = accumulated key activities x
      /\ encountered_before (map key activities) x y).

(** A top list is ranked: its labels are in outranking order, and outrank
    every label of the input that is left out. *)
Definition ranked (key : UserActivity -> string)
    (activities : list UserActivity) (top : list string) : Prop :=
  (forall i j x y, (i < j)%nat ->
     nth_error top i = Some x -> nth_error top j = Some y ->
     outranks key activities x y)
  /\ (forall x y, In x top -> In y (map key activities) -> ~ In y top ->
      outranks key activities x y).

(** A top list holds the labels that rank first, three of them or all when
    the input has fewer: it is ranked, free of repetition, made of labels of
    the input, and min(3, d) long for d distinct labels in the input. *)
Definition top_three (key : UserActivity -> string)
    (activities : list UserActivity) (top : list string) : Prop :=
  ranked key activities top
  /\ NoDup top
  /\ (forall x, In x top -> In x (map key activities))
  /\ List.length top
     = Nat.min 3 (List.length (nodup string_dec (map key activities))).

(** The result count a search request asks for. *)
Definition requested_top_k (req : BertSearch.Request) : Z :=
  match BertSearch.json req with
  | Some b => match BertSearch.top_k b with Some k => k | None => 10 end
  | None => 10
  end.

(** The query of a search request is empty or consists of white space. *)
Definition blank_query (req : BertSearch.Request) : Prop :=
  match BertSearch.json req with
  | Some b => match BertSearch.query b with
              | Some q => Forall (fun c => BertSearch.is_space c = true) q
              | None => True
              end
  | None => True
  end.

Definition is_embedding_call (e : event) : bool :=
  match e with EvEmbedding _ => true | _ => false end.

(** The scored articles, the [n]-th reading of the clock being the first one
    taken while scoring. *)
Fixpoint scored_from (w : World) (tc ts : list string) (n : nat)
    (l : list Article) : list ScoredArticle :=
  match l with
  | [] => []
  | a :: l' =>
      {| article := a; score := score_article tc ts (clock w n) a |}
        :: scored_from w tc ts (S n) l'
  end.

(** What step 2 of a search hands on: the response built from the rows of
    the server-side search, if it delivered any. *)
Definition rpc_outcome (w : BertSearch.World) (q : option (list Q)) (k : Z)
  : option BertSearch.Response :=
  match BertSearch.rpc_match_news w q k with
  | inr qr =>
      match error qr, data qr with
      | None, Some (r :: rows) =>
          Some (BertSearch.ok_response (map inl (r :: rows)))
      | _, _ => None
      end
  | inl _ => None
  end.

(** What step 3 of a search ends with when the candidates are those
    published since [t]. *)
Definition fallback_outcome (w : BertSearch.World) (q : option (list Q))
    (k t : Z) : exn + BertSearch.Response :=
  match BertSearch.select_candidates w t with
  | inl e => inl e
  | inr res =>
      match error res with
      | Some _ => inl object_Object
      | None =>
          inr (BertSearch.ok_response
                 (map inr
                    (match data res with
                     | Some candidates =>
                         BertSearch.rank_candidates w q candidates k
                     | None => []
                     end)))
      end
  end.

End Spec.

(** ** Sample runs *)

Module Samples.

(** A user who clicked and viewed technology and bookmarked sports. *)
Definition activities : list Recommend.UserActivity :=
  [ {| Recommend.article_id := "a1"; Recommend.activity_type := "click";
       Recommend.dwell_time := 0; Recommend.article_category := "technology";
       Recommend.article_source := "bbc" |};
    {| Recommend.article_id := "a2"; Recommend.activity_type := "view";
       Recommend.dwell_time := 0; Recommend.article_category := "technology";
       Recommend.article_source := "cnn" |};
    {| Recommend.article_id := "a3"; Recommend.activity_type := "bookmark";
       Recommend.dwell_time := 0; Recommend.article_category := "sports";
       Recommend.article_source := "espn" |} ].

Definition fresh_sports : Recommend.Article :=
  {| Recommend.id := "n1"; Recommend.title := "Cup final";
     Recommend.category := "sports"; Recommend.source := "bbc";
     Recommend.published_at := 0 |}.

Definition seen_article : Recommend.Article :=
  {| Recommend.id := "a1"; Recommend.title := "New phone";
     Recommend.category := "technology"; Recommend.source := "bbc";
     Recommend.published_at := 1800000 |}.

Definition fresh_world_news : Recommend.Article :=
  {| Recommend.id := "n3"; Recommend.title := "Summit";
     Recommend.category := "world"; Recommend.source := "reuters";
     Recommend.published_at := 3600000 |}.

(** The clock starts two hours after the epoch; the token "secret" is the
    one of user "u1". *)
Definition rec_world : Recommend.World :=
  {| Recommend.clock := fun n => 7200000 + Z.of_nat n;
     Recommend.auth_getUser := fun token =>
       if String.eqb token "secret" then inr (Some "u1", None)
       else inr (None, Some "invalid JWT");
     Recommend.select_activities := fun _ _ =>
       inr {| data := Some activities; error := None |};
     Recommend.select_articles := fun _ =>
       inr {| data := Some [fresh_world_news; seen_article; fresh_sports];
              error := None |};
     Recommend.select_interacted := fun _ =>
       inr {| data := Some ["a1"; "a2"; "a3"]; error := None |} |}.

Definition rec_request : Recommend.Request :=
  {| Recommend.method := "POST"; Recommend.authorization := Some "Bearer secret" |}.

Definition anonymous_request : Recommend.Request :=
  {| Recommend.method := "POST"; Recommend.authorization := None |}.

(** The recommendation of [fresh_sports] in that run: category rank 0,
    source rank 1, scored at the fourth reading of the clock. *)
Definition scored_sports : Recommend.ScoredArticle :=
  {| Recommend.article := fresh_sports;
     Recommend.score :=
       Recommend.score_article ["sports"; "technology"] ["espn"; "bbc"; "cnn"]
                               7200003 fresh_sports |}.

(** NewsAPI answers with one article whose title has a capital S. *)
Definition sports_headline : FetchNews.NewsAPIArticle :=
  {| FetchNews.title := "Sports Tonight";
     FetchNews.description := "The evening round-up";
     FetchNews.url := "https://example.com/a";
     FetchNews.urlToImage := "";
     FetchNews.source_name := "Example";
     FetchNews.publishedAt := "2024-01-01T00:00:00Z";
     FetchNews.content := "" |}.

Definition news_world : FetchNews.World :=
  {| FetchNews.NEWS_API_KEY := "key";
     FetchNews.fetch := fun _ =>
       inr {| FetchNews.ok := true;
              FetchNews.json :=
                inr {| FetchNews.d_status := "ok"; FetchNews.message := "";
                       FetchNews.articles := Some [sports_headline] |} |};
     FetchNews.btoa := fun u =>
       if String.eqb u "https://example.com/a"
       then inr "aHR0cHM6Ly9leGFtcGxlLmNvbS9h"
       else inl "InvalidCharacterError" |}.

Definition news_request : FetchNews.Request := {| FetchNews.method := "GET" |}.

Definition transformed_headline : FetchNews.TransformedArticle :=
  {| FetchNews.id := "aHR0cHM6Ly9leGFtcGxl";
     FetchNews.t_title := "Sports Tonight";
     FetchNews.summary := "The evening round-up";
     FetchNews.t_content := "The evening round-up";
     FetchNews.t_url := "https://example.com/a";
     FetchNews.image_url := "";
     FetchNews.source := "Example";
     FetchNews.category := "sports";
     FetchNews.language := "en";
     FetchNews.published_at := "2024-01-01T00:00:00Z" |}.

(** The cosine similarity of vectors of dimension one, the sign of their
    product; it fails on every other input, a zero vector included. *)
Definition cosine1d (q : option (list Q)) (e : list Q) : option Q :=
  match q, e with
  | Some [a], [b] =>
      if Qeq_bool (a * b) 0 then None
      else if Qle_bool 0 (a * b) then Some 1%Q else Some (-1)%Q
  | _, _ => None
  end.

Definition candidate (name : string) (emb : option (list Q))
  : BertSearch.Candidate :=
  {| BertSearch.id := name; BertSearch.title := name; BertSearch.url := name;
     BertSearch.category := "technology"; BertSearch.source := "Example";
     BertSearch.published_at := "2024-01-01T00:00:00Z";
     BertSearch.embedding := emb |}.

(** Against the query embedding [1]: the similarity of [broken] cannot be
    computed, [opposite] has similarity -1, [aligned] 1, [bare] is skipped. *)
Definition broken : BertSearch.Candidate := candidate "broken" (Some []).
Definition opposite : BertSearch.Candidate := candidate "opposite" (Some [(-1)%Q]).
Definition aligned : BertSearch.Candidate := candidate "aligned" (Some [2%Q]).
Definition bare : BertSearch.Candidate := candidate "bare" None.

Definition matched (name : string) (sim : Q) : BertSearch.RpcRow :=
  {| BertSearch.r_id := name; BertSearch.r_title := name;
     BertSearch.r_url := name; BertSearch.r_category := "technology";
     BertSearch.r_source := "Example";
     BertSearch.r_published_at := "2024-01-01T00:00:00Z";
     BertSearch.similarity := sim |}.

(** A deployment without the [match_news] function: every search falls back
    to scoring in memory. *)
Definition fallback_world : BertSearch.World :=
  {| BertSearch.clock := fun _ => 1700000000000;
     BertSearch.OPENAI_API_KEY := Some "sk";
     BertSearch.EMBEDDING_API_KEY := None;
     BertSearch.openai_embeddings := fun _ _ _ =>
       inr {| BertSearch.ok := true; BertSearch.res_status := "200";
              BertSearch.text := "";
              BertSearch.res_embedding := inr (Some [1%Q]) |};
     BertSearch.rpc_match_news := fun _ _ =>
       inr {| data := None;
              error := Some "Could not find the function match_news" |};
     BertSearch.select_candidates := fun _ =>
       inr {| data := Some [broken; opposite; bare; aligned]; error := None |};
     BertSearch.cosineSimilarity := cosine1d |}.

(** A deployment whose [match_news] returns its best [match_count] rows. *)
Definition rpc_world : BertSearch.World :=
  {| BertSearch.clock := fun _ => 1700000000000;
     BertSearch.OPENAI_API_KEY := Some "sk";
     BertSearch.EMBEDDING_API_KEY := None;
     BertSearch.openai_embeddings := fun _ _ _ =>
       inr {| BertSearch.ok := true; BertSearch.res_status := "200";
              BertSearch.text := "";
              BertSearch.res_embedding := inr (Some [1%Q]) |};
     BertSearch.rpc_match_news := fun _ match_count =>
       inr {| data := Some (firstn (Z.to_nat match_count)
                              [matched "aligned" 1; matched "opposite" (-1)]);
              error := None |};
     BertSearch.select_candidates := fun _ =>
       inr {| data := Some []; error := None |};
     BertSearch.cosineSimilarity := cosine1d |}.

(** The query "news" as code units. *)
Definition news_query : BertSearch.jsstring := [110; 101; 119; 115]%N.

Definition search (k : option Z) : BertSearch.Request :=
  {| BertSearch.method := "POST";
     BertSearch.json := Some {| BertSearch.query := Some news_query;
                                BertSearch.top_k := k |} |}.

(** A query of a space, a tab and a no-break space. *)
Definition blank_search : BertSearch.Request :=
  {| BertSearch.method := "POST";
     BertSearch.json := Some {| BertSearch.query := Some [32; 9; 160]%N;
                                BertSearch.top_k := None |} |}.

End Samples.

(** ** The browser side *)

(** *** NewsFilters (components/news/NewsFilters.tsx) *)

Module NewsFilters.

(** The [filters] object: its own properties and their values.  The order
    kept here is the order of insertion; nothing below depends on the
    order. *)
Definition Filters := list (string * string).

(** [filters[key]], [None] for [undefined]. *)
Fixpoint get (filters : Filters) (key : string) : option string :=
  match filters with
  | [] => None
  | (k, v) :: o => if String.eqb k key then Some v else get o key
  end.

(** [{ ...filters, [key]: value }] *)
Fixpoint with_prop (filters : Filters) (key value : string) : Filters :=
  match filters with
  | [] => [(key, value)]
  | (k, v) :: o =>
      if String.eqb k key then (k, value) :: o
      else (k, v) :: with_prop o key value
  end.

(** What [handleFilterChange(key, value)] hands to [onFiltersChange]. *)
Definition handleFilterChange (filters : Filters) (key value : string)
  : Filters :=
  with_prop filters key value.

(** What [clearFilters()] hands to [onFiltersChange]. *)
Definition clearFilters : Filters :=
  [("category", ""); ("source", ""); ("language", ""); ("dateRange", "")].

(** [Object.values(filters).filter(Boolean).length] *)
Definition activeFiltersCount (filters : Filters) : nat :=
  List.length (filter FetchNews.truthy (map snd filters)).

End NewsFilters.

(** *** NewsFeed (src/components/news/NewsFeed.tsx) *)

Module NewsFeed.

(** The articles are those of the fetch-news response. *)
Definition NewsArticle := FetchNews.TransformedArticle.

(** What the browser provides: [String.prototype.toLowerCase], the epoch
    milliseconds of [new Date(s)] ([None] for an invalid date), and the
    local midnight and the local first of the month of an instant. *)
Record Env := {
  toLowerCase : string -> string;
  getTime : string -> option Z;
  startOfDay : Z -> Z;      (* new Date(y, m, d) of the instant *)
  startOfMonth : Z -> Z     (* new Date(y, m, 1) of the instant *)
}.

(** [filters.key], the empty string standing for [undefined] too: the
    component only uses a value after testing it for truthiness. *)
Definition prop (filters : NewsFilters.Filters) (key : string) : string :=
  match NewsFilters.get filters key with Some v => v | None => "" end.

(** The search predicate of lines 88-92. *)
Definition matches_search (env : Env) (searchQuery : string)
    (article : NewsArticle) : bool :=
  JS.includes (toLowerCase env (FetchNews.t_title article))
              (toLowerCase env searchQuery)
  || JS.includes (toLowerCase env (FetchNews.summary article))
                 (toLowerCase env searchQuery)
  || JS.includes (toLowerCase env (FetchNews.source article))
                 (toLowerCase env searchQuery).

(** The [switch] of lines 115-127. *)
Definition startDate (env : Env) (now : Z) (dateRange : string) : Z :=
  if String.eqb dateRange "today" then startOfDay env now
  else if String.eqb dateRange "week" then now - 7 * 24 * 60 * 60 * 1000
  else if String.eqb dateRange "month" then startOfMonth env now
  else 0.

(** [new Date(article.published_at) >= startDate]; an invalid date compares
    false. *)
Definition published_since (env : Env) (start : Z) (article : NewsArticle)
  : bool :=
  match getTime env (FetchNews.published_at article) with
  | Some t => start <=? t
  | None => false
  end.

(** The articles [fetchArticles] hands to [setArticles], [now] being the
    reading of [new Date()] (lines 84-134). *)
Definition displayed (env : Env) (searchQuery : string)
    (filters : NewsFilters.Filters) (now : Z) (fetched : list NewsArticle)
  : list NewsArticle :=
  let fetchedArticles := fetched in
  let fetchedArticles :=
    if FetchNews.truthy searchQuery
    then filter (matches_search env searchQuery) fetchedArticles
    else fetchedArticles in
  let fetchedArticles :=
    if FetchNews.truthy (prop filters "category")
    then filter (fun article =>
                   String.eqb (FetchNews.category article)
                              (prop filters "category"))
                fetchedArticles
    else fetchedArticles in
  let fetchedArticles :=
    if FetchNews.truthy (prop filters "source")
    then filter (fun article =>
                   JS.includes (toLowerCase env (FetchNews.source article))
                               (toLowerCase env (prop filters "source")))
                fetchedArticles
    else fetchedArticles in
  let fetchedArticles :=
    if FetchNews.truthy (prop filters "language")
    then filter (fun article =>
                   String.eqb (FetchNews.language article)
                              (prop filters "language"))
                fetchedArticles
    else fetchedArticles in
  let fetchedArticles :=
    if FetchNews.truthy (prop filters "dateRange")
    then filter (published_since env
                   (startDate env now (prop filters "dateRange")))
                fetchedArticles
    else fetchedArticles in
  JS.slice0 fetchedArticles 20.

(** The state [fetchArticles] writes, with the toasts it has raised. *)
Record State := {
  articles : list NewsArticle;
  loading : bool;
  toasts : list string
}.

(** [data] of [supabase.functions.invoke('fetch-news')]; [d_articles] is
    [None] when the body has no [articles]. *)
Record InvokeData := { d_articles : option (list NewsArticle) }.

(** [fetchArticles], from the answer of [invoke] to the state it leaves
    (lines 77-145): an [error], a rejected call and a [null] body all end in
    the [catch]. *)
Definition fetchArticles (env : Env) (invoke : exn + QueryResult InvokeData)
    (searchQuery : string) (filters : NewsFilters.Filters) (now : Z)
    (st : State) : State :=
  match invoke with
  | inr {| data := Some d; error := None |} =>
      {| articles :=
           displayed env searchQuery filters now
             (match d_articles d with Some l => l | None => [] end);
         loading := false;
         toasts := toasts st |}
  | _ =>
      {| articles := articles st;
         loading := false;
         toasts := toasts st ++ ["Failed to fetch latest news articles"] |}
  end.

End NewsFeed.

(** *** NewsCard (src/components/news/NewsCard.tsx) *)

Module NewsCard.

(** The row [trackActivity] inserts into [user_activities]. *)
Record ActivityRow := {
  user_id : string;
  article_id : string;
  activity_type : string;
  dwell_time : Z;
  article_title : string;      (* metadata.article_title *)
  article_category : string;   (* metadata.article_category *)
  article_source : string      (* metadata.article_source *)
}.

(** [trackActivity(activityType, dwellTime?)]: the row it sends, none
    without a user (lines 51-69).  A failure of the insert is caught and
    changes nothing. *)
Definition trackActivity (user : option string) (article : NewsFeed.NewsArticle)
    (activityType : string) (dwellTime : option Z) : option ActivityRow :=
  match user with
  | None => None
  | Some uid =>
      Some {| user_id := uid;
              article_id := FetchNews.id article;
              activity_type := activityType;
              dwell_time := match dwellTime with
                            | Some d => if d =? 0 then 0 else d
                            | None => 0
                            end;
              article_title := FetchNews.t_title article;
              article_category := FetchNews.category article;
              article_source := FetchNews.source article |}
  end.

(** [Math.round((now - start) / 1000)]: the nearest integer, halves up. *)
Definition dwell_seconds (now start : Z) : Z := (now - start + 500) / 1000.

(** The cleanup of the effect (lines 40-48): [dwellStartTime] is the value
    its closure holds, [now] the reading of [Date.now()]. *)
Definition on_unmount (user : option string) (article : NewsFeed.NewsArticle)
    (dwellStartTime : option Z) (now : Z) : option ActivityRow :=
  match dwellStartTime, user with
  | Some start, Some _ =>
      if start =? 0 then None
      else
        let dwellTime := dwell_seconds now start in
        if 2 <? dwellTime
        then trackActivity user article "dwell" (Some dwellTime)
        else None
  | _, _ => None
  end.

(** The activity the aggregator reads back from an inserted row. *)
Definition stored (row : ActivityRow) : Recommend.UserActivity :=
  {| Recommend.article_id := article_id row;
     Recommend.activity_type := activity_type row;
     Recommend.dwell_time := dwell_time row;
     Recommend.article_category := article_category row;
     Recommend.article_source := article_source row |}.

End NewsCard.

(** *** SearchBar and queryBertSearch (components/news/SearchBar.tsx) *)

Module SearchBar.

(** What [fetch] resolves to: [ok] and the parsed body. *)
Record HttpRes := { ok : bool; json : exn + BertSearch.Body }.

(** [queryBertSearch(query)] (lines 60-74): [None] is [null]. *)
Definition queryBertSearch
    (fetch : string -> BertSearch.RequestBody -> exn + HttpRes)
    (VITE_BERT_SEARCH_URL : string) (query : BertSearch.jsstring)
  : option BertSearch.Body :=
  let url := FetchNews.or_str VITE_BERT_SEARCH_URL "/api/bert_search" in
  match fetch url {| BertSearch.query := Some query;
                     BertSearch.top_k := None |} with
  | inl _ => None                             (* catch *)
  | inr res =>
      if negb (ok res) then None
      else match json res with
           | inl _ => None                    (* catch *)
           | inr body => Some body
           end
  end.

(** What [handleSubmit] can be called with: the submit event of the form,
    or a string. *)
Inductive Arg :=
| FormEvent
| Text (s : string).

Inductive Outcome :=
| Returned
| Threw (e : exn)
| OutOfFuel.

(** [e.preventDefault()] *)
Definition preventDefault (e : Arg) : Outcome :=
  match e with
  | FormEvent => Returned
  | Text _ => Threw "TypeError: e.preventDefault is not a function"
  end.

(** [handleSubmit] (lines 15-18), which calls itself with the query. *)
Fixpoint handleSubmit (fuel : nat) (query : string) (e : Arg) : Outcome :=
  match fuel with
  | O => OutOfFuel
  | S fuel' =>
      match preventDefault e with
      | Returned => handleSubmit fuel' query (Text query)
      | other => other
      end
  end.

Inductive Setter :=
| SetQuery (q : string)
| SetIsExpanded (b : bool).

(** [handleClear] (lines 20-24): the outcome and the setters called. *)
Definition handleClear (fuel : nat) (query : string) : Outcome * list Setter :=
  match handleSubmit fuel query (Text "") with
  | Returned => (Returned, [SetQuery ""; SetIsExpanded false])
  | other => (other, [SetQuery ""])
  end.

End SearchBar.

(** ** Further vocabulary *)

Module SpecExtra.

(** The URL the news handler fetches. *)
Definition news_url (w : FetchNews.World) : string :=
  String.append
    "https://newsapi.org/v2/everything?q=technology OR sports&language=en&sortBy=publishedAt&apiKey="
    (FetchNews.NEWS_API_KEY w).

(** [a] is the article the [.map] callback of fetch-news makes of [x]. *)
Definition transformed_from (w : FetchNews.World)
    (x : FetchNews.NewsAPIArticle) (a : FetchNews.TransformedArticle) : Prop :=
  exists b64,
    FetchNews.btoa w (FetchNews.url x) = inr b64
    /\ a = {| FetchNews.id := String.substring 0 20 (FetchNews.keep_alnum b64);
              FetchNews.t_title := FetchNews.title x;
              FetchNews.summary := FetchNews.description x;
              FetchNews.t_content :=
                FetchNews.or_str (FetchNews.content x) (FetchNews.description x);
              FetchNews.t_url := FetchNews.url x;
              FetchNews.image_url := FetchNews.urlToImage x;
              FetchNews.source := FetchNews.source_name x;
              FetchNews.category := FetchNews.classify (FetchNews.title x);
              FetchNews.language := "en";
              FetchNews.published_at := FetchNews.publishedAt x |}.

(** Every character of a string is a letter or a digit. *)
Definition alphanumeric (s : string) : Prop :=
  forallb FetchNews.is_alnum (list_ascii_of_string s) = true.

(** The request carries a bearer token that the identity provider resolves,
    without error, to [user]. *)
Definition authenticated (w : Recommend.World) (req : Recommend.Request)
    (user : string) : Prop :=
  Recommend.method req <> "OPTIONS"
  /\ exists h,
       Recommend.authorization req = Some h
       /\ Recommend.auth_getUser w (JS.replace "Bearer " "" h)
          = inr (Some user, None).

(** The identifiers of the interacted set built from a query answer. *)
Definition interacted_of (inter : QueryResult (list string)) : list string :=
  match data inter with Some ids => ids | None => [] end.

(** The candidates of a recommendation: the pool without the interacted. *)
Definition candidates_of (ids : list string) (pool : list Recommend.Article)
  : list Recommend.Article :=
  filter (fun a => negb (JS.set_has ids (Recommend.id a))) pool.

(** The calls a recommendation run has logged after each of its steps. *)
Definition rec_calls (w : Recommend.World) (req : Recommend.Request)
    (user : string) (n : nat) : list event :=
  firstn n
    [EvGetUser (match Recommend.authorization req with
                | Some h => JS.replace "Bearer " "" h
                | None => ""
                end);
     EvSelectActivities user (Recommend.clock w 0 - 30 * ms_per_day);
     EvSelectArticles (Recommend.clock w 1 - 7 * ms_per_day);
     EvSelectInteracted user].

(** The run of generate-recommendations for an authenticated request. *)
Definition recommend_run (w : Recommend.World) (req : Recommend.Request)
    (user : string) : Recommend.Response * hstate :=
  let failed msg n :=
    ({| Recommend.status := 500; Recommend.body := Recommend.ErrorBody msg |},
     {| calls := rec_calls w req user n; ticks := Nat.pred n |}) in
  match Recommend.select_activities w user
          (Recommend.clock w 0 - 30 * ms_per_day) with
  | inl _ => failed "Internal server error" 2%nat
  | inr acts =>
      match error acts, data acts with
      | Some _, _ => failed "Failed to fetch user activities" 2%nat
      | None, None => failed "Internal server error" 2%nat
      | None, Some activities =>
          let tc := Recommend.topCategories activities in
          let ts := Recommend.topSources activities in
          match Recommend.select_articles w
                  (Recommend.clock w 1 - 7 * ms_per_day) with
          | inl _ => failed "Internal server error" 3%nat
          | inr arts =>
              match error arts with
              | Some _ => failed "Failed to fetch articles" 3%nat
              | None =>
                  match Recommend.select_interacted w user, data arts with
                  | inl _, _ => ({| Recommend.status := 500;
                                    Recommend.body :=
                                      Recommend.ErrorBody
                                        "Internal server error" |},
                                 {| calls := rec_calls w req user 4;
                                    ticks := 2 |})
                  | inr _, None => ({| Recommend.status := 500;
                                       Recommend.body :=
                                         Recommend.ErrorBody
                                           "Internal server error" |},
                                    {| calls := rec_calls w req user 4;
                                       ticks := 2 |})
                  | inr inter, Some pool =>
                      let cands := candidates_of (interacted_of inter) pool in
                      ({| Recommend.status := 200;
                          Recommend.body :=
                            Recommend.Recommendations
                              (JS.slice0
                                 (JS.sort Recommend.by_score_desc
                                    (Spec.scored_from w tc ts 2 cands))
                                 20)
                              tc ts |},
                       {| calls := rec_calls w req user 4;
                          ticks := (2 + List.length cands)%nat |})
                  end
              end
          end
      end
  end.

(** The trimmed query text of a search request. *)
Definition query_text (req : BertSearch.Request) : BertSearch.jsstring :=
  BertSearch.trim
    (match BertSearch.json req with
     | Some b => match BertSearch.query b with Some s => s | None => [] end
     | None => []
     end).

(** [OPENAI_API_KEY ?? EMBEDDING_API_KEY] *)
Definition api_key (w : BertSearch.World) : option string :=
  match BertSearch.OPENAI_API_KEY w with
  | Some k => Some k
  | None => BertSearch.EMBEDDING_API_KEY w
  end.

Definition embedding_model : string := "text-embedding-3-small".

(** The string is empty or begins with a character that is not white space. *)
Definition starts_clean (s : BertSearch.jsstring) : Prop :=
  match s with
  | [] => True
  | c :: _ => BertSearch.is_space c = false
  end.

Definition blank (s : BertSearch.jsstring) : Prop :=
  Forall (fun c => BertSearch.is_space c = true) s.

Definition is_select_candidates (e : event) : bool :=
  match e with EvSelectCandidates _ => true | _ => false end.

(** [sub] is [l] with some of its elements left out. *)
Inductive subseq {A : Type} : list A -> list A -> Prop :=
| subseq_nil : subseq [] []
| subseq_skip x sub l : subseq sub l -> subseq sub (x :: l)
| subseq_keep x sub l : subseq sub l -> subseq (x :: sub) (x :: l).

(** An article passes the search and every filter that is set. *)
Definition passes (env : NewsFeed.Env) (searchQuery : string)
    (filters : NewsFilters.Filters) (now : Z) (a : NewsFeed.NewsArticle)
  : bool :=
  (negb (FetchNews.truthy searchQuery)
   || NewsFeed.matches_search env searchQuery a)
  && (negb (FetchNews.truthy (NewsFeed.prop filters "category"))
      || String.eqb (FetchNews.category a) (NewsFeed.prop filters "category"))
  && (negb (FetchNews.truthy (NewsFeed.prop filters "source"))
      || JS.includes (NewsFeed.toLowerCase env (FetchNews.source a))
           (NewsFeed.toLowerCase env (NewsFeed.prop filters "source")))
  && (negb (FetchNews.truthy (NewsFeed.prop filters "language"))
      || String.eqb (FetchNews.language a) (NewsFeed.prop filters "language"))
  && (negb (FetchNews.truthy (NewsFeed.prop filters "dateRange"))
      || NewsFeed.published_since env
           (NewsFeed.startDate env now (NewsFeed.prop filters "dateRange")) a).

(** The search endpoint as [fetch] sees it: the response of the handler to
    a POST of the body, [ok] for a 2xx status. *)
Definition served_by (w : BertSearch.World)
  : string -> BertSearch.RequestBody -> exn + SearchBar.HttpRes :=
  fun _ body =>
    let resp :=
      fst (BertSearch.bert_search w
             {| BertSearch.method := "POST"; BertSearch.json := Some body |}) in
    inr {| SearchBar.ok := (200 <=? BertSearch.status resp)
                           && (BertSearch.status resp <=? 299);
           SearchBar.json := inr (BertSearch.body resp) |}.

End SpecExtra.

(** ** Further sample runs *)

Module MoreSamples.

(** A deployment without a NewsAPI key. *)
Definition unconfigured_news_world : FetchNews.World :=
  {| FetchNews.NEWS_API_KEY := "";
     FetchNews.fetch := FetchNews.fetch Samples.news_world;
     FetchNews.btoa := FetchNews.btoa Samples.news_world |}.

(** An article whose URL [btoa] refuses. *)
Definition unencodable : FetchNews.NewsAPIArticle :=
  {| FetchNews.title := "Euro rises";
     FetchNews.description := "Markets";
     FetchNews.url := "https://example.com/%E2%82%AC-rises";
     FetchNews.urlToImage := "";
     FetchNews.source_name := "Example";
     FetchNews.publishedAt := "2024-01-02T00:00:00Z";
     FetchNews.content := "" |}.

Definition mixed_news_world : FetchNews.World :=
  {| FetchNews.NEWS_API_KEY := "key";
     FetchNews.fetch := fun _ =>
       inr {| FetchNews.ok := true;
              FetchNews.json :=
                inr {| FetchNews.d_status := "ok"; FetchNews.message := "";
                       FetchNews.articles :=
                         Some [Samples.sports_headline; unencodable] |} |};
     FetchNews.btoa := FetchNews.btoa Samples.news_world |}.

Definition wrong_token_request : Recommend.Request :=
  {| Recommend.method := "POST";
     Recommend.authorization := Some "Bearer wrong" |}.

(** The activities query fails. *)
Definition failing_activities_world : Recommend.World :=
  {| Recommend.clock := Recommend.clock Samples.rec_world;
     Recommend.auth_getUser := Recommend.auth_getUser Samples.rec_world;
     Recommend.select_activities := fun _ _ =>
       inr {| data := None; error := Some "statement timeout" |};
     Recommend.select_articles := Recommend.select_articles Samples.rec_world;
     Recommend.select_interacted :=
       Recommend.select_interacted Samples.rec_world |}.

(** The query for the interacted articles fails; the two queries before it
    are answered as in [Samples.rec_world]. *)
Definition lost_history_world : Recommend.World :=
  {| Recommend.clock := Recommend.clock Samples.rec_world;
     Recommend.auth_getUser := Recommend.auth_getUser Samples.rec_world;
     Recommend.select_activities :=
       Recommend.select_activities Samples.rec_world;
     Recommend.select_articles := Recommend.select_articles Samples.rec_world;
     Recommend.select_interacted := fun _ =>
       inr {| data := None;
              error :=
                Some "canceling statement due to statement timeout" |} |}.

(** A user without any activity. *)
Definition new_user_world : Recommend.World :=
  {| Recommend.clock := Recommend.clock Samples.rec_world;
     Recommend.auth_getUser := Recommend.auth_getUser Samples.rec_world;
     Recommend.select_activities := fun _ _ =>
       inr {| data := Some []; error := None |};
     Recommend.select_articles := Recommend.select_articles Samples.rec_world;
     Recommend.select_interacted := fun _ =>
       inr {| data := Some []; error := None |} |}.

(** The recommendations of the sample run of [Samples.rec_world]. *)
Definition sample_recs : list Recommend.ScoredArticle :=
  [ Samples.scored_sports;
    {| Recommend.article := Samples.fresh_world_news;
       Recommend.score :=
         Recommend.score_article ["sports"; "technology"]
           ["espn"; "bbc"; "cnn"] 7200002 Samples.fresh_world_news |} ].

(** An empty OPENAI_API_KEY beside a usable EMBEDDING_API_KEY. *)
Definition masked_key_world : BertSearch.World :=
  {| BertSearch.clock := BertSearch.clock Samples.fallback_world;
     BertSearch.OPENAI_API_KEY := Some "";
     BertSearch.EMBEDDING_API_KEY := Some "sk";
     BertSearch.openai_embeddings :=
       BertSearch.openai_embeddings Samples.fallback_world;
     BertSearch.rpc_match_news :=
       BertSearch.rpc_match_news Samples.fallback_world;
     BertSearch.select_candidates :=
       BertSearch.select_candidates Samples.fallback_world;
     BertSearch.cosineSimilarity :=
       BertSearch.cosineSimilarity Samples.fallback_world |}.

(** A deployment without [match_news] whose candidates cannot be read. *)
Definition failing_candidates_world : BertSearch.World :=
  {| BertSearch.clock := BertSearch.clock Samples.fallback_world;
     BertSearch.OPENAI_API_KEY := Some "sk";
     BertSearch.EMBEDDING_API_KEY := None;
     BertSearch.openai_embeddings :=
       BertSearch.openai_embeddings Samples.fallback_world;
     BertSearch.rpc_match_news :=
       BertSearch.rpc_match_news Samples.fallback_world;
     BertSearch.select_candidates := fun _ =>
       inr {| data := None;
              error := Some "permission denied for table news_articles" |};
     BertSearch.cosineSimilarity :=
       BertSearch.cosineSimilarity Samples.fallback_world |}.

(** The query "  news " with white space around it. *)
Definition padded_search : BertSearch.Request :=
  {| BertSearch.method := "POST";
     BertSearch.json :=
       Some {| BertSearch.query := Some [32; 160; 110; 101; 119; 115; 9]%N;
               BertSearch.top_k := None |} |}.

(** A browser whose clock is UTC and whose dates are epoch milliseconds
    written in decimal; lower-casing is that of the ASCII letters. *)
Definition browser : NewsFeed.Env :=
  {| NewsFeed.toLowerCase := JS.toLowerCase;
     NewsFeed.getTime := fun s =>
       if String.eqb s "2024-01-01T00:00:00Z" then Some 1704067200000
       else None;
     NewsFeed.startOfDay := fun t => t - t mod 86400000;
     NewsFeed.startOfMonth := fun _ => 1704067200000 |}.

Definition reader_article : NewsFeed.NewsArticle := Samples.transformed_headline.

End MoreSamples.

(** * Properties *)

(** ** Facts about the built-ins *)

Module JSFacts.
Import JS Spec.

Lemma precedes_cons {A} (l : list A) (x a b : A) :
  precedes l a b -> precedes (x :: l) a b.
Proof.
  intros (l1 & l2 & -> & Hin). exists (x :: l1), l2. split; [reflexivity | exact Hin].
Qed.

Lemma precedes_head {A} (l : list A) (x b : A) : In b l -> precedes (x :: l) x b.
Proof. intros Hin. exists [], l. split; [reflexivity | exact Hin]. Qed.

Lemma precedes_map {A B} (f : A -> B) (l : list A) (a b : A) :
  precedes l a b -> precedes (map f l) (f a) (f b).
Proof.
  intros (l1 & l2 & -> & Hin). exists (map f l1), (map f l2).
  split; [now rewrite map_app | now apply in_map].
Qed.

Lemma StronglySorted_nth {A} (R : A -> A -> Prop) (l : list A) :
  StronglySorted R l ->
  forall i j a b, (i < j)%nat ->
    nth_error l i = Some a -> nth_error l j = Some b -> R a b.
Proof.
  induction 1 as [| x l Hs IH Hall]; intros i j a b Hij Hi Hj.
  - destruct i; discriminate.
  - destruct j as [| j]; [lia |]. simpl in Hj.
    destruct i as [| i]; simpl in Hi.
    + injection Hi as <-. rewrite Forall_forall in Hall.
      apply Hall. eapply nth_error_In; eassumption.
    + apply (IH i j); [lia | assumption | assumption].
Qed.

Lemma StronglySorted_weaken {A} (R1 R2 : A -> A -> Prop) (l : list A) :
  (forall a b, R1 a b -> R2 a b) -> StronglySorted R1 l -> StronglySorted R2 l.
Proof.
  intros Himp. induction 1 as [| x l Hs IH Hall]; constructor.
  - exact IH.
  - eapply Forall_impl; [| exact Hall]. intros b. apply Himp.
Qed.

Section SortFacts.
Context {A : Type}.
Variable after : A -> A -> bool.

(** The comparator is a strict weak order seen from its positive side. *)
Hypothesis after_asym : forall x y, after x y = true -> after y x = false.
Hypothesis after_negtrans :
  forall x y z, after x y = false -> after y z = false -> after x z = false.

Lemma insert_perm (x : A) (l : list A) : Permutation (insert after x l) (x :: l).
Proof.
  induction l as [| y l IH]; simpl.
  - apply Permutation_refl.
  - destruct (after x y).
    + eapply perm_trans; [apply perm_skip, IH | apply perm_swap].
    + apply Permutation_refl.
Qed.

Lemma sort_perm (l : list A) : Permutation (sort after l) l.
Proof.
  induction l as [| x l IH]; simpl.
  - apply perm_nil.
  - eapply perm_trans; [apply insert_perm | apply perm_skip, IH].
Qed.

Lemma sort_In (l : list A) (x : A) : In x (sort after l) <-> In x l.
Proof.
  split; apply Permutation_in; [| apply Permutation_sym]; apply sort_perm.
Qed.

Lemma sort_length (l : list A) : List.length (sort after l) = List.length l.
Proof. apply Permutation_length, sort_perm. Qed.

Lemma stays_before_cons (l : list A) (x a b : A) :
  stays_before after l a b -> stays_before after (x :: l) a b.
Proof.
  intros [H | (H1 & H2 & H3)]; [left; exact H | right].
  repeat split; try assumption. now apply precedes_cons.
Qed.

Lemma stays_before_not_after (l : list A) (a b : A) :
  stays_before after l a b -> after a b = false.
Proof. intros [H | (H & _)]; [now apply after_asym | exact H]. Qed.

Lemma insert_stable (l : list A) (x : A) (L : list A) :
  (forall z, In z L -> In z l) ->
  StronglySorted (stays_before after l) L ->
  StronglySorted (stays_before after (x :: l)) (insert after x L).
Proof.
  intros Hsub Hs. induction Hs as [| y L Hs IH Hall]; simpl.
  - constructor; constructor.
  - assert (HsubL : forall z, In z L -> In z l)
      by (intros z Hz; apply Hsub; now right).
    destruct (after x y) eqn:Hxy.
    + constructor; [exact (IH HsubL) |].
      rewrite Forall_forall in *. intros z Hz.
      apply (Permutation_in _ (insert_perm x L)) in Hz.
      destruct Hz as [<- | Hz].
      * left. exact Hxy.
      * apply stays_before_cons, Hall, Hz.
    + constructor.
      * constructor; [| eapply Forall_impl; [| exact Hall];
                         intros b; apply stays_before_cons].
        eapply StronglySorted_weaken; [| exact Hs].
        intros a b. apply stays_before_cons.
      * assert (Hx : forall z, In z (y :: L) -> after x z = false).
        { intros z [<- | Hz]; [exact Hxy |].
          rewrite Forall_forall in Hall.
          eapply after_negtrans; [exact Hxy |].
          eapply stays_before_not_after, Hall, Hz. }
        rewrite Forall_forall. intros z Hz.
        destruct (after z x) eqn:Hzx; [left; exact Hzx | right].
        repeat split; [now apply Hx | exact Hzx |].
        apply precedes_head, Hsub, Hz.
Qed.

(** The sort is stable. *)
Lemma sort_stable (l : list A) : StronglySorted (stays_before after l) (sort after l).
Proof.
  induction l as [| x l IH]; simpl.
  - constructor.
  - apply insert_stable; [| exact IH]. intros z. apply sort_In.
Qed.

(** The sort orders: no element has to come after a later one. *)
Lemma sort_sorted (l : list A) :
  StronglySorted (fun a b => after a b = false) (sort after l).
Proof.
  eapply StronglySorted_weaken; [| apply sort_stable].
  intros a b. apply stays_before_not_after.
Qed.
End SortFacts.

Lemma slice0_firstn {A} (l : list A) (e : Z) :
  0 <= e -> slice0 l e = firstn (Z.to_nat e) l.
Proof.
  intros He. unfold slice0.
  destruct (Z.ltb_spec e 0) as [Hlt | _]; [lia |].
  destruct (Z.le_gt_cases e (Z.of_nat (List.length l))) as [Hle | Hgt].
  - now rewrite Z.min_l.
  - rewrite Z.min_r by lia. rewrite Nat2Z.id.
    rewrite firstn_all. symmetry. apply firstn_all2. lia.
Qed.

Lemma slice0_prefix {A} (l : list A) (e : Z) :
  exists n, slice0 l e = firstn n l.
Proof. unfold slice0. eexists. reflexivity. Qed.

Lemma slice0_length {A} (l : list A) (e : Z) :
  0 <= e -> Z.of_nat (List.length (slice0 l e)) <= e.
Proof.
  intros He. rewrite slice0_firstn by assumption.
  pose proof (firstn_le_length (Z.to_nat e) l). lia.
Qed.

Lemma firstn_nth {A} (n i : nat) (l : list A) (x : A) :
  nth_error (firstn n l) i = Some x -> (i < n)%nat /\ nth_error l i = Some x.
Proof.
  revert i l. induction n as [| n IH]; intros i l H.
  - simpl in H. destruct i; discriminate.
  - destruct l as [| y l]; [destruct i; discriminate |].
    destruct i as [| i]; simpl in *.
    + split; [lia | exact H].
    + apply IH in H. split; [lia | tauto].
Qed.

Lemma nth_firstn {A} (n i : nat) (l : list A) :
  (i < n)%nat -> nth_error (firstn n l) i = nth_error l i.
Proof.
  revert i l. induction n as [| n IH]; intros i l H; [lia |].
  destruct l as [| y l]; [reflexivity |].
  destruct i as [| i]; simpl; [reflexivity | apply IH; lia].
Qed.

Lemma indexOf_rank (l : list string) (x : string) :
  indexOf l x = match rank l x with Some i => Z.of_nat i | None => -1 end.
Proof.
  induction l as [| y l IH]; simpl; [reflexivity |].
  destruct (String.eqb y x); [reflexivity |].
  rewrite IH. destruct (rank l x) as [i |]; simpl; [| reflexivity].
  destruct (Z.eqb_spec (Z.of_nat i) (-1)); lia.
Qed.

Lemma rank_None (l : list string) (x : string) : rank l x = None <-> ~ In x l.
Proof.
  induction l as [| y l IH]; simpl; [tauto |].
  destruct (String.eqb_spec y x) as [-> | Hne].
  - split; [discriminate | intros H; exfalso; apply H; now left].
  - destruct (rank l x); simpl.
    + split; [discriminate |]. intros H. exfalso. apply H. right.
      destruct IH as [_ IH]. destruct (in_dec string_dec x l) as [Hin | Hnin];
        [exact Hin | now specialize (IH Hnin)].
    + split; [| reflexivity]. intros _ [H | H]; [congruence | now apply IH].
Qed.

Lemma rank_nth (l : list string) (x : string) (i : nat) :
  NoDup l -> nth_error l i = Some x -> rank l x = Some i.
Proof.
  intros Hnd. revert i. induction Hnd as [| y l Hnin Hnd IH]; intros i Hi.
  - destruct i; discriminate.
  - destruct i as [| i]; simpl in *.
    + injection Hi as ->. now rewrite String.eqb_refl.
    + destruct (String.eqb_spec y x) as [-> | Hne].
      * exfalso. apply Hnin. eapply nth_error_In; eassumption.
      * now rewrite (IH i Hi).
Qed.

End JSFacts.

(** ** The preference aggregator *)

Module AggregatorFacts.
Import JS Spec JSFacts Recommend.

Lemma or_zero_get (o : option Z) :
  or_zero o = match o with Some v => v | None => 0 end.
Proof.
  destruct o as [v |]; simpl; [| reflexivity].
  destruct (Z.eqb_spec v 0); congruence.
Qed.

Lemma map_get_None (m : Map) (k : string) :
  map_get m k = None <-> ~ In k (map fst m).
Proof.
  induction m as [| [k' v] m IH]; simpl; [tauto |].
  destruct (String.eqb_spec k' k) as [-> | Hne].
  - split; [discriminate | intros H; exfalso; apply H; now left].
  - rewrite IH. tauto.
Qed.

Lemma map_get_In (m : Map) (k : string) (v : Z) :
  NoDup (map fst m) -> In (k, v) m -> map_get m k = Some v.
Proof.
  induction m as [| [k' v'] m IH]; simpl; intros Hnd Hin; [tauto |].
  inversion Hnd as [| ? ? Hnin Hnd']; subst.
  destruct Hin as [Heq | Hin].
  - injection Heq as -> ->. now rewrite String.eqb_refl.
  - destruct (String.eqb_spec k' k) as [-> | Hne]; [| now apply IH].
    exfalso. apply Hnin. change k with (fst (k, v)). now apply in_map.
Qed.

Lemma map_get_set_same (m : Map) (k : string) (v : Z) :
  map_get (map_set m k v) k = Some v.
Proof.
  induction m as [| [k' v'] m IH]; simpl.
  - now rewrite String.eqb_refl.
  - destruct (String.eqb_spec k' k) as [-> | Hne]; simpl.
    + now rewrite String.eqb_refl.
    + destruct (String.eqb_spec k' k); [congruence | exact IH].
Qed.

Lemma map_get_set_other (m : Map) (k k' : string) (v : Z) :
  k <> k' -> map_get (map_set m k v) k' = map_get m k'.
Proof.
  intros Hne. induction m as [| [k0 v0] m IH]; simpl.
  - destruct (String.eqb_spec k k'); [congruence | reflexivity].
  - destruct (String.eqb_spec k0 k) as [-> | Hne0]; simpl.
    + destruct (String.eqb_spec k k'); [congruence | reflexivity].
    + now rewrite IH.
Qed.

(** [set] on a present key keeps the order of the keys. *)
Lemma keys_set_present (m : Map) (k : string) (v : Z) :
  In k (map fst m) -> map fst (map_set m k v) = map fst m.
Proof.
  induction m as [| [k' v'] m IH]; simpl; [tauto |].
  intros Hin. destruct (String.eqb_spec k' k) as [-> | Hne]; simpl.
  - reflexivity.
  - f_equal. apply IH. destruct Hin; [congruence | assumption].
Qed.

(** [set] on a fresh key appends the entry. *)
Lemma set_fresh (m : Map) (k : string) (v : Z) :
  ~ In k (map fst m) -> map_set m k v = m ++ [(k, v)].
Proof.
  induction m as [| [k' v'] m IH]; simpl; [reflexivity |].
  intros Hnin. destruct (String.eqb_spec k' k) as [-> | Hne].
  - exfalso. apply Hnin. now left.
  - f_equal. apply IH. tauto.
Qed.

Section OneMap.
(** The loop as seen on one of its two maps. *)
Variable key : UserActivity -> string.

Lemma accumulated_snoc (acts : list UserActivity) (a : UserActivity) (k : string) :
  accumulated key (acts ++ [a]) k
  = accumulated key acts k + (if String.eqb (key a) k then weight a else 0).
Proof.
  induction acts as [| b acts IH]; simpl.
  - destruct (String.eqb (key a) k); lia.
  - destruct (String.eqb (key b) k); rewrite IH; lia.
Qed.

Lemma accumulated_absent (acts : list UserActivity) (k : string) :
  ~ In k (map key acts) -> accumulated key acts k = 0.
Proof.
  induction acts as [| b acts IH]; simpl; [reflexivity |].
  intros Hnin. destruct (String.eqb_spec (key b) k) as [Heq | Hne].
  - exfalso. apply Hnin. now left.
  - apply IH. tauto.
Qed.

Lemma encountered_before_snoc (l : list string) (c x y : string) :
  encountered_before l x y -> encountered_before (l ++ [c]) x y.
Proof.
  intros (Hne & l1 & l2 & -> & Hnin). split; [exact Hne |].
  exists l1, (l2 ++ [c]). split; [| exact Hnin].
  now rewrite <- app_assoc.
Qed.

Lemma precedes_snoc_inv {A} (l : list A) (c x y : A) :
  precedes (l ++ [c]) x y -> precedes l x y \/ (In x l /\ y = c).
Proof.
  intros (l1 & l2 & Heq & Hin).
  destruct (exists_last (l := l2)) as (l2' & z & ->).
  { intros ->. destruct Hin. }
  change (l1 ++ x :: l2' ++ [z]) with (l1 ++ (x :: l2') ++ [z]) in Heq.
  rewrite app_assoc in Heq. apply app_inj_tail in Heq as [-> ->].
  apply in_app_or in Hin as [Hin | [<- | []]].
  - left. now exists l1, l2'.
  - right. split; [| reflexivity]. apply in_or_app. right. now left.
Qed.

Lemma loop_inv (acts : list UserActivity) :
  aggregate_inv key acts (loop key acts []).
Proof.
  induction acts as [| a acts IH] using rev_ind.
  - split; simpl.
    + constructor.
    + tauto.
    + tauto.
    + intros x y (l1 & l2 & Heq & _). destruct l1; discriminate.
  - unfold loop in *. rewrite fold_left_app. simpl.
    set (m := fold_left (fun m a => tally m (key a) (weight a)) acts []) in *.
    destruct IH as [Hnd Hkeys Hval Hord].
    unfold tally. rewrite or_zero_get.
    assert (Hlabels : map key (acts ++ [a]) = map key acts ++ [key a])
      by now rewrite map_app.
    destruct (in_dec string_dec (key a) (map fst m)) as [Hin | Hnin].
    + (* the label is already a key *)
      rewrite (Hval _ (proj1 (Hkeys _) Hin)).
      split; rewrite ?Hlabels.
      * now rewrite keys_set_present.
      * intros k. rewrite keys_set_present by assumption.
        rewrite Hkeys, in_app_iff. simpl. split; [tauto |].
        intros [H | [<- | []]]; [exact H | now apply Hkeys].
      * intros k Hk. rewrite accumulated_snoc.
        destruct (String.eqb_spec (key a) k) as [<- | Hne].
        -- apply map_get_set_same.
        -- rewrite map_get_set_other by assumption. rewrite Z.add_0_r.
           apply Hval. apply in_app_or in Hk as [Hk | [Hk | []]];
             [exact Hk | congruence].
      * intros x y. rewrite keys_set_present by assumption.
        intros H. apply encountered_before_snoc, Hord, H.
    + (* the label is fresh *)
      assert (Hnl : ~ In (key a) (map key acts)) by now rewrite <- Hkeys.
      rewrite (proj2 (map_get_None m (key a)) Hnin).
      rewrite set_fresh by assumption.
      split; rewrite ?Hlabels.
      * rewrite map_app. simpl.
        apply NoDup_app; [exact Hnd | repeat constructor; tauto |].
        intros k Hk [<- | []]. contradiction.
      * intros k. rewrite map_app, !in_app_iff, Hkeys. simpl. tauto.
      * intros k Hk. rewrite accumulated_snoc.
        destruct (String.eqb_spec (key a) k) as [<- | Hne].
        -- rewrite accumulated_absent by assumption.
           rewrite <- set_fresh by assumption. apply map_get_set_same.
        -- rewrite <- set_fresh by assumption.
           rewrite map_get_set_other by assumption. rewrite Z.add_0_r.
           apply Hval. apply in_app_or in Hk as [Hk | [Hk | []]];
             [exact Hk | congruence].
      * intros x y. rewrite map_app. simpl. intros H.
        apply precedes_snoc_inv in H as [H | [Hx ->]].
        -- apply encountered_before_snoc, Hord, H.
        -- apply Hkeys in Hx. split; [congruence |].
           apply in_split in Hx as (l1 & l2 & Heq).
           exists l1, (l2 ++ [key a]). split.
           ++ rewrite Heq, <- app_assoc. reflexivity.
           ++ intros Hl. apply Hnl. rewrite Heq. apply in_or_app. now left.
Qed.
End OneMap.

Lemma weight_cases (a : UserActivity) :
  weight a = 1 \/ weight a = 2 \/ weight a = 3 \/ weight a = 5.
Proof.
  unfold weight.
  repeat match goal with |- context [if ?b then _ else _] => destruct b end;
    tauto.
Qed.

Lemma weight_pos (a : UserActivity) : 0 < weight a.
Proof. destruct (weight_cases a) as [H | [H | [H | H]]]; lia. Qed.

Lemma accumulated_nonneg (key : UserActivity -> string)
    (acts : list UserActivity) (k : string) : 0 <= accumulated key acts k.
Proof.
  induction acts as [| a acts IH]; simpl; [lia |].
  pose proof (weight_pos a). destruct (String.eqb (key a) k); lia.
Qed.

Lemma accumulated_pos (key : UserActivity -> string)
    (acts : list UserActivity) (k : string) :
  In k (map key acts) -> 0 < accumulated key acts k.
Proof.
  induction acts as [| a acts IH]; simpl; [tauto |].
  pose proof (weight_pos a). pose proof (accumulated_nonneg key acts k).
  destruct (String.eqb_spec (key a) k) as [Heq | Hne]; [lia |].
  intros [H' | H']; [congruence | now apply IH].
Qed.

Lemma analyze_fold (acts : list UserActivity) (m1 m2 : Map) :
  fold_left analyze_step acts (m1, m2)
  = (loop article_category acts m1, loop article_source acts m2).
Proof.
  revert m1 m2. induction acts as [| a acts IH]; intros m1 m2; simpl.
  - reflexivity.
  - unfold analyze_step at 2. simpl. apply IH.
Qed.

Lemma categoryPreferences_inv (acts : list UserActivity) :
  aggregate_inv article_category acts (categoryPreferences acts).
Proof.
  unfold categoryPreferences, analyze. rewrite analyze_fold. apply loop_inv.
Qed.

Lemma sourcePreferences_inv (acts : list UserActivity) :
  aggregate_inv article_source acts (sourcePreferences acts).
Proof.
  unfold sourcePreferences, analyze. rewrite analyze_fold. apply loop_inv.
Qed.

Lemma by_weight_desc_asym (x y : string * Z) :
  by_weight_desc x y = true -> by_weight_desc y x = false.
Proof.
  unfold by_weight_desc. intros H. apply Z.ltb_lt in H. apply Z.ltb_ge. lia.
Qed.

Lemma by_weight_desc_negtrans (x y z : string * Z) :
  by_weight_desc x y = false -> by_weight_desc y z = false ->
  by_weight_desc x z = false.
Proof.
  unfold by_weight_desc. rewrite !Z.ltb_ge. lia.
Qed.

Lemma top3_firstn (m : Map) :
  top3 m = map fst (firstn 3 (sort by_weight_desc m)).
Proof. unfold top3. now rewrite slice0_firstn by lia. Qed.

Lemma top3_nth (m : Map) (i : nat) (x : string) :
  nth_error (top3 m) i = Some x ->
  exists e, (i < 3)%nat /\ nth_error (sort by_weight_desc m) i = Some e
            /\ fst e = x /\ In e m.
Proof.
  rewrite top3_firstn, nth_error_map.
  destruct (nth_error (firstn 3 (sort by_weight_desc m)) i) as [e |] eqn:He;
    [| discriminate].
  simpl. intros [= <-]. apply firstn_nth in He as [Hi He].
  exists e. repeat split; try assumption.
  eapply sort_In, nth_error_In, He.
Qed.

Section Ranking.
Variable key : UserActivity -> string.
Variable acts : list UserActivity.
Variable m : Map.
Hypothesis Hinv : aggregate_inv key acts m.

Lemma entry_weight (e : string * Z) :
  In e m -> snd e = accumulated key acts (fst e).
Proof.
  intros He. destruct Hinv as [Hnd Hkeys Hval _].
  assert (Hk : In (fst e) (map fst m)) by now apply in_map.
  pose proof (Hval _ (proj1 (Hkeys _) Hk)) as Hv.
  destruct e as [k v]. simpl in *.
  rewrite (map_get_In m k v Hnd He) in Hv. congruence.
Qed.

Lemma entry_outranks (e1 e2 : string * Z) :
  In e1 m -> In e2 m -> stays_before by_weight_desc m e1 e2 ->
  outranks key acts (fst e1) (fst e2).
Proof.
  intros H1 H2 Hs. unfold outranks.
  rewrite <- (entry_weight e1 H1), <- (entry_weight e2 H2).
  destruct Hs as [Hlt | (Ha & Hb & Hp)].
  - left. unfold by_weight_desc in Hlt. apply Z.ltb_lt in Hlt. lia.
  - right. unfold by_weight_desc in Ha, Hb. apply Z.ltb_ge in Ha, Hb.
    split; [lia |]. apply (inv_order _ _ _ Hinv). now apply precedes_map.
Qed.

Lemma top3_ranked : ranked key acts (top3 m).
Proof.
  pose proof (sort_stable by_weight_desc by_weight_desc_asym
                by_weight_desc_negtrans m) as Hs.
  split.
  - intros i j x y Hij Hx Hy.
    apply top3_nth in Hx as (e1 & _ & Hn1 & <- & Hm1).
    apply top3_nth in Hy as (e2 & _ & Hn2 & <- & Hm2).
    apply entry_outranks; try assumption.
    eapply StronglySorted_nth; eassumption.
  - intros x y Hx Hy Hny.
    apply In_nth_error in Hx as (i & Hx).
    apply top3_nth in Hx as (e1 & Hi & Hn1 & <- & Hm1).
    apply (inv_keys _ _ _ Hinv) in Hy. apply in_map_iff in Hy as (e2 & <- & Hm2).
    assert (Hf : In e2 (sort by_weight_desc m)) by now apply sort_In.
    apply In_nth_error in Hf as (j & Hn2).
    destruct (Nat.lt_ge_cases j 3) as [Hj | Hj].
    + exfalso. apply Hny. rewrite top3_firstn. apply in_map.
      eapply nth_error_In. rewrite nth_firstn by exact Hj. exact Hn2.
    + apply entry_outranks; try assumption.
      eapply (StronglySorted_nth _ _ Hs i j); [lia | eassumption | eassumption].
Qed.

Lemma top3_NoDup : NoDup (top3 m).
Proof.
  rewrite top3_firstn.
  assert (Hnd : NoDup (map fst (sort by_weight_desc m))).
  { eapply Permutation_NoDup; [| exact (inv_nodup _ _ _ Hinv)].
    apply Permutation_map, Permutation_sym, sort_perm. }
  rewrite <- (firstn_skipn 3 (sort by_weight_desc m)), map_app in Hnd.
  eapply NoDup_app_remove_r, Hnd.
Qed.

Lemma top3_In (x : string) : In x (top3 m) -> In x (map key acts).
Proof.
  intros Hx. apply In_nth_error in Hx as (i & Hx).
  apply top3_nth in Hx as (e & _ & _ & <- & He).
  apply (inv_keys _ _ _ Hinv). now apply in_map.
Qed.

Lemma entries_positive (k : string) (v : Z) : In (k, v) m -> 0 < v.
Proof.
  intros He. change v with (snd (k, v)). rewrite (entry_weight _ He). simpl.
  apply accumulated_pos, (inv_keys _ _ _ Hinv).
  change k with (fst (k, v)). now apply in_map.
Qed.

End Ranking.

Lemma top3_length (m : Map) :
  List.length (top3 m) = Nat.min 3 (List.length m).
Proof.
  rewrite top3_firstn, length_map, length_firstn.
  now rewrite (sort_length by_weight_desc m).
Qed.

Lemma distinct_labels (key : UserActivity -> string)
    (acts : list UserActivity) (m : Map) :
  aggregate_inv key acts m ->
  List.length m = List.length (nodup string_dec (map key acts)).
Proof.
  intros Hinv. rewrite <- (length_map fst m).
  apply Permutation_length, NoDup_Permutation.
  - exact (inv_nodup _ _ _ Hinv).
  - apply NoDup_nodup.
  - intros k. rewrite nodup_In. apply (inv_keys _ _ _ Hinv).
Qed.

Lemma accumulated_perm (key : UserActivity -> string)
    (l1 l2 : list UserActivity) (k : string) :
  Permutation l1 l2 -> accumulated key l1 k = accumulated key l2 k.
Proof.
  induction 1 as [| a l l' _ IH | a b l | l l' l'' _ IH1 _ IH2]; simpl.
  - reflexivity.
  - now rewrite IH.
  - destruct (String.eqb (key a) k), (String.eqb (key b) k); lia.
  - congruence.
Qed.

Lemma accumulated_app (key : UserActivity -> string)
    (l1 l2 : list UserActivity) (k : string) :
  accumulated key (l1 ++ l2) k = accumulated key l1 k + accumulated key l2 k.
Proof.
  induction l1 as [| a l1 IH]; simpl; [reflexivity |].
  destruct (String.eqb (key a) k); lia.
Qed.

Lemma preferences_weight (key : UserActivity -> string)
    (acts : list UserActivity) (m : Map) (k : string) :
  aggregate_inv key acts m ->
  or_zero (map_get m k) = accumulated key acts k.
Proof.
  intros Hinv. rewrite or_zero_get.
  destruct (in_dec string_dec k (map key acts)) as [Hin | Hnin].
  - now rewrite (inv_value _ _ _ Hinv k Hin).
  - rewrite (accumulated_absent key acts k Hnin).
    assert (H : map_get m k = None)
      by (apply map_get_None; now rewrite (inv_keys _ _ _ Hinv)).
    now rewrite H.
Qed.

(** Encounter order is asymmetric, and so is the ranking order. *)
Lemma encountered_before_asym (l : list string) (x y : string) :
  encountered_before l x y -> encountered_before l y x -> False.
Proof.
  intros (Hne & l1 & l2 & Heq & Hnin) (_ & l1' & l2' & Heq' & Hnin').
  subst l. revert l1' Heq' Hnin'.
  induction l1 as [| a l1 IH]; intros [| a' l1'] Heq' Hnin'; simpl in *.
  - congruence.
  - injection Heq' as -> _. apply Hnin'. now left.
  - injection Heq' as -> _. apply Hnin. now left.
  - injection Heq' as <- Heq'. apply (IH ltac:(tauto) l1' Heq'). tauto.
Qed.

Lemma outranks_asym (key : UserActivity -> string)
    (acts : list UserActivity) (x y : string) :
  outranks key acts x y -> outranks key acts y x -> False.
Proof.
  intros [H1 | [H1 E1]] [H2 | [H2 E2]]; try lia.
  eapply encountered_before_asym; eassumption.
Qed.

Lemma incl_or_witness (l l' : list string) :
  incl l l' \/ exists y, In y l /\ ~ In y l'.
Proof.
  induction l as [| a l [IH | (y & Hy & Hny)]].
  - left. intros x [].
  - destruct (in_dec string_dec a l') as [Ha | Ha].
    + left. intros x [<- | Hx]; [exact Ha | now apply IH].
    + right. exists a. split; [now left | exact Ha].
  - right. exists y. split; [now right | exact Hny].
Qed.

(** Two duplicate-free lists with the same elements, each in the order of an
    asymmetric relation, are the same list. *)
Lemma ordered_unique (R : string -> string -> Prop) (t1 t2 : list string) :
  (forall x y, R x y -> R y x -> False) ->
  (forall i j x y, (i < j)%nat ->
     nth_error t1 i = Some x -> nth_error t1 j = Some y -> R x y) ->
  (forall i j x y, (i < j)%nat ->
     nth_error t2 i = Some x -> nth_error t2 j = Some y -> R x y) ->
  NoDup t1 -> NoDup t2 -> (forall x, In x t1 <-> In x t2) -> t1 = t2.
Proof.
  intros Hasym. revert t2.
  induction t1 as [| x t1 IH]; intros [| y t2] H1 H2 Hnd1 Hnd2 Hsame.
  - reflexivity.
  - exfalso. apply (proj2 (Hsame y)). now left.
  - exfalso. apply (proj1 (Hsame x)). now left.
  - assert (Hxy : x = y).
    { destruct (string_dec x y) as [Heq | Hne]; [exact Heq | exfalso].
      assert (Hx : In x t2).
      { destruct (proj1 (Hsame x) (or_introl eq_refl)) as [H | H];
          [congruence | exact H]. }
      assert (Hy : In y t1).
      { destruct (proj2 (Hsame y) (or_introl eq_refl)) as [H | H];
          [congruence | exact H]. }
      apply In_nth_error in Hx as (j & Hj).
      apply In_nth_error in Hy as (i & Hi).
      apply (Hasym x y).
      - apply (H1 O (S i)); [lia | reflexivity | exact Hi].
      - apply (H2 O (S j)); [lia | reflexivity | exact Hj]. }
    subst y. f_equal.
    inversion Hnd1 as [| ? ? Hn1 Hnd1']; inversion Hnd2 as [| ? ? Hn2 Hnd2'];
      subst.
    apply IH; try assumption.
    + intros i j a b Hij Ha Hb.
      apply (H1 (S i) (S j)); [lia | exact Ha | exact Hb].
    + intros i j a b Hij Ha Hb.
      apply (H2 (S i) (S j)); [lia | exact Ha | exact Hb].
    + intros a. split; intros Ha.
      * destruct (proj1 (Hsame a) (or_intror Ha)) as [<- | H];
          [contradiction | exact H].
      * destruct (proj2 (Hsame a) (or_intror Ha)) as [<- | H];
          [contradiction | exact H].
Qed.

(** There is one top list: the properties of [top_three] determine it. *)
Lemma top_three_unique (key : UserActivity -> string)
    (acts : list UserActivity) (t1 t2 : list string) :
  top_three key acts t1 -> top_three key acts t2 -> t1 = t2.
Proof.
  intros ([Ho1 Hr1] & Hnd1 & Hin1 & Hl1) ([Ho2 Hr2] & Hnd2 & Hin2 & Hl2).
  assert (Hincl : forall a b : list string,
            NoDup a -> NoDup b -> List.length a = List.length b ->
            (forall x, In x a -> In x (map key acts)) ->
            (forall x, In x b -> In x (map key acts)) ->
            (forall x y, In x a -> In y (map key acts) -> ~ In y a ->
                         outranks key acts x y) ->
            (forall x y, In x b -> In y (map key acts) -> ~ In y b ->
                         outranks key acts x y) ->
            incl a b).
  { intros a b Hna Hnb Hlen Hia Hib Hra Hrb x Hx.
    destruct (in_dec string_dec x b) as [Hb | Hb]; [exact Hb | exfalso].
    destruct (incl_or_witness b a) as [Hba | (y & Hy & Hny)].
    - apply Hb.
      apply (@NoDup_length_incl _ b a Hnb); [lia | exact Hba | exact Hx].
    - apply (outranks_asym key acts x y).
      + apply Hra; [exact Hx | now apply Hib | exact Hny].
      + apply Hrb; [exact Hy | now apply Hia | exact Hb]. }
  apply (ordered_unique (outranks key acts)); try assumption.
  - apply outranks_asym.
  - intros x. split.
    + apply (Hincl t1 t2); try assumption. congruence.
    + apply (Hincl t2 t1); try assumption. congruence.
Qed.

Lemma top3_top_three (key : UserActivity -> string)
    (acts : list UserActivity) (m : Map) :
  aggregate_inv key acts m -> top_three key acts (top3 m).
Proof.
  intros Hinv. split; [| split; [| split]].
  - now apply top3_ranked.
  - eapply top3_NoDup, Hinv.
  - intros x. eapply top3_In, Hinv.
  - now rewrite top3_length, (distinct_labels _ _ _ Hinv).
Qed.

End AggregatorFacts.

Module Aggregator.
Import JS Spec JSFacts Recommend AggregatorFacts.

Lemma accumulated_counts (key : UserActivity -> string)
    (acts : list UserActivity) (a : UserActivity) :
  In a acts -> weight a <= accumulated key acts (key a).
Proof.
  induction acts as [| b acts IH]; simpl; [tauto |].
  pose proof (weight_pos b). pose proof (accumulated_nonneg key acts (key a)).
  intros [-> | Hin].
  - rewrite String.eqb_refl. lia.
  - specialize (IH Hin). destruct (String.eqb (key b) (key a)); lia.
Qed.

Lemma preferences_get (key : UserActivity -> string)
    (acts : list UserActivity) (m : Map) (k : string) :
  aggregate_inv key acts m ->
  map_get m k = if in_dec string_dec k (map key acts)
                then Some (accumulated key acts k) else None.
Proof.
  intros Hinv. destruct (in_dec string_dec k (map key acts)) as [Hin | Hnin].
  - now apply (inv_value _ _ _ Hinv).
  - apply map_get_None. now rewrite (inv_keys _ _ _ Hinv).
Qed.

(** C2: every activity record adds the weight of its kind (view 1, click 3,
    bookmark 5, dwell over 30 seconds 2, dwell of at most 30 seconds 1) to
    the entry of its category and to the entry of its source, so that an
    entry holds the sum of the weights of the records with that label; on a
    click and a view of "technology" followed by a bookmark of "sports" the
    category weights are technology 4, sports 5 and the top categories are
    sports, technology. *)
Theorem aggregator_weights :
  (forall a,
     (activity_type a = "view" -> weight a = 1)
     /\ (activity_type a = "click" -> weight a = 3)
     /\ (activity_type a = "bookmark" -> weight a = 5)
     /\ (activity_type a = "dwell" -> 30 < dwell_time a -> weight a = 2)
     /\ (activity_type a = "dwell" -> dwell_time a <= 30 -> weight a = 1))
  /\ (forall acts k,
        map_get (categoryPreferences acts) k
        = if in_dec string_dec k (map article_category acts)
          then Some (accumulated article_category acts k) else None)
  /\ (forall acts k,
        map_get (sourcePreferences acts) k
        = if in_dec string_dec k (map article_source acts)
          then Some (accumulated article_source acts k) else None)
  /\ (forall id1 d1 s1 id2 d2 s2 id3 d3 s3,
        let activities :=
          [ {| article_id := id1; activity_type := "click"; dwell_time := d1;
               article_category := "technology"; article_source := s1 |};
            {| article_id := id2; activity_type := "view"; dwell_time := d2;
               article_category := "technology"; article_source := s2 |};
            {| article_id := id3; activity_type := "bookmark"; dwell_time := d3;
               article_category := "sports"; article_source := s3 |} ] in
        categoryPreferences activities = [("technology", 4); ("sports", 5)]
        /\ topCategories activities = ["sports"; "technology"]).
Proof.
  split; [| split; [| split]].
  - intros a. unfold weight. repeat split.
    + intros ->. reflexivity.
    + intros ->. reflexivity.
    + intros ->. reflexivity.
    + intros -> H. simpl. now rewrite (proj2 (Z.ltb_lt _ _) H).
    + intros -> H. simpl. now rewrite (proj2 (Z.ltb_ge _ _) H).
  - intros acts k. apply preferences_get, categoryPreferences_inv.
  - intros acts k. apply preferences_get, sourcePreferences_inv.
  - intros. unfold topCategories.
    assert (H : categoryPreferences activities
                = [("technology", 4); ("sports", 5)]) by reflexivity.
    rewrite H. split; reflexivity.
Qed.

(** C4: the top-category and the top-source lists hold the labels of the
    input in descending order of accumulated weight, labels of equal weight
    in the order in which the input first shows them: min(3, d) of the d
    distinct labels, none twice, every label left out ranking after the
    labels kept; no other list has these properties.  Of two labels with one
    view each, the one the input shows first comes first. *)
Theorem preference_ranking_stable :
  (forall activities,
     ranked article_category activities (topCategories activities)
     /\ NoDup (topCategories activities)
     /\ (forall x, In x (topCategories activities) ->
                   In x (map article_category activities))
     /\ List.length (topCategories activities)
        = Nat.min 3 (List.length (nodup string_dec
                                    (map article_category activities)))
     /\ (forall top, top_three article_category activities top ->
                     top = topCategories activities))
  /\ (forall activities,
        ranked article_source activities (topSources activities)
        /\ NoDup (topSources activities)
        /\ (forall x, In x (topSources activities) ->
                      In x (map article_source activities))
        /\ List.length (topSources activities)
           = Nat.min 3 (List.length (nodup string_dec
                                       (map article_source activities)))
        /\ (forall top, top_three article_source activities top ->
                        top = topSources activities))
  /\ (forall id1 d1 id2 d2,
        let first label :=
          {| article_id := id1; activity_type := "view"; dwell_time := d1;
             article_category := label; article_source := label |} in
        let second label :=
          {| article_id := id2; activity_type := "view"; dwell_time := d2;
             article_category := label; article_source := label |} in
        topCategories [first "technology"; second "sports"]
        = ["technology"; "sports"]
        /\ topCategories [first "sports"; second "technology"]
           = ["sports"; "technology"]
        /\ topSources [first "bbc"; second "cnn"] = ["bbc"; "cnn"]
        /\ topSources [first "cnn"; second "bbc"] = ["cnn"; "bbc"]).
Proof.
  split; [| split].
  - intros activities.
    pose proof (top3_top_three _ _ _ (categoryPreferences_inv activities))
      as Htop.
    destruct Htop as (Hr & Hnd & Hin & Hlen).
    repeat split; try assumption; try apply Hr.
    intros top Htop. apply (top_three_unique article_category activities).
    + exact Htop.
    + apply top3_top_three, categoryPreferences_inv.
  - intros activities.
    pose proof (top3_top_three _ _ _ (sourcePreferences_inv activities))
      as Htop.
    destruct Htop as (Hr & Hnd & Hin & Hlen).
    repeat split; try assumption; try apply Hr.
    intros top Htop. apply (top_three_unique article_source activities).
    + exact Htop.
    + apply top3_top_three, sourcePreferences_inv.
  - intros. repeat split.
Qed.

(** What one record adds: with it the entry of its label is its weight more
    than without it, and no other entry differs. *)
Lemma record_contribution (key : UserActivity -> string)
    (before after : list UserActivity) (a : UserActivity) (m m' : Map) :
  aggregate_inv key (before ++ a :: after) m ->
  aggregate_inv key (before ++ after) m' ->
  map_get m (key a) = Some (or_zero (map_get m' (key a)) + weight a)
  /\ (forall k, k <> key a -> map_get m k = map_get m' k).
Proof.
  intros Hm Hm'.
  assert (Hacc : forall k,
            accumulated key (before ++ a :: after) k
            = accumulated key (before ++ after) k
              + (if String.eqb (key a) k then weight a else 0)).
  { intros k. rewrite !accumulated_app. simpl.
    destruct (String.eqb (key a) k); lia. }
  split.
  - rewrite (preferences_weight _ _ _ _ Hm').
    rewrite (inv_value _ _ _ Hm).
    + now rewrite Hacc, String.eqb_refl.
    + rewrite map_app. apply in_or_app. right. now left.
  - intros k Hk.
    rewrite (preferences_get _ _ _ k Hm), (preferences_get _ _ _ k Hm').
    rewrite Hacc.
    destruct (String.eqb_spec (key a) k) as [Heq | _]; [congruence |].
    rewrite Z.add_0_r.
    destruct (in_dec string_dec k (map key (before ++ a :: after)))
      as [H | H],
      (in_dec string_dec k (map key (before ++ after))) as [H' | H'];
      try reflexivity; exfalso.
    + apply H'. rewrite map_app in *. apply in_app_or in H as [H | [H | H]].
      * apply in_or_app. now left.
      * congruence.
      * apply in_or_app. now right.
    + apply H. rewrite map_app in *. apply in_app_or in H' as [H' | H'].
      * apply in_or_app. now left.
      * apply in_or_app. right. now right.
Qed.

(** C10: a record whose kind is not "click", not "bookmark" and not a "dwell"
    of more than 30 seconds, whatever its kind is, weighs 1 as a "view"
    does, and adds exactly 1 to the entry of its category and to the entry
    of its source: with the record these entries are 1 more than without
    it, and every other entry is the same; a lone record of this sort leaves
    1 under its category and 1 under its source.  No record is rejected:
    every record is counted under its category and under its source, and
    every weight held by the two preference maps is strictly positive. *)
Theorem default_weight_one :
  (forall a,
     activity_type a <> "click" -> activity_type a <> "bookmark" ->
     ~ (activity_type a = "dwell" /\ 30 < dwell_time a) ->
     weight a = 1
     /\ (forall v, activity_type v = "view" -> weight a = weight v)
     /\ (forall before after,
           map_get (categoryPreferences (before ++ a :: after))
                   (article_category a)
           = Some (or_zero (map_get (categoryPreferences (before ++ after))
                                    (article_category a)) + 1)
           /\ map_get (sourcePreferences (before ++ a :: after))
                      (article_source a)
              = Some (or_zero (map_get (sourcePreferences (before ++ after))
                                       (article_source a)) + 1)
           /\ (forall k, k <> article_category a ->
                 map_get (categoryPreferences (before ++ a :: after)) k
                 = map_get (categoryPreferences (before ++ after)) k)
           /\ (forall k, k <> article_source a ->
                 map_get (sourcePreferences (before ++ a :: after)) k
                 = map_get (sourcePreferences (before ++ after)) k))
     /\ categoryPreferences [a] = [(article_category a, 1)]
     /\ sourcePreferences [a] = [(article_source a, 1)])
  /\ (forall acts a, In a acts ->
        exists vc vs,
          map_get (categoryPreferences acts) (article_category a) = Some vc
          /\ weight a <= vc
          /\ map_get (sourcePreferences acts) (article_source a) = Some vs
          /\ weight a <= vs)
  /\ (forall acts k v,
        In (k, v) (categoryPreferences acts)
        \/ In (k, v) (sourcePreferences acts) ->
        0 < v).
Proof.
  split; [| split].
  - intros a Hc Hb Hd.
    assert (Hw : weight a = 1).
    { unfold weight.
      destruct (String.eqb_spec (activity_type a) "click"); [contradiction |].
      destruct (String.eqb_spec (activity_type a) "bookmark");
        [contradiction |].
      destruct (String.eqb_spec (activity_type a) "dwell"); [| reflexivity].
      destruct (Z.ltb_spec 30 (dwell_time a)); [| reflexivity].
      exfalso. apply Hd. now split. }
    split; [exact Hw | split; [| split; [| split]]].
    + intros v Hv. rewrite Hw. unfold weight. now rewrite Hv.
    + intros before after.
      destruct (record_contribution article_category before after a _ _
                  (categoryPreferences_inv _) (categoryPreferences_inv _))
        as [Hc1 Hc2].
      destruct (record_contribution article_source before after a _ _
                  (sourcePreferences_inv _) (sourcePreferences_inv _))
        as [Hs1 Hs2].
      rewrite Hw in Hc1, Hs1. repeat split; assumption.
    + unfold categoryPreferences, analyze. simpl. unfold tally. simpl.
      now rewrite Hw.
    + unfold sourcePreferences, analyze. simpl. unfold tally. simpl.
      now rewrite Hw.
  - intros acts a Hin.
    exists (accumulated article_category acts (article_category a)),
           (accumulated article_source acts (article_source a)).
    repeat split.
    + apply (inv_value _ _ _ (categoryPreferences_inv acts)).
      now apply in_map.
    + now apply accumulated_counts.
    + apply (inv_value _ _ _ (sourcePreferences_inv acts)).
      now apply in_map.
    + now apply accumulated_counts.
  - intros acts k v [H | H].
    + eapply entries_positive; [apply categoryPreferences_inv | exact H].
    + eapply entries_positive; [apply sourcePreferences_inv | exact H].
Qed.

End Aggregator.

(** ** The recommendation handler *)

Module RecommendFacts.
Import JS Spec JSFacts Recommend AggregatorFacts.

Lemma mapM_scoreM (w : World) (tc ts : list string) (l : list Article)
    (st : hstate) :
  mapM (scoreM w tc ts) l st
  = (inr (scored_from w tc ts (ticks st) l),
     {| calls := calls st; ticks := (ticks st + List.length l)%nat |}).
Proof.
  revert st. induction l as [| a l IH]; intros st; simpl.
  - unfold ret. destruct st as [c t]; simpl. now rewrite Nat.add_0_r.
  - unfold bind at 1. unfold scoreM at 1. unfold bind at 1. unfold now, ret.
    unfold bind at 1. rewrite IH. simpl. do 3 f_equal. lia.
Qed.

Lemma scored_from_In (w : World) (tc ts : list string) (n : nat)
    (l : list Article) (sa : ScoredArticle) :
  In sa (scored_from w tc ts n l) ->
  exists k, In (article sa) l
            /\ score sa = score_article tc ts (clock w k) (article sa).
Proof.
  revert n. induction l as [| a l IH]; intros n; simpl; [tauto |].
  intros [<- | Hin].
  - exists n. simpl. split; [now left | reflexivity].
  - destruct (IH _ Hin) as (k & Hk & Hs). exists k. split; [now right | exact Hs].
Qed.

Lemma scored_from_length (w : World) (tc ts : list string) (n : nat)
    (l : list Article) :
  List.length (scored_from w tc ts n l) = List.length l.
Proof. revert n. induction l; intros n; simpl; [reflexivity | now f_equal]. Qed.

(** What a response with recommendations tells about the run. *)
Lemma recommendations_inv (w : World) (req : Request) (resp : Response)
    (s : hstate) (recs : list ScoredArticle) (tc ts : list string) :
  generate_recommendations w req = (resp, s) ->
  body resp = Recommendations recs tc ts ->
  exists h user acts activities arts recentArticles inter,
    authorization req = Some h
    /\ select_activities w user (clock w 0 - 30 * ms_per_day) = inr acts
    /\ data acts = Some activities
    /\ select_articles w (clock w 1 - 7 * ms_per_day) = inr arts
    /\ data arts = Some recentArticles
    /\ select_interacted w user = inr inter
    /\ calls s = [EvGetUser (replace "Bearer " "" h);
                  EvSelectActivities user (clock w 0 - 30 * ms_per_day);
                  EvSelectArticles (clock w 1 - 7 * ms_per_day);
                  EvSelectInteracted user]
    /\ status resp = 200
    /\ tc = topCategories activities
    /\ ts = topSources activities
    /\ recs = slice0
                (sort by_score_desc
                   (scored_from w tc ts 2
                      (filter (fun a =>
                                 negb (set_has
                                         (match data inter with
                                          | Some ids => ids
                                          | None => []
                                          end) (id a)))
                              recentArticles)))
                20.
Proof.
  unfold generate_recommendations, serve, handler_body.
  destruct (String.eqb (method req) "OPTIONS").
  { intros [= <- <-]. discriminate. }
  unfold bind, call, now, ret, throw. simpl.
  destruct (authorization req) as [h |]; [| intros [= <- <-]; discriminate].
  destruct (auth_getUser w _) as [e | [[user |] [err |]]];
    try (intros [= <- <-]; discriminate).
  simpl.
  destruct (select_activities w user _) as [e | acts] eqn:Hsel;
    [intros [= <- <-]; discriminate |].
  destruct (error acts); [intros [= <- <-]; discriminate |].
  destruct (data acts) as [activities |] eqn:Hacts;
    [| intros [= <- <-]; discriminate].
  simpl.
  destruct (select_articles w _) as [e | arts] eqn:Harts;
    [intros [= <- <-]; discriminate |].
  destruct (error arts); [intros [= <- <-]; discriminate |].
  destruct (select_interacted w user) as [e | inter] eqn:Hinter;
    [intros [= <- <-]; discriminate |].
  destruct (data arts) as [recentArticles |] eqn:Hrecent;
    [| intros [= <- <-]; discriminate].
  rewrite mapM_scoreM. simpl.
  intros [= <- <-]. simpl. intros [= <- <- <-].
  exists h, user, acts, activities, arts, recentArticles, inter.
  repeat split; assumption.
Qed.

End RecommendFacts.

Module Recommendations.
Import JS Spec JSFacts Recommend AggregatorFacts RecommendFacts.

Lemma firstn_incl {A} (n : nat) (l : list A) (x : A) :
  In x (firstn n l) -> In x l.
Proof.
  intros H. apply In_nth_error in H as (i & H).
  apply firstn_nth in H as [_ H]. eapply nth_error_In, H.
Qed.

Lemma slice0_incl {A} (l : list A) (e : Z) (x : A) :
  In x (slice0 l e) -> In x l.
Proof. unfold slice0. apply firstn_incl. Qed.

Lemma set_has_In (s : list string) (x : string) :
  set_has s x = true <-> In x s.
Proof.
  unfold set_has. rewrite existsb_exists. split.
  - intros (y & Hy & Heq). apply String.eqb_eq in Heq. now subst.
  - intros H. exists x. split; [exact H | apply String.eqb_refl].
Qed.

(** The callback computes the three-term formula. *)
Lemma score_article_formula (tc ts : list string) (now_ms : Z) (a : Article) :
  (score_article tc ts now_ms a
   == categoryScore tc (category a) + sourceScore ts (source a)
      + recencyScore now_ms (published_at a))%Q.
Proof.
  unfold score_article, categoryScore, sourceScore, recencyScore, ageInHours.
  rewrite !indexOf_rank.
  destruct (rank tc (category a)) as [i |];
    destruct (rank ts (source a)) as [j |]; simpl;
    repeat match goal with
           | |- context [Z.of_nat ?n =? -1] =>
               destruct (Z.eqb_spec (Z.of_nat n) (-1)); [lia |]
           end; ring.
Qed.

Lemma recommendation_is_scored (w : World) (req : Request) (resp : Response)
    (s : hstate) (recs : list ScoredArticle) (tc ts : list string)
    (sa : ScoredArticle) :
  generate_recommendations w req = (resp, s) ->
  body resp = Recommendations recs tc ts ->
  In sa recs ->
  exists k, score sa = score_article tc ts (clock w k) (article sa).
Proof.
  intros Hrun Hbody Hin.
  destruct (recommendations_inv _ _ _ _ _ _ _ Hrun Hbody)
    as (h & user & acts & activities & arts & recent & inter & Hrec).
  destruct Hrec as (_ & _ & _ & _ & _ & _ & _ & _ & _ & _ & ->).
  apply slice0_incl, sort_In, scored_from_In in Hin as (k & _ & Hk).
  now exists k.
Qed.

Lemma top_lists_NoDup (w : World) (req : Request) (resp : Response)
    (s : hstate) (recs : list ScoredArticle) (tc ts : list string) :
  generate_recommendations w req = (resp, s) ->
  body resp = Recommendations recs tc ts ->
  NoDup tc /\ NoDup ts.
Proof.
  intros Hrun Hbody.
  destruct (recommendations_inv _ _ _ _ _ _ _ Hrun Hbody)
    as (h & user & acts & activities & arts & recent & inter & Hrec).
  destruct Hrec as (_ & _ & _ & _ & _ & _ & _ & _ & -> & -> & _).
  split.
  - eapply top3_NoDup, categoryPreferences_inv.
  - eapply top3_NoDup, sourcePreferences_inv.
Qed.

(** C1: the score the callback gives a candidate, and so the score of every
    recommended article, is categoryScore + sourceScore + recencyScore, where categoryScore is (3 - i) * 10 when the
    article's category is at rank i of the top categories and 0 when it is
    not among them, sourceScore is (3 - i) * 5 at rank i of the top sources
    and 0 otherwise, and recencyScore is max(0, 24 - ageInHours) at the clock
    reading taken for the article; with top categories technology, sports,
    world an article of category sports gets categoryScore 20. *)
Theorem recommendation_score :
  (forall tc ts now_ms a,
     (score_article tc ts now_ms a
      == categoryScore tc (category a) + sourceScore ts (source a)
         + recencyScore now_ms (published_at a))%Q)
  /\ (forall w req resp s recs tc ts sa,
     generate_recommendations w req = (resp, s) ->
     body resp = Recommendations recs tc ts ->
     In sa recs ->
     (exists k,
        score sa
        == categoryScore tc (category (article sa))
           + sourceScore ts (source (article sa))
           + recencyScore (clock w k) (published_at (article sa)))%Q
     /\ (forall i, nth_error tc i = Some (category (article sa)) ->
         categoryScore tc (category (article sa))
         = inject_Z ((3 - Z.of_nat i) * 10))
     /\ (~ In (category (article sa)) tc ->
         categoryScore tc (category (article sa)) = 0%Q)
     /\ (forall i, nth_error ts i = Some (source (article sa)) ->
         sourceScore ts (source (article sa))
         = inject_Z ((3 - Z.of_nat i) * 5))
     /\ (~ In (source (article sa)) ts ->
         sourceScore ts (source (article sa)) = 0%Q)
     /\ (forall k, recencyScore (clock w k) (published_at (article sa))
                   = Qmax 0 (24 - ageInHours (clock w k)
                                             (published_at (article sa)))))
  /\ categoryScore ["technology"; "sports"; "world"] "sports" = 20%Q
  /\ (forall ts now_ms a, category a = "sports" ->
        (score_article ["technology"; "sports"; "world"] ts now_ms a
         == 20 + sourceScore ts (source a)
            + recencyScore now_ms (published_at a))%Q).
Proof.
  split; [| split; [| split]].
  - apply score_article_formula.
  - intros w req resp s recs tc ts sa Hrun Hbody Hin.
    destruct (top_lists_NoDup _ _ _ _ _ _ _ Hrun Hbody) as [Htc Hts].
    destruct (recommendation_is_scored _ _ _ _ _ _ _ _ Hrun Hbody Hin)
      as (k & Hk).
    repeat split.
    + exists k. rewrite Hk. apply score_article_formula.
    + intros i Hi. unfold categoryScore. now rewrite (rank_nth _ _ _ Htc Hi).
    + intros Hn. unfold categoryScore.
      now rewrite (proj2 (rank_None _ _) Hn).
    + intros i Hi. unfold sourceScore. now rewrite (rank_nth _ _ _ Hts Hi).
    + intros Hn. unfold sourceScore. now rewrite (proj2 (rank_None _ _) Hn).
  - reflexivity.
  - intros ts now_ms a Hcat. rewrite score_article_formula, Hcat.
    reflexivity.
Qed.

Lemma recommendation_score_witness :
  exists k,
    (score Samples.scored_sports
     == categoryScore ["sports"; "technology"] "sports"
        + sourceScore ["espn"; "bbc"; "cnn"] "bbc"
        + recencyScore (clock Samples.rec_world k) 0)%Q.
Proof.
  refine (proj1 (proj1 (proj2 recommendation_score)
                   Samples.rec_world Samples.rec_request _ _ _
                   ["sports"; "technology"] ["espn"; "bbc"; "cnn"]
                   Samples.scored_sports _ _ _)).
  - apply surjective_pairing.
  - vm_compute. reflexivity.
  - vm_compute. left. reflexivity.
Defined.

(** C3: the handler leaves out of the recommendations every identifier
    that its interacted-articles query delivers, but it does not read the
    error of that query as it does for the two queries before it: when the
    query answers without data, the interacted set is empty, the answer is
    still a 200 and it is made from the whole pool.  So for the sample user,
    whose fetched activities hold a click on the article a1, a failure of
    that query makes a1 a recommendation. *)
Theorem interacted_error_unchecked :
  (forall w req resp s recs tc ts user inter sa,
     generate_recommendations w req = (resp, s) ->
     body resp = Recommendations recs tc ts ->
     In (EvSelectInteracted user) (calls s) ->
     select_interacted w user = inr inter ->
     In sa recs ->
     forall ids, data inter = Some ids -> ~ In (id (article sa)) ids)
  /\ (forall w req h user acts activities arts recentArticles inter,
        method req <> "OPTIONS" ->
        authorization req = Some h ->
        auth_getUser w (replace "Bearer " "" h) = inr (Some user, None) ->
        select_activities w user (clock w 0 - 30 * ms_per_day) = inr acts ->
        error acts = None -> data acts = Some activities ->
        select_articles w (clock w 1 - 7 * ms_per_day) = inr arts ->
        error arts = None -> data arts = Some recentArticles ->
        select_interacted w user = inr inter ->
        data inter = None ->
        fst (generate_recommendations w req)
        = {| status := 200;
             body :=
               Recommendations
                 (slice0
                    (sort by_score_desc
                       (scored_from w (topCategories activities)
                          (topSources activities) 2 recentArticles))
                    20)
                 (topCategories activities) (topSources activities) |})
  /\ (select_activities MoreSamples.lost_history_world "u1"
        (clock MoreSamples.lost_history_world 0 - 30 * ms_per_day)
      = inr {| data := Some Samples.activities; error := None |}
      /\ In "a1" (map article_id Samples.activities)
      /\ select_interacted MoreSamples.lost_history_world "u1"
         = inr {| data := None;
                  error :=
                    Some "canceling statement due to statement timeout" |}
      /\ exists recs tc ts,
           fst (generate_recommendations MoreSamples.lost_history_world
                  Samples.rec_request)
           = {| status := 200; body := Recommendations recs tc ts |}
           /\ map (fun sa => id (article sa)) recs = ["n1"; "a1"; "n3"]
           /\ In Samples.seen_article (map article recs)).
Proof.
  split; [| split].
  - intros w req resp s recs tc ts user inter sa Hrun Hbody Hcall Hsel Hin
           ids Hdata.
    destruct (recommendations_inv _ _ _ _ _ _ _ Hrun Hbody)
      as (h & user' & acts & activities & arts & recent & inter' & Hrec).
    destruct Hrec as (_ & _ & _ & _ & _ & Hsel' & Hcalls & _ & _ & _ & ->).
    rewrite Hcalls in Hcall. simpl in Hcall.
    destruct Hcall as [H | [H | [H | [H | []]]]]; try discriminate.
    injection H as ->. rewrite Hsel in Hsel'. injection Hsel' as <-.
    rewrite Hdata in Hin.
    apply slice0_incl, sort_In, scored_from_In in Hin as (k & Hin & _).
    apply filter_In in Hin as [_ Hin]. apply negb_true_iff in Hin.
    intros Hid. apply set_has_In in Hid. congruence.
  - intros w req h user acts activities arts recentArticles inter
           Hm Hauth Huser Hacts Herr Hdata Harts Herr' Hdata' Hinter Hnone.
    unfold generate_recommendations, serve, handler_body.
    destruct (String.eqb_spec (method req) "OPTIONS"); [contradiction |].
    rewrite Hauth. unfold bind at 1. unfold ret at 1.
    unfold bind at 1. unfold call at 1. rewrite Huser.
    unfold bind at 1. unfold now at 1. cbn [ticks calls init].
    unfold bind at 1. unfold call at 1. cbn [ticks calls init].
    rewrite Hacts, Herr, Hdata.
    unfold bind at 1. unfold ret at 1.
    unfold bind at 1. unfold now at 1. cbn [ticks calls init].
    unfold bind at 1. unfold call at 1. cbn [ticks calls init].
    rewrite Harts, Herr'.
    unfold bind at 1. unfold call at 1. cbn [ticks calls init].
    rewrite Hinter, Hdata', Hnone.
    unfold bind at 1. unfold ret at 1. unfold bind at 1.
    rewrite mapM_scoreM. cbn [ticks calls init]. unfold ret. cbn [fst].
    rewrite (filter_ext _ (fun _ => true)) by reflexivity.
    assert (Hall : forall l : list Article, filter (fun _ => true) l = l)
      by (intros l; induction l; simpl; congruence).
    now rewrite Hall.
  - split; [reflexivity | split; [now left | split; [reflexivity |]]].
    do 3 eexists. split; [vm_compute; reflexivity |].
    split; [reflexivity | right; left; reflexivity].
Qed.

(** At most 20 recommendations, whatever the candidate pool. *)
Lemma recommendations_at_most_20 (w : World) (req : Request) (resp : Response)
    (s : hstate) (recs : list ScoredArticle) (tc ts : list string) :
  generate_recommendations w req = (resp, s) ->
  body resp = Recommendations recs tc ts ->
  (List.length recs <= 20)%nat.
Proof.
  intros Hrun Hbody.
  destruct (recommendations_inv _ _ _ _ _ _ _ Hrun Hbody)
    as (h & user & acts & activities & arts & recent & inter & Hrec).
  destruct Hrec as (_ & _ & _ & _ & _ & _ & _ & _ & _ & _ & ->).
  match goal with |- (List.length (slice0 ?l 20) <= 20)%nat =>
    pose proof (slice0_length l 20 ltac:(lia)) end.
  lia.
Qed.

(** C9: a request for recommendations without an Authorization header is
    answered with the generic 500 response of the outer catch; the identity
    provider is not called and the 401 branch is not reached. *)
Theorem missing_authorization_is_500 (w : World) (req : Request) :
  method req <> "OPTIONS" ->
  authorization req = None ->
  generate_recommendations w req
  = ({| status := 500; body := ErrorBody "Internal server error" |}, init)
  /\ status (fst (generate_recommendations w req)) <> 401.
Proof.
  intros Hm Hauth.
  assert (H : generate_recommendations w req
              = ({| status := 500; body := ErrorBody "Internal server error" |},
                 init)).
  { unfold generate_recommendations, serve, handler_body.
    destruct (String.eqb_spec (method req) "OPTIONS"); [contradiction |].
    rewrite Hauth. reflexivity. }
  split; [exact H |]. rewrite H. simpl. discriminate.
Qed.

Lemma missing_authorization_is_500_witness :
  generate_recommendations Samples.rec_world Samples.anonymous_request
  = ({| status := 500; body := ErrorBody "Internal server error" |}, init)
  /\ status (fst (generate_recommendations Samples.rec_world
                    Samples.anonymous_request)) <> 401.
Proof.
  apply (missing_authorization_is_500 Samples.rec_world
           Samples.anonymous_request).
  - discriminate.
  - reflexivity.
Defined.

End Recommendations.

(** ** The search handler *)

Module SearchFacts.
Import JS Spec JSFacts BertSearch.

Lemma trimStart_blank (q : jsstring) :
  Forall (fun c => is_space c = true) q -> trimStart q = [].
Proof.
  induction 1 as [| c q Hc _ IH]; simpl; [reflexivity |]. now rewrite Hc.
Qed.

Lemma trim_blank (q : jsstring) :
  Forall (fun c => is_space c = true) q -> trim q = [].
Proof. intros H. unfold trim. now rewrite (trimStart_blank q H). Qed.

Lemma requested_top_k_eq (req : Request) :
  match top_k match json req with
              | Some b => b
              | None => {| query := None; top_k := None |}
              end
  with Some k => k | None => 10 end = requested_top_k req.
Proof. unfold requested_top_k. destruct (json req); reflexivity. Qed.

(** The embedding step keeps the clock and logs at most its one call. *)
Lemma getOpenAIEmbedding_run (w : World) (q : jsstring) (model : string)
    (st : hstate) :
  exists r st',
    getOpenAIEmbedding w q model st = (r, st')
    /\ ticks st' = ticks st
    /\ (calls st' = calls st \/ calls st' = calls st ++ [EvEmbedding q]).
Proof.
  unfold getOpenAIEmbedding, bind, call, throw.
  destruct (match OPENAI_API_KEY w with
            | Some k => Some k
            | None => EMBEDDING_API_KEY w
            end) as [[| c key] |];
    try (do 2 eexists; split; [reflexivity | split; [reflexivity | now left]]).
  destruct (openai_embeddings w _ q model) as [e | res].
  - do 2 eexists. split; [reflexivity | split; [reflexivity | now right]].
  - destruct (ok res); simpl;
      do 2 eexists; (split; [reflexivity | split; [reflexivity | now right]]).
Qed.

Lemma rpc_search_run (w : World) (q : option (list Q)) (k : Z) (st : hstate) :
  rpc_search w q k st
  = (inr (rpc_outcome w q k),
     {| calls := calls st ++ [EvRpcMatchNews k]; ticks := ticks st |}).
Proof.
  unfold rpc_search, rpc_outcome, try_catch, bind, call, ret.
  destruct (rpc_match_news w q k) as [e | qr]; [reflexivity |].
  destruct (error qr); [reflexivity |].
  destruct (data qr) as [[| r rows] |]; reflexivity.
Qed.

Lemma rank_candidates_nil (w : World) (q : option (list Q)) (k : Z) :
  rank_candidates w q [] k = [].
Proof. unfold rank_candidates, slice0. simpl. apply firstn_nil. Qed.

Lemma fallback_search_run (w : World) (q : option (list Q)) (k : Z) (st : hstate) :
  fallback_search w q k st
  = (fallback_outcome w q k (clock w (ticks st) - 7 * ms_per_day),
     {| calls := calls st
                 ++ [EvSelectCandidates (clock w (ticks st) - 7 * ms_per_day)];
        ticks := S (ticks st) |}).
Proof.
  unfold fallback_search, fallback_outcome, bind, call, now, ret, throw.
  cbn [calls ticks].
  destruct (select_candidates w _) as [e | res]; [reflexivity |].
  destruct (error res); [reflexivity |].
  destruct (data res) as [[| c l] |]; try reflexivity.
  now rewrite rank_candidates_nil.
Qed.

Lemma by_score_desc_true (x y : Scored) :
  by_score_desc x y = true <-> (score x < score y)%Q.
Proof.
  unfold by_score_desc. rewrite negb_true_iff.
  split.
  - intros H. destruct (Qlt_le_dec (score x) (score y)) as [Hlt | Hle];
      [exact Hlt |].
    assert (Hb : Qle_bool (score y - score x) 0 = true)
      by (apply Qle_bool_iff; lra).
    congruence.
  - intros H. destruct (Qle_bool (score y - score x) 0) eqn:Hb;
      [| reflexivity].
    apply Qle_bool_iff in Hb. lra.
Qed.

Lemma by_score_desc_false (x y : Scored) :
  by_score_desc x y = false <-> (score y <= score x)%Q.
Proof.
  split.
  - intros H. destruct (Qlt_le_dec (score x) (score y)) as [Hlt | Hle];
      [| exact Hle].
    apply by_score_desc_true in Hlt. congruence.
  - intros H. destruct (by_score_desc x y) eqn:Hb; [| reflexivity].
    apply by_score_desc_true in Hb. lra.
Qed.

Lemma by_score_desc_asym (x y : Scored) :
  by_score_desc x y = true -> by_score_desc y x = false.
Proof. rewrite by_score_desc_true, by_score_desc_false. lra. Qed.

Lemma by_score_desc_negtrans (x y z : Scored) :
  by_score_desc x y = false -> by_score_desc y z = false ->
  by_score_desc x z = false.
Proof. rewrite !by_score_desc_false. lra. Qed.

(** The ranked list is in descending order of score. *)
Lemma rank_candidates_sorted (w : World) (q : option (list Q))
    (candidates : list Candidate) (k : Z) (i j : nat) (x y : Scored) :
  (i < j)%nat ->
  nth_error (rank_candidates w q candidates k) i = Some x ->
  nth_error (rank_candidates w q candidates k) j = Some y ->
  (score y <= score x)%Q.
Proof.
  unfold rank_candidates. intros Hij Hx Hy.
  destruct (slice0_prefix
              (sort by_score_desc
                 (map (score_candidate w q) (filter has_embedding candidates)))
              k) as (n & Hn).
  rewrite Hn in Hx, Hy.
  apply firstn_nth in Hx as [_ Hx]. apply firstn_nth in Hy as [_ Hy].
  apply by_score_desc_false.
  eapply (StronglySorted_nth _ _
            (sort_sorted by_score_desc by_score_desc_asym
               by_score_desc_negtrans _)); eassumption.
Qed.

Lemma rank_candidates_length (w : World) (q : option (list Q))
    (candidates : list Candidate) (k : Z) :
  Z.of_nat (List.length (rank_candidates w q candidates k))
  = let n := Z.of_nat (List.length (filter has_embedding candidates)) in
    if k <? 0 then Z.max (n + k) 0 else Z.min k n.
Proof.
  unfold rank_candidates, slice0.
  rewrite length_firstn, sort_length, length_map.
  cbv zeta. destruct (Z.ltb_spec k 0); lia.
Qed.

(** A response with recommendations is empty, or the rows of the server-side
    search, or the ranked candidates. *)
Lemma search_inv (w : World) (req : Request) (resp : Response) (s : hstate)
    (recs : list (RpcRow + Scored)) :
  bert_search w req = (resp, s) ->
  body resp = Recommendations recs ->
  recs = []
  \/ (exists q qr rows,
        rpc_match_news w q (requested_top_k req) = inr qr
        /\ data qr = Some rows /\ recs = map inl rows)
  \/ (exists q candidates,
        recs = map inr (rank_candidates w q candidates (requested_top_k req))).
Proof.
  unfold bert_search, serve, handler_body.
  destruct (String.eqb (method req) "OPTIONS").
  { intros [= <- <-]. discriminate. }
  rewrite requested_top_k_eq.
  destruct (trim _) as [| c q].
  { intros [= <- <-] [= <-]. now left. }
  unfold bind at 1.
  destruct (getOpenAIEmbedding_run w (c :: q) "text-embedding-3-small" init)
    as (r & st & -> & _ & _).
  destruct r as [e | qe]; [intros [= <- <-]; discriminate |].
  unfold bind. rewrite rpc_search_run.
  unfold rpc_outcome.
  destruct (rpc_match_news w qe _) as [e | qr] eqn:Hrpc.
  2: destruct (error qr).
  3: destruct (data qr) as [[| r rows] |] eqn:Hdata.
  4: { unfold ret. intros [= <- <-] [= <-]. right. left.
       exists qe, qr, (r :: rows). repeat split; assumption. }
  all: rewrite fallback_search_run; unfold fallback_outcome;
    destruct (select_candidates w _) as [e' | res];
    [intros [= <- <-]; discriminate |];
    destruct (error res); [intros [= <- <-]; discriminate |];
    intros [= <- <-] [= <-];
    destruct (data res) as [cands |]; [| now left];
    right; right; now exists qe, cands.
Qed.

End SearchFacts.

Module Search.
Import JS Spec JSFacts BertSearch SearchFacts.

(** C5: a search whose query is empty or white space only is answered with
    status 200 and an empty recommendation list, and nothing external is
    called on the way, the embedding provider in particular. *)
Theorem blank_query_returns_empty (w : World) (req : Request) :
  method req <> "OPTIONS" ->
  blank_query req ->
  bert_search w req = ({| status := 200; body := Recommendations [] |}, init)
  /\ existsb is_embedding_call (calls (snd (bert_search w req))) = false.
Proof.
  intros Hm Hblank.
  assert (H : bert_search w req
              = ({| status := 200; body := Recommendations [] |}, init)).
  { unfold bert_search, serve, handler_body.
    destruct (String.eqb_spec (method req) "OPTIONS"); [contradiction |].
    unfold blank_query in Hblank.
    destruct (json req) as [b |]; simpl.
    - destruct (query b) as [q |]; [| reflexivity].
      now rewrite (trim_blank q Hblank).
    - reflexivity. }
  split; [exact H |]. now rewrite H.
Qed.

Lemma blank_query_returns_empty_witness :
  bert_search Samples.rpc_world Samples.blank_search
  = ({| status := 200; body := Recommendations [] |}, init)
  /\ existsb is_embedding_call
       (calls (snd (bert_search Samples.rpc_world Samples.blank_search)))
     = false.
Proof.
  apply (blank_query_returns_empty Samples.rpc_world Samples.blank_search).
  - discriminate.
  - repeat constructor.
Defined.

(** Once the candidates have been fetched without error the answer is the
    ranked list, whatever the similarity computations do. *)
Lemma scoring_never_aborts (w : World) (req : Request) (resp : Response)
    (s : hstate) (t : Z) (res : QueryResult (list Candidate)) :
  bert_search w req = (resp, s) ->
  In (EvSelectCandidates t) (calls s) ->
  select_candidates w t = inr res ->
  error res = None ->
  exists q,
    resp = ok_response
             (map inr (match data res with
                       | Some candidates =>
                           rank_candidates w q candidates (requested_top_k req)
                       | None => []
                       end)).
Proof.
  unfold bert_search, serve, handler_body.
  destruct (String.eqb (method req) "OPTIONS").
  { intros [= <- <-] []. }
  rewrite requested_top_k_eq.
  destruct (trim _) as [| c q].
  { intros [= <- <-] []. }
  unfold bind at 1.
  destruct (getOpenAIEmbedding_run w (c :: q) "text-embedding-3-small" init)
    as (r & st & -> & Hticks & Hcalls).
  simpl in Hticks, Hcalls.
  destruct r as [e | qe].
  { intros [= <- <-] Hin. exfalso.
    destruct Hcalls as [Hc | Hc]; rewrite Hc in Hin; simpl in Hin;
      intuition discriminate. }
  unfold bind. rewrite rpc_search_run.
  destruct (rpc_outcome w qe (requested_top_k req)) as [response |].
  { unfold ret. intros [= <- <-] Hin. exfalso. cbn [calls] in Hin.
    apply in_app_or in Hin as [Hin | Hin]; [| simpl in Hin; intuition discriminate].
    destruct Hcalls as [Hc | Hc]; rewrite Hc in Hin; simpl in Hin;
      intuition discriminate. }
  rewrite fallback_search_run. cbn [calls ticks]. rewrite Hticks.
  intros Hrun Hin Hsel Herr.
  assert (Ht : t = clock w 0 - 7 * ms_per_day).
  { destruct (fallback_outcome _ _ _ _); injection Hrun as <- <-;
      cbn [calls] in Hin;
      (apply in_app_or in Hin as [Hin | Hin];
       [apply in_app_or in Hin as [Hin | Hin];
        [destruct Hcalls as [Hc | Hc]; rewrite Hc in Hin; simpl in Hin;
         intuition discriminate
        | simpl in Hin; intuition discriminate]
       | simpl in Hin; destruct Hin as [[= Ht] | []]; now symmetry]). }
  subst t. unfold fallback_outcome in Hrun. rewrite Hsel, Herr in Hrun.
  injection Hrun as <- _. now exists qe.
Qed.

(** C6, as the handler has it: while the candidates are scored a similarity
    computation that fails does not abort the request; the candidate is kept
    with score 0, which is not a minimum; the ranked list is in descending
    order of score, so such a candidate comes after every candidate of
    positive similarity and before every candidate of negative similarity. *)
Theorem failed_similarity_scores_zero :
  (forall w req resp s t res,
     bert_search w req = (resp, s) ->
     In (EvSelectCandidates t) (calls s) ->
     select_candidates w t = inr res ->
     error res = None ->
     exists q,
       resp = {| status := 200;
                 body := Recommendations
                   (map inr (match data res with
                             | Some candidates =>
                                 rank_candidates w q candidates
                                                 (requested_top_k req)
                             | None => []
                             end)) |})
  /\ (forall w q f ef,
        embedding f = Some ef -> cosineSimilarity w q ef = None ->
        score (score_candidate w q f) = 0%Q)
  /\ (forall w q candidates k i j x y,
        (i < j)%nat ->
        nth_error (rank_candidates w q candidates k) i = Some x ->
        nth_error (rank_candidates w q candidates k) j = Some y ->
        (score y <= score x)%Q)
  /\ (forall w q candidates k f ef c ec sim i j,
        embedding f = Some ef -> cosineSimilarity w q ef = None ->
        embedding c = Some ec -> cosineSimilarity w q ec = Some sim ->
        nth_error (rank_candidates w q candidates k) i
          = Some (score_candidate w q f) ->
        nth_error (rank_candidates w q candidates k) j
          = Some (score_candidate w q c) ->
        ((0 < sim)%Q -> (j < i)%nat) /\ ((sim < 0)%Q -> (i < j)%nat)).
Proof.
  split; [| split; [| split]].
  - intros w req resp s t res. apply scoring_never_aborts.
  - intros w q f ef Hf Hfail. unfold score_candidate. simpl.
    now rewrite Hf, Hfail.
  - intros w q candidates k i j x y. apply rank_candidates_sorted.
  - intros w q candidates k f ef c ec sim i j Hf Hfail Hc Hsim Hi Hj.
    assert (Hsf : score (score_candidate w q f) = 0%Q)
      by (unfold score_candidate; simpl; now rewrite Hf, Hfail).
    assert (Hsc : score (score_candidate w q c) = sim)
      by (unfold score_candidate; simpl; now rewrite Hc, Hsim).
    split; intros Hs.
    + destruct (Nat.lt_trichotomy i j) as [Hij | [-> | Hji]];
        [| | exact Hji].
      * pose proof (rank_candidates_sorted _ _ _ _ _ _ _ _ Hij Hi Hj) as H.
        rewrite Hsf, Hsc in H. lra.
      * assert (Heq : score_candidate w q f = score_candidate w q c)
          by congruence.
        rewrite Heq, Hsc in Hsf. rewrite Hsf in Hs. lra.
    + destruct (Nat.lt_trichotomy i j) as [Hij | [-> | Hji]];
        [exact Hij | |].
      * assert (Heq : score_candidate w q f = score_candidate w q c)
          by congruence.
        rewrite Heq, Hsc in Hsf. rewrite Hsf in Hs. lra.
      * pose proof (rank_candidates_sorted _ _ _ _ _ _ _ _ Hji Hj Hi) as H.
        rewrite Hsf, Hsc in H. lra.
Qed.

Lemma failed_similarity_scores_zero_witness :
  exists q,
    fst (bert_search Samples.fallback_world (Samples.search (Some 10)))
    = {| status := 200;
         body := Recommendations
           (map inr
              (rank_candidates Samples.fallback_world q
                 [Samples.broken; Samples.opposite; Samples.bare;
                  Samples.aligned] 10)) |}.
Proof.
  refine (proj1 failed_similarity_scores_zero
            Samples.fallback_world (Samples.search (Some 10)) _ _
            1699395200000
            {| data := Some [Samples.broken; Samples.opposite; Samples.bare;
                             Samples.aligned];
               error := None |} _ _ _ _).
  - apply surjective_pairing.
  - vm_compute. right. right. left. reflexivity.
  - reflexivity.
  - reflexivity.
Defined.

(** The one-dimensional similarity of the samples is the cosine: of unit
    size and of the sign of the product. *)
Lemma cosine1d_sound (a b s : Q) :
  Samples.cosine1d (Some [a]) [b] = Some s ->
  (s * s == 1 /\ 0 < s * (a * b))%Q.
Proof.
  unfold Samples.cosine1d.
  destruct (Qeq_bool (a * b) 0) eqn:Hz; [discriminate |].
  apply Qeq_bool_neq in Hz.
  destruct (Qle_bool 0 (a * b)) eqn:Hs; intros [= <-].
  - apply Qle_bool_iff in Hs. split; [reflexivity |].
    destruct (Qlt_le_dec 0 (a * b)) as [Hlt | Hle]; [lra |].
    exfalso. apply Hz. lra.
  - split; [reflexivity |].
    destruct (Qlt_le_dec (a * b) 0) as [Hlt | Hle]; [lra |].
    apply Qle_bool_iff in Hle. congruence.
Qed.

(** C6 as stated fails: in the sample deployment the similarity of [broken]
    cannot be computed and that of [opposite] is computed as -1, yet
    [broken] is scored 0, above [opposite], and ranks before it. *)
Lemma failed_similarity_not_minimum :
  cosineSimilarity Samples.fallback_world (Some [1%Q]) [] = None
  /\ cosineSimilarity Samples.fallback_world (Some [1%Q]) [(-1)%Q] = Some (-1)%Q
  /\ body (fst (bert_search Samples.fallback_world (Samples.search (Some 10))))
     = Recommendations
         (map inr [score_candidate Samples.fallback_world (Some [1%Q]) Samples.aligned;
                   score_candidate Samples.fallback_world (Some [1%Q]) Samples.broken;
                   score_candidate Samples.fallback_world (Some [1%Q])
                                   Samples.opposite])
  /\ (score (score_candidate Samples.fallback_world (Some [1%Q]) Samples.opposite)
      < score (score_candidate Samples.fallback_world (Some [1%Q]) Samples.broken))%Q.
Proof. repeat split. Qed.

(** C7, as the handlers have it: at most 20 recommendations whatever the
    pool; a search answers with the rows of the server-side search as they
    come, or with the ranked candidates cut by [slice(0, top_k)], so its
    output is at most top_k long when top_k is not negative and the
    server-side search returns at most the count asked of it; the in-memory
    path keeps min(top_k, n) of its n scored candidates for such a top_k and
    max(n + top_k, 0) of them for a negative one. *)
Theorem output_length_bounds :
  (forall w req resp s recs tc ts,
     Recommend.generate_recommendations w req = (resp, s) ->
     Recommend.body resp = Recommend.Recommendations recs tc ts ->
     (List.length recs <= 20)%nat)
  /\ (forall w req resp s recs,
        bert_search w req = (resp, s) ->
        body resp = Recommendations recs ->
        0 <= requested_top_k req ->
        (forall q qr rows,
           rpc_match_news w q (requested_top_k req) = inr qr ->
           data qr = Some rows ->
           Z.of_nat (List.length rows) <= requested_top_k req) ->
        Z.of_nat (List.length recs) <= requested_top_k req)
  /\ (forall w q candidates k,
        Z.of_nat (List.length (rank_candidates w q candidates k))
        = let n := Z.of_nat (List.length (filter has_embedding candidates)) in
          if k <? 0 then Z.max (n + k) 0 else Z.min k n).
Proof.
  split; [| split].
  - apply Recommendations.recommendations_at_most_20.
  - intros w req resp s recs Hrun Hbody Hk Hrpc.
    destruct (search_inv _ _ _ _ _ Hrun Hbody)
      as [-> | [(q & qr & rows & H1 & H2 & ->) | (q & cands & ->)]].
    + simpl. lia.
    + rewrite length_map. eapply Hrpc; eassumption.
    + rewrite length_map, rank_candidates_length. cbv zeta.
      destruct (Z.ltb_spec (requested_top_k req) 0); lia.
  - apply rank_candidates_length.
Qed.

Lemma output_length_bounds_witness :
  body (fst (bert_search Samples.rpc_world (Samples.search (Some 1))))
  = Recommendations [inl (Samples.matched "aligned" 1)]
  /\ Z.of_nat (List.length [@inl RpcRow Scored (Samples.matched "aligned" 1)])
     <= requested_top_k (Samples.search (Some 1)).
Proof.
  split; [reflexivity |].
  refine (proj1 (proj2 output_length_bounds)
            Samples.rpc_world (Samples.search (Some 1)) _ _ _ _ _ _ _).
  - apply surjective_pairing.
  - vm_compute. reflexivity.
  - vm_compute. discriminate.
  - intros q qr rows [= <-] [= <-]. vm_compute. discriminate.
Defined.

(** C7 as stated fails: a search that asks for -1 results where the
    server-side search is not available gets two, the three scored
    candidates but the last. *)
Lemma negative_top_k_exceeds :
  exists recs,
    bert_search Samples.fallback_world (Samples.search (Some (-1)))
    = ({| status := 200; body := Recommendations recs |},
       {| calls := [EvEmbedding Samples.news_query; EvRpcMatchNews (-1);
                    EvSelectCandidates 1699395200000];
          ticks := 1 |})
    /\ List.length recs = 2%nat
    /\ requested_top_k (Samples.search (Some (-1))) = -1
    /\ requested_top_k (Samples.search (Some (-1)))
       < Z.of_nat (List.length recs).
Proof. eexists. repeat split. Qed.

End Search.

(** ** The news-fetch handler *)

Module News.
Import JS Spec FetchNews.

Lemma transform_category (w : World) (article : NewsAPIArticle)
    (st st' : hstate) (a : TransformedArticle) :
  transform w article st = (inr a, st') ->
  t_title a = title article /\ category a = classify (title article).
Proof.
  unfold transform, bind, ret.
  destruct (btoa w (url article)) as [e | b64]; [discriminate |].
  intros [= <- _]. split; reflexivity.
Qed.

Lemma mapM_transform (w : World) (l : list NewsAPIArticle) (st st' : hstate)
    (out : list TransformedArticle) (a : TransformedArticle) :
  mapM (transform w) l st = (inr out, st') ->
  In a out ->
  exists article, In article l /\ t_title a = title article
                  /\ category a = classify (title article).
Proof.
  revert st st' out. induction l as [| x l IH]; intros st st' out; simpl.
  - unfold ret. intros [= <- _] [].
  - unfold bind at 1.
    destruct (transform w x st) as [[e | y] st1] eqn:Hx; [discriminate |].
    unfold bind at 1.
    destruct (mapM (transform w) l st1) as [[e | ys] st2] eqn:Hl;
      [discriminate |].
    unfold ret. intros [= <- _] [<- | Hin].
    + exists x. apply transform_category in Hx. split; [now left | exact Hx].
    + destruct (IH _ _ _ Hl Hin) as (article & H1 & H2).
      exists article. split; [now right | exact H2].
Qed.

(** Every article of a 200 response comes from an article that passed the
    filter, with that title and the category computed from it. *)
Lemma fetch_news_inv (w : World) (req : Request) (resp : Response)
    (s : hstate) (arts : list TransformedArticle) (total : Z)
    (a : TransformedArticle) :
  fetch_news w req = (resp, s) ->
  body resp = Articles arts total ->
  In a arts ->
  category a = classify (t_title a).
Proof.
  unfold fetch_news, serve, handler_body, error_response.
  destruct (String.eqb (method req) "OPTIONS").
  { intros [= <- <-]. discriminate. }
  destruct (negb (truthy (NEWS_API_KEY w))).
  { intros [= <- <-]. discriminate. }
  unfold bind at 1. unfold call.
  destruct (fetch w _) as [e | response]; [intros [= <- <-]; discriminate |].
  destruct (negb (ok response)); [intros [= <- <-]; discriminate |].
  unfold bind at 1.
  destruct (json response) as [e | data]; [intros [= <- <-]; discriminate |].
  destruct (negb (String.eqb (d_status data) "ok"));
    [intros [= <- <-]; discriminate |].
  unfold bind at 1.
  destruct (articles data) as [raw |]; unfold ret, throw;
    [| intros [= <- <-]; discriminate].
  unfold bind.
  destruct (mapM (transform w) (filter keep raw) _) as [[e | out] st] eqn:Hmap;
    [intros [= <- <-]; discriminate |].
  intros [= <- <-] [= <- _] Hin.
  destruct (mapM_transform _ _ _ _ _ _ Hmap Hin) as (article & _ & Ht & Hc).
  now rewrite Hc, Ht.
Qed.

(** C8, as the handler has it: an article of the response is classified
    "sports" exactly when its title, lower-cased, contains "sport", and
    "technology" otherwise. *)
Theorem category_by_lowercased_title (w : World) (req : Request)
    (resp : Response) (s : hstate) (arts : list TransformedArticle)
    (total : Z) (a : TransformedArticle) :
  fetch_news w req = (resp, s) ->
  body resp = Articles arts total ->
  In a arts ->
  (category a = "sports"
   <-> includes (toLowerCase (t_title a)) "sport" = true)
  /\ (category a = "technology"
      <-> includes (toLowerCase (t_title a)) "sport" = false).
Proof.
  intros Hrun Hbody Hin.
  rewrite (fetch_news_inv _ _ _ _ _ _ _ Hrun Hbody Hin). unfold classify.
  destruct (includes (toLowerCase (t_title a)) "sport");
    split; split; intros H; try reflexivity; discriminate.
Qed.

Lemma category_by_lowercased_title_witness :
  (category Samples.transformed_headline = "sports"
   <-> includes (toLowerCase (t_title Samples.transformed_headline)) "sport"
       = true)
  /\ (category Samples.transformed_headline = "technology"
      <-> includes (toLowerCase (t_title Samples.transformed_headline)) "sport"
          = false).
Proof.
  refine (category_by_lowercased_title Samples.news_world Samples.news_request
            _ _ [Samples.transformed_headline] 1
            Samples.transformed_headline _ _ _).
  - apply surjective_pairing.
  - vm_compute. reflexivity.
  - left. reflexivity.
Defined.

(** C8 as stated fails: the headline "Sports Tonight" does not contain
    "sport", and the response classifies it as "sports". *)
Lemma capitalised_title_is_sports :
  fetch_news Samples.news_world Samples.news_request
  = ({| status := 200; body := Articles [Samples.transformed_headline] 1 |},
     {| calls :=
          [EvFetchNews
             "https://newsapi.org/v2/everything?q=technology OR sports&language=en&sortBy=publishedAt&apiKey=key"];
        ticks := 0 |})
  /\ t_title Samples.transformed_headline = "Sports Tonight"
  /\ includes (t_title Samples.transformed_headline) "sport" = false
  /\ category Samples.transformed_headline = "sports".
Proof. repeat split. Qed.

End News.

(** * Further properties *)

(** ** fetch-news: failures, the filter, identifiers *)

Module NewsExtra.
Import JS Spec SpecExtra FetchNews News.

Lemma transform_run (w : World) (x : NewsAPIArticle) (st : hstate) :
  transform w x st
  = (match btoa w (url x) with
     | inl e => inl e
     | inr b64 =>
         inr {| id := String.substring 0 20 (keep_alnum b64);
                t_title := title x;
                summary := or_str (description x) (title x);
                t_content := or_str (content x) (or_str (description x) "");
                t_url := url x;
                image_url := or_str (urlToImage x) "";
                source := source_name x;
                category := classify (title x);
                language := "en";
                published_at := publishedAt x |}
     end, st).
Proof.
  unfold transform, bind, ret. destruct (btoa w (url x)); reflexivity.
Qed.

Lemma or_str_truthy (a b : string) : truthy a = true -> or_str a b = a.
Proof. unfold or_str. now intros ->. Qed.

Lemma or_str_empty (a : string) : or_str a "" = a.
Proof.
  unfold or_str, truthy. destruct (String.eqb_spec a ""); simpl; congruence.
Qed.

Lemma keep_fields (x : NewsAPIArticle) :
  keep x = true ->
  truthy (title x) = true /\ truthy (description x) = true
  /\ truthy (url x) = true /\ title x <> "[Removed]".
Proof.
  unfold keep. rewrite !andb_true_iff, negb_true_iff.
  intros [[[H1 H2] H3] H4]. repeat split; try assumption.
  now apply String.eqb_neq.
Qed.

Lemma mapM_cons_run {A B} (f : A -> M B) (x : A) (l : list A) (st : hstate) :
  mapM f (x :: l) st
  = match f x st with
    | (inl e, s1) => (inl e, s1)
    | (inr y, s1) =>
        match mapM f l s1 with
        | (inl e, s2) => (inl e, s2)
        | (inr ys, s2) => (inr (y :: ys), s2)
        end
    end.
Proof.
  simpl. unfold bind, ret. destruct (f x st) as [[e | y] s1]; [reflexivity |].
  destruct (mapM f l s1) as [[e | ys] s2]; reflexivity.
Qed.

(** The callback on the kept articles: all succeed, in order, or the first
    refusal of [btoa] is thrown. *)
Lemma mapM_transform_kept (w : World) (l : list NewsAPIArticle) (st : hstate) :
  Forall (fun x => keep x = true) l ->
  (exists out, mapM (transform w) l st = (inr out, st)
               /\ Forall2 (transformed_from w) l out)
  \/ (exists e x, mapM (transform w) l st = (inl e, st)
                  /\ In x l /\ btoa w (url x) = inl e).
Proof.
  induction 1 as [| x l Hx Hl IH].
  - left. exists []. split; [reflexivity | constructor].
  - rewrite mapM_cons_run, transform_run.
    destruct (btoa w (url x)) as [e | b64] eqn:Hb.
    + right. exists e, x. split; [reflexivity | split; [now left | exact Hb]].
    + destruct IH as [(out & -> & Hout) | (e & y & -> & Hy & Hby)].
      * left. eexists. split; [reflexivity |].
        constructor; [| exact Hout].
        exists b64. split; [exact Hb |].
        destruct (keep_fields x Hx) as (_ & Hd & _ & _).
        rewrite (or_str_truthy _ _ Hd), !or_str_empty. reflexivity.
      * right. exists e, y. split; [reflexivity | split; [now right | exact Hby]].
Qed.

Lemma filter_keep_Forall (raw : list NewsAPIArticle) :
  Forall (fun x => keep x = true) (filter keep raw).
Proof. apply Forall_forall. intros x Hx. now apply filter_In in Hx. Qed.

(** The run of the handler once NewsAPI has answered with articles. *)
Lemma fetch_news_run (w : World) (req : Request) (r : HttpResponse)
    (d : NewsData) (raw : list NewsAPIArticle) :
  method req <> "OPTIONS" ->
  NEWS_API_KEY w <> "" ->
  fetch w (news_url w) = inr r -> ok r = true -> json r = inr d ->
  d_status d = "ok" -> articles d = Some raw ->
  fetch_news w req
  = (match mapM (transform w) (filter keep raw)
             {| calls := [EvFetchNews (news_url w)]; ticks := 0 |} with
     | (inr out, _) =>
         {| status := 200; body := Articles out (Z.of_nat (List.length out)) |}
     | (inl _, _) => error_response "Internal server error"
     end,
     {| calls := [EvFetchNews (news_url w)]; ticks := 0 |}).
Proof.
  intros Hm Hkey Hf Hok Hj Hs Ha.
  unfold fetch_news, serve, handler_body.
  destruct (String.eqb_spec (method req) "OPTIONS"); [contradiction |].
  unfold truthy. destruct (String.eqb_spec (NEWS_API_KEY w) "");
    [contradiction |].
  cbn [negb]. fold (news_url w).
  unfold bind at 1. unfold call. rewrite Hf, Hok. cbn [negb].
  unfold bind at 1. rewrite Hj, Hs.
  change (negb (String.eqb "ok" "ok")) with false. cbv iota.
  unfold bind at 1. rewrite Ha. unfold ret at 1.
  unfold bind. cbn [init calls ticks app].
  destruct (mapM_transform_kept w (filter keep raw)
              {| calls := [EvFetchNews (news_url w)]; ticks := 0 |}
              (filter_keep_Forall raw))
    as [(out & -> & _) | (e & x & -> & _)]; reflexivity.
Qed.

(** The run of the handler once the API key is known to be configured. *)
Lemma fetch_news_eq (w : World) (req : Request) :
  method req <> "OPTIONS" ->
  NEWS_API_KEY w <> "" ->
  fetch_news w req
  = (match fetch w (news_url w) with
     | inl _ => error_response "Internal server error"
     | inr r =>
         if ok r then
           match json r with
           | inl _ => error_response "Internal server error"
           | inr d =>
               if String.eqb (d_status d) "ok" then
                 match articles d with
                 | None => error_response "Internal server error"
                 | Some raw =>
                     match mapM (transform w) (filter keep raw)
                             {| calls := [EvFetchNews (news_url w)];
                                ticks := 0 |} with
                     | (inr out, _) =>
                         {| status := 200;
                            body := Articles out (Z.of_nat (List.length out)) |}
                     | (inl _, _) => error_response "Internal server error"
                     end
                 end
               else error_response (or_str (message d) "NewsAPI error")
           end
         else error_response "Failed to fetch news"
     end,
     {| calls := [EvFetchNews (news_url w)]; ticks := 0 |}).
Proof.
  intros Hm Hkey.
  unfold fetch_news, serve, handler_body.
  destruct (String.eqb_spec (method req) "OPTIONS"); [contradiction |].
  unfold truthy. destruct (String.eqb_spec (NEWS_API_KEY w) "");
    [contradiction |].
  cbn [negb]. fold (news_url w).
  unfold bind at 1. unfold call. cbn [init calls ticks app].
  destruct (fetch w (news_url w)) as [e | r]; [reflexivity |].
  destruct (ok r); [| reflexivity]. cbn [negb].
  unfold bind at 1.
  destruct (json r) as [e | d]; [reflexivity |].
  destruct (String.eqb (d_status d) "ok"); [| reflexivity]. cbn [negb].
  unfold bind at 1.
  destruct (articles d) as [raw |]; [| reflexivity].
  unfold ret at 1. unfold bind.
  destruct (mapM_transform_kept w (filter keep raw)
              {| calls := [EvFetchNews (news_url w)]; ticks := 0 |}
              (filter_keep_Forall raw))
    as [(out & -> & _) | (e & x & -> & _)]; reflexivity.
Qed.

(** What a response with articles tells about the run. *)
Lemma articles_inv (w : World) (req : Request) (resp : Response) (s : hstate)
    (arts : list TransformedArticle) (total : Z) :
  fetch_news w req = (resp, s) ->
  body resp = Articles arts total ->
  exists r d raw,
    fetch w (news_url w) = inr r /\ json r = inr d /\ articles d = Some raw
    /\ Forall2 (transformed_from w) (filter keep raw) arts
    /\ total = Z.of_nat (List.length arts)
    /\ status resp = 200
    /\ calls s = [EvFetchNews (news_url w)].
Proof.
  unfold fetch_news, serve, handler_body, error_response. fold (news_url w).
  destruct (String.eqb (method req) "OPTIONS").
  { intros [= <- <-]. discriminate. }
  destruct (negb (truthy (NEWS_API_KEY w))).
  { intros [= <- <-]. discriminate. }
  unfold bind at 1. unfold call.
  destruct (fetch w _) as [e | r] eqn:Hf; [intros [= <- <-]; discriminate |].
  destruct (negb (ok r)); [intros [= <- <-]; discriminate |].
  unfold bind at 1.
  destruct (json r) as [e | d] eqn:Hj; [intros [= <- <-]; discriminate |].
  destruct (negb (String.eqb (d_status d) "ok"));
    [intros [= <- <-]; discriminate |].
  unfold bind at 1.
  destruct (articles d) as [raw |] eqn:Ha; unfold ret, throw;
    [| intros [= <- <-]; discriminate].
  unfold bind. cbn [init calls ticks app].
  destruct (mapM_transform_kept w (filter keep raw)
              {| calls := [EvFetchNews (news_url w)]; ticks := 0 |}
              (filter_keep_Forall raw))
    as [(out & -> & Hout) | (e & x & -> & _)];
    [| intros [= <- <-]; discriminate].
  intros [= <- <-] [= <- <-].
  exists r, d, raw. repeat split; assumption.
Qed.

(** X1: every way the news handler can fail before it has articles ends in
    a 500 response with its own message: no API key (NewsAPI is then not
    called at all), a rejected fetch, a non-2xx answer, an unparsable body,
    a NewsAPI status other than "ok" (the message NewsAPI sent, or
    "NewsAPI error" when it sent none). *)
Theorem news_failures_are_500 (w : World) (req : Request) :
  method req <> "OPTIONS" ->
  (NEWS_API_KEY w = "" ->
   fetch_news w req = (error_response "API key not configured", init))
  /\ (NEWS_API_KEY w <> "" ->
      (forall e, fetch w (news_url w) = inl e ->
         fst (fetch_news w req) = error_response "Internal server error")
      /\ (forall r, fetch w (news_url w) = inr r -> ok r = false ->
          fst (fetch_news w req) = error_response "Failed to fetch news")
      /\ (forall r e, fetch w (news_url w) = inr r -> ok r = true ->
          json r = inl e ->
          fst (fetch_news w req) = error_response "Internal server error")
      /\ (forall r d, fetch w (news_url w) = inr r -> ok r = true ->
          json r = inr d -> d_status d <> "ok" ->
          fst (fetch_news w req)
          = error_response (if String.eqb (message d) "" then "NewsAPI error"
                            else message d))
      /\ snd (fetch_news w req)
         = {| calls := [EvFetchNews (news_url w)]; ticks := 0 |}).
Proof.
  intros Hm. split.
  - intros Hkey. unfold fetch_news, serve, handler_body.
    destruct (String.eqb_spec (method req) "OPTIONS"); [contradiction |].
    now rewrite Hkey.
  - intros Hkey. rewrite (fetch_news_eq w req Hm Hkey). cbn [fst snd].
    repeat split.
    + intros e ->. reflexivity.
    + intros r -> ->. reflexivity.
    + intros r e -> -> ->. reflexivity.
    + intros r d -> -> -> Hs.
      destruct (String.eqb_spec (d_status d) "ok"); [contradiction |].
      unfold or_str, truthy. cbn [negb].
      destruct (String.eqb (message d) ""); reflexivity.
Qed.

Lemma news_failures_are_500_witness :
  NEWS_API_KEY MoreSamples.unconfigured_news_world = ""
  /\ fetch_news MoreSamples.unconfigured_news_world Samples.news_request
     = (error_response "API key not configured", init).
Proof.
  split; [reflexivity |].
  apply (news_failures_are_500 MoreSamples.unconfigured_news_world
           Samples.news_request).
  - discriminate.
  - reflexivity.
Defined.

Lemma Forall2_In_r {A B} (R : A -> B -> Prop) (l : list A) (out : list B)
    (b : B) :
  Forall2 R l out -> In b out -> exists a, In a l /\ R a b.
Proof.
  induction 1 as [| x y l out Hxy _ IH]; intros Hin; [destruct Hin |].
  destruct Hin as [<- | Hin].
  - exists x. split; [now left | exact Hxy].
  - destruct (IH Hin) as (a & Ha & HR). exists a. split; [now right | exact HR].
Qed.

Lemma transformed_fields (w : World) (l : list NewsAPIArticle)
    (out : list TransformedArticle) :
  Forall2 (transformed_from w) l out ->
  map t_title out = map title l
  /\ map summary out = map description l
  /\ map t_url out = map url l.
Proof.
  induction 1 as [| x a l out (b64 & _ & ->) _ (IH1 & IH2 & IH3)]; simpl.
  - repeat split.
  - rewrite IH1, IH2, IH3. repeat split.
Qed.

(** X2: the articles of a 200 response are the NewsAPI articles that have a
    title, a description and a URL and are not the "[Removed]" placeholder,
    one for one and in NewsAPI's order, and [total] is their number; so no
    returned article has an empty title, URL or summary, none is titled
    "[Removed]", the summary is always the description (the fallback to the
    title is never taken) and the language is always "en". *)
Theorem returned_articles_pass_filter (w : World) (req : Request)
    (resp : Response) (s : hstate) (arts : list TransformedArticle)
    (total : Z) :
  fetch_news w req = (resp, s) ->
  body resp = Articles arts total ->
  (exists r d raw,
     fetch w (news_url w) = inr r /\ json r = inr d /\ articles d = Some raw
     /\ map t_title arts = map title (filter keep raw)
     /\ map summary arts = map description (filter keep raw)
     /\ map t_url arts = map url (filter keep raw))
  /\ total = Z.of_nat (List.length arts)
  /\ (forall a, In a arts ->
      t_title a <> "" /\ t_title a <> "[Removed]" /\ t_url a <> ""
      /\ summary a <> "" /\ language a = "en").
Proof.
  intros Hrun Hbody.
  destruct (articles_inv _ _ _ _ _ _ Hrun Hbody)
    as (r & d & raw & Hf & Hj & Ha & Hall & Htotal & _ & _).
  split; [| split; [exact Htotal |]].
  - exists r, d, raw.
    destruct (transformed_fields _ _ _ Hall) as (H1 & H2 & H3).
    repeat split; assumption.
  - intros a Hin.
    destruct (Forall2_In_r _ _ _ _ Hall Hin) as (x & Hx & b64 & _ & ->).
    apply filter_In in Hx as [_ Hx].
    destruct (keep_fields x Hx) as (Ht & Hd & Hu & Hr).
    unfold truthy in Ht, Hd, Hu. rewrite negb_true_iff in Ht, Hd, Hu.
    apply String.eqb_neq in Ht, Hd, Hu. simpl. repeat split; assumption.
Qed.

Lemma returned_articles_pass_filter_witness :
  1 = Z.of_nat (List.length [Samples.transformed_headline])
  /\ (forall a, In a [Samples.transformed_headline] ->
      t_title a <> "" /\ t_title a <> "[Removed]" /\ t_url a <> ""
      /\ summary a <> "" /\ language a = "en").
Proof.
  refine (proj2 (returned_articles_pass_filter Samples.news_world
                   Samples.news_request _ _ [Samples.transformed_headline] 1
                   _ _)).
  - apply surjective_pairing.
  - vm_compute. reflexivity.
Defined.

Lemma substring_0_length (n : nat) (s : string) :
  (String.length (String.substring 0 n s) <= n)%nat.
Proof.
  revert s. induction n as [| n IH]; intros [| c s]; simpl; try lia.
  specialize (IH s). lia.
Qed.

Lemma substring_0_forallb (P : ascii -> bool) (n : nat) (s : string) :
  forallb P (list_ascii_of_string s) = true ->
  forallb P (list_ascii_of_string (String.substring 0 n s)) = true.
Proof.
  revert s. induction n as [| n IH]; intros [| c s]; simpl; try reflexivity.
  rewrite !andb_true_iff. intros [Hc Hs]. split; [exact Hc | now apply IH].
Qed.

Lemma keep_alnum_alphanumeric (s : string) : alphanumeric (keep_alnum s).
Proof.
  unfold alphanumeric. induction s as [| c s IH]; simpl; [reflexivity |].
  destruct (is_alnum c) eqn:Hc; simpl; [| exact IH]. now rewrite Hc.
Qed.

(** X3: the identifier of every returned article has at most 20 characters,
    all of them ASCII letters or digits, and it is a function of the URL:
    two returned articles with the same URL have the same identifier. *)
Theorem article_id_shape (w : World) (req : Request) (resp : Response)
    (s : hstate) (arts : list TransformedArticle) (total : Z) :
  fetch_news w req = (resp, s) ->
  body resp = Articles arts total ->
  (forall a, In a arts ->
     (String.length (id a) <= 20)%nat /\ alphanumeric (id a))
  /\ (forall a b, In a arts -> In b arts -> t_url a = t_url b -> id a = id b).
Proof.
  intros Hrun Hbody.
  destruct (articles_inv _ _ _ _ _ _ Hrun Hbody)
    as (r & d & raw & _ & _ & _ & Hall & _).
  split.
  - intros a Hin.
    destruct (Forall2_In_r _ _ _ _ Hall Hin) as (x & _ & b64 & _ & ->).
    simpl. split; [apply substring_0_length |].
    apply substring_0_forallb, keep_alnum_alphanumeric.
  - intros a b Ha Hb Hurl.
    destruct (Forall2_In_r _ _ _ _ Hall Ha) as (x & _ & ba & Hba & ->).
    destruct (Forall2_In_r _ _ _ _ Hall Hb) as (y & _ & bb & Hbb & ->).
    simpl in *. rewrite Hurl in Hba. congruence.
Qed.

Lemma article_id_shape_witness :
  id Samples.transformed_headline = "aHR0cHM6Ly9leGFtcGxl"
  /\ (String.length (id Samples.transformed_headline) <= 20)%nat
  /\ alphanumeric (id Samples.transformed_headline).
Proof.
  split; [reflexivity |].
  refine (proj1 (article_id_shape Samples.news_world Samples.news_request
                   _ _ [Samples.transformed_headline] 1 _ _)
            Samples.transformed_headline _).
  - apply surjective_pairing.
  - vm_compute. reflexivity.
  - left. reflexivity.
Defined.

Lemma Forall2_In_l {A B} (R : A -> B -> Prop) (l : list A) (out : list B)
    (a : A) :
  Forall2 R l out -> In a l -> exists b, In b out /\ R a b.
Proof.
  induction 1 as [| x y l out Hxy _ IH]; intros Hin; [destruct Hin |].
  destruct Hin as [<- | Hin].
  - exists y. split; [now left | exact Hxy].
  - destruct (IH Hin) as (b & Hb & HR). exists b. split; [now right | exact HR].
Qed.

(** X4: the articles are transformed all or none: when [btoa] refuses the
    URL of a single article that passed the filter, the whole request is
    answered with the generic 500 response and no article is returned. *)
Theorem one_bad_url_fails_all (w : World) (req : Request) (r : HttpResponse)
    (d : NewsData) (raw : list NewsAPIArticle) (x : NewsAPIArticle) (e : exn) :
  method req <> "OPTIONS" ->
  NEWS_API_KEY w <> "" ->
  fetch w (news_url w) = inr r -> ok r = true -> json r = inr d ->
  d_status d = "ok" -> articles d = Some raw ->
  In x raw -> keep x = true -> btoa w (url x) = inl e ->
  fst (fetch_news w req) = error_response "Internal server error".
Proof.
  intros Hm Hkey Hf Hok Hj Hs Ha Hx Hkeep Hb.
  rewrite (fetch_news_run w req r d raw Hm Hkey Hf Hok Hj Hs Ha).
  destruct (mapM_transform_kept w (filter keep raw)
              {| calls := [EvFetchNews (news_url w)]; ticks := 0 |}
              (filter_keep_Forall raw))
    as [(out & -> & Hall) | (e' & y & -> & _)]; [| reflexivity].
  exfalso.
  assert (Hin : In x (filter keep raw)) by (apply filter_In; now split).
  destruct (Forall2_In_l _ _ _ _ Hall Hin) as (a & _ & b64 & Hb64 & _).
  congruence.
Qed.

Lemma one_bad_url_fails_all_witness :
  FetchNews.keep Samples.sports_headline = true
  /\ fst (fetch_news MoreSamples.mixed_news_world Samples.news_request)
     = error_response "Internal server error".
Proof.
  split; [reflexivity |].
  refine (one_bad_url_fails_all MoreSamples.mixed_news_world
            Samples.news_request _ _ _ MoreSamples.unencodable _
            _ _ eq_refl eq_refl eq_refl eq_refl eq_refl _ eq_refl eq_refl).
  - discriminate.
  - discriminate.
  - right. left. reflexivity.
Defined.

End NewsExtra.

(** ** generate-recommendations: the paths of a run *)

Module RecommendExtra.
Import JS Spec SpecExtra JSFacts Recommend AggregatorFacts RecommendFacts.

(** The whole run of an authenticated request, step by step. *)
Lemma recommend_eq (w : World) (req : Request) (user : string) :
  authenticated w req user ->
  generate_recommendations w req = recommend_run w req user.
Proof.
  intros (Hm & h & Hh & Hauth).
  unfold generate_recommendations, serve, handler_body, recommend_run, rec_calls.
  destruct (String.eqb_spec (method req) "OPTIONS"); [contradiction |].
  rewrite Hh. unfold bind at 1. unfold ret at 1.
  unfold bind at 1. unfold call at 1. rewrite Hauth.
  unfold bind at 1. unfold now at 1. cbn [init calls ticks app].
  unfold bind at 1. unfold call at 1. cbn [calls ticks app].
  destruct (select_activities w user _) as [e | acts]; [reflexivity |].
  destruct (error acts); [reflexivity |].
  unfold bind at 1.
  destruct (data acts) as [activities |]; [| reflexivity].
  unfold ret at 1. cbv zeta.
  unfold bind at 1. unfold now at 1. cbn [calls ticks].
  unfold bind at 1. unfold call at 1. cbn [calls ticks app].
  destruct (select_articles w _) as [e | arts]; [reflexivity |].
  destruct (error arts); [reflexivity |].
  unfold bind at 1. unfold call at 1. cbn [calls ticks app].
  destruct (select_interacted w user) as [e | inter]; [reflexivity |].
  unfold bind at 1.
  destruct (data arts) as [pool |]; [| reflexivity].
  unfold ret at 1. unfold bind at 1.
  rewrite mapM_scoreM. reflexivity.
Qed.

(** The run of a request that carries an Authorization header. *)
Lemma header_eq (w : World) (req : Request) (h : string) :
  method req <> "OPTIONS" ->
  authorization req = Some h ->
  generate_recommendations w req
  = match auth_getUser w (replace "Bearer " "" h) with
    | inl _ =>
        ({| status := 500; body := ErrorBody "Internal server error" |},
         {| calls := [EvGetUser (replace "Bearer " "" h)]; ticks := 0 |})
    | inr (Some user, None) => recommend_run w req user
    | inr _ =>
        ({| status := 401; body := ErrorBody "Unauthorized" |},
         {| calls := [EvGetUser (replace "Bearer " "" h)]; ticks := 0 |})
    end.
Proof.
  intros Hm Hh.
  destruct (auth_getUser w (replace "Bearer " "" h)) as [e | [u err]] eqn:Ha.
  2: destruct u as [user |], err as [err |].
  3: { apply recommend_eq. split; [exact Hm |]. now exists h. }
  all: unfold generate_recommendations, serve, handler_body;
    destruct (String.eqb_spec (method req) "OPTIONS"); [contradiction |];
    rewrite Hh; unfold bind at 1; unfold ret at 1; cbv beta;
    unfold bind at 1; unfold call at 1; rewrite Ha; reflexivity.
Qed.

(** X5: when the identity provider answers the token with an error or with
    no user, the response is 401 "Unauthorized" and no table is queried;
    when the call to the provider itself throws, the response is the generic
    500. *)
Theorem unauthorized_is_401 (w : World) (req : Request) (h : string) :
  method req <> "OPTIONS" ->
  authorization req = Some h ->
  (forall u err,
     auth_getUser w (replace "Bearer " "" h) = inr (u, err) ->
     u = None \/ err <> None ->
     generate_recommendations w req
     = ({| status := 401; body := ErrorBody "Unauthorized" |},
        {| calls := [EvGetUser (replace "Bearer " "" h)]; ticks := 0 |}))
  /\ (forall e,
        auth_getUser w (replace "Bearer " "" h) = inl e ->
        generate_recommendations w req
        = ({| status := 500; body := ErrorBody "Internal server error" |},
           {| calls := [EvGetUser (replace "Bearer " "" h)]; ticks := 0 |})).
Proof.
  intros Hm Hh. rewrite (header_eq w req h Hm Hh). split.
  - intros u err -> Hno.
    destruct u as [u |], err as [err |]; try reflexivity.
    destruct Hno as [Hno | Hno]; [discriminate | contradiction].
  - intros e ->. reflexivity.
Qed.

Lemma unauthorized_is_401_witness :
  generate_recommendations Samples.rec_world MoreSamples.wrong_token_request
  = ({| status := 401; body := ErrorBody "Unauthorized" |},
     {| calls := [EvGetUser "wrong"]; ticks := 0 |}).
Proof.
  refine (proj1 (unauthorized_is_401 Samples.rec_world
                   MoreSamples.wrong_token_request "Bearer wrong" _ eq_refl)
            None (Some "invalid JWT") eq_refl _).
  - discriminate.
  - left. reflexivity.
Defined.

Lemma replace_absent (pat by_ s : string) :
  includes s pat = false -> replace pat by_ s = s.
Proof.
  induction s as [| c s IH]; simpl.
  - rewrite orb_false_r. now intros ->.
  - intros H. apply orb_false_iff in H as [Hp Hs]. rewrite Hp.
    now rewrite (IH Hs).
Qed.

(** X6: the token handed to the identity provider is the Authorization
    header with the first "Bearer " removed: the header "Bearer t" gives t,
    a header without "Bearer " is handed over unchanged, and whatever the
    provider answers it is the first call of the run. *)
Theorem bearer_token_extracted :
  (forall t, replace "Bearer " "" (String.append "Bearer " t) = t)
  /\ (forall h, includes h "Bearer " = false -> replace "Bearer " "" h = h)
  /\ (forall w req h,
        method req <> "OPTIONS" -> authorization req = Some h ->
        hd_error (calls (snd (generate_recommendations w req)))
        = Some (EvGetUser (replace "Bearer " "" h))).
Proof.
  split; [| split].
  - intros t. reflexivity.
  - intros h. apply replace_absent.
  - intros w req h Hm Hh. rewrite (header_eq w req h Hm Hh).
    destruct (auth_getUser w (replace "Bearer " "" h))
      as [e | [[user |] [err |]]]; try reflexivity.
    unfold recommend_run, rec_calls. rewrite Hh.
    repeat match goal with
           | |- context [match ?x with _ => _ end] =>
               destruct x; try reflexivity
           end.
Qed.

Lemma bearer_token_extracted_witness :
  hd_error (calls (snd (generate_recommendations Samples.rec_world
                          Samples.rec_request)))
  = Some (EvGetUser "secret").
Proof.
  refine (proj2 (proj2 bearer_token_extracted) Samples.rec_world
            Samples.rec_request "Bearer secret" _ eq_refl).
  discriminate.
Defined.

(** X7: for an authenticated request, an error of the activities query is
    answered with 500 "Failed to fetch user activities" before any other
    table is read, and an error of the articles query with 500 "Failed to
    fetch articles" before the interacted set is read. *)
Theorem query_errors_are_500 (w : World) (req : Request) (user : string) :
  authenticated w req user ->
  (forall acts e,
     select_activities w user (clock w 0 - 30 * ms_per_day) = inr acts ->
     error acts = Some e ->
     exists token,
       generate_recommendations w req
       = ({| status := 500;
             body := ErrorBody "Failed to fetch user activities" |},
          {| calls := [EvGetUser token;
                       EvSelectActivities user (clock w 0 - 30 * ms_per_day)];
             ticks := 1 |}))
  /\ (forall acts activities arts e,
        select_activities w user (clock w 0 - 30 * ms_per_day) = inr acts ->
        error acts = None -> data acts = Some activities ->
        select_articles w (clock w 1 - 7 * ms_per_day) = inr arts ->
        error arts = Some e ->
        exists token,
          generate_recommendations w req
          = ({| status := 500; body := ErrorBody "Failed to fetch articles" |},
             {| calls := [EvGetUser token;
                          EvSelectActivities user
                            (clock w 0 - 30 * ms_per_day);
                          EvSelectArticles (clock w 1 - 7 * ms_per_day)];
                ticks := 2 |})).
Proof.
  intros Hauth. rewrite (recommend_eq w req user Hauth).
  unfold recommend_run, rec_calls. split.
  - intros acts e -> ->. eexists. reflexivity.
  - intros acts activities arts e -> -> -> -> ->. eexists. reflexivity.
Qed.

Lemma query_errors_are_500_witness :
  exists token,
    generate_recommendations MoreSamples.failing_activities_world
      Samples.rec_request
    = ({| status := 500; body := ErrorBody "Failed to fetch user activities" |},
       {| calls := [EvGetUser token; EvSelectActivities "u1" (-2584800000)];
          ticks := 1 |}).
Proof.
  refine (proj1 (query_errors_are_500 MoreSamples.failing_activities_world
                   Samples.rec_request "u1" _)
            {| data := None; error := Some "statement timeout" |}
            "statement timeout" eq_refl eq_refl).
  split; [discriminate |]. exists "Bearer secret". split; reflexivity.
Defined.

(** X8: for a user without any activity in the window both top lists are
    empty and every recommendation is scored by recency alone. *)
Theorem cold_start_is_recency_only (w : World) (req : Request) (user : string)
    (acts : QueryResult (list UserActivity)) (resp : Response) (s : hstate)
    (recs : list ScoredArticle) (tc ts : list string) :
  authenticated w req user ->
  select_activities w user (clock w 0 - 30 * ms_per_day) = inr acts ->
  error acts = None -> data acts = Some [] ->
  generate_recommendations w req = (resp, s) ->
  body resp = Recommendations recs tc ts ->
  tc = [] /\ ts = []
  /\ (forall sa, In sa recs ->
      exists k, (score sa
                 == recencyScore (clock w k) (published_at (article sa)))%Q).
Proof.
  intros Hauth Hsel Herr Hdata Hrun Hbody.
  assert (Htop : tc = [] /\ ts = []).
  { rewrite (recommend_eq w req user Hauth) in Hrun.
    unfold recommend_run in Hrun. rewrite Hsel, Herr, Hdata in Hrun.
    destruct (select_articles w _) as [e | arts];
      [injection Hrun as <- _; discriminate |].
    destruct (error arts); [injection Hrun as <- _; discriminate |].
    destruct (select_interacted w user) as [e | inter];
      [injection Hrun as <- _; discriminate |].
    destruct (data arts); [| injection Hrun as <- _; discriminate].
    injection Hrun as <- _. injection Hbody as _ <- <-. split; reflexivity. }
  destruct Htop as [-> ->]. repeat split.
  intros sa Hin.
  destruct (Recommendations.recommendation_is_scored _ _ _ _ _ _ _ _
              Hrun Hbody Hin) as (k & Hk).
  exists k. rewrite Hk, Recommendations.score_article_formula.
  unfold categoryScore, sourceScore. simpl. ring.
Qed.

Lemma cold_start_is_recency_only_witness :
  exists recs,
    body (fst (generate_recommendations MoreSamples.new_user_world
                 Samples.rec_request))
    = Recommendations recs [] []
    /\ (forall sa, In sa recs ->
        exists k,
          (score sa
           == recencyScore (clock MoreSamples.new_user_world k)
                           (published_at (article sa)))%Q).
Proof.
  eexists. split; [vm_compute; reflexivity |].
  refine (proj2 (proj2 (cold_start_is_recency_only MoreSamples.new_user_world
                          Samples.rec_request "u1"
                          {| data := Some []; error := None |} _ _ _ [] []
                          _ eq_refl eq_refl eq_refl _ _))).
  - split; [discriminate |]. exists "Bearer secret". split; reflexivity.
  - apply surjective_pairing.
  - vm_compute. reflexivity.
Defined.

(** X9: whatever the activities, a top list holds min(3, d) labels, d being
    the number of distinct labels of the input, without repetition, and
    every label in it is the label of some activity of the input. *)
Theorem top_lists_shape (activities : list UserActivity) :
  (List.length (topCategories activities)
   = Nat.min 3 (List.length (nodup string_dec
                               (map article_category activities)))
   /\ NoDup (topCategories activities)
   /\ forall c, In c (topCategories activities) ->
                In c (map article_category activities))
  /\ (List.length (topSources activities)
      = Nat.min 3 (List.length (nodup string_dec
                                  (map article_source activities)))
      /\ NoDup (topSources activities)
      /\ forall c, In c (topSources activities) ->
                   In c (map article_source activities)).
Proof.
  unfold topCategories, topSources. split.
  - pose proof (categoryPreferences_inv activities) as Hinv.
    rewrite top3_length, (distinct_labels _ _ _ Hinv).
    repeat split.
    + eapply top3_NoDup, Hinv.
    + intros c. eapply top3_In, Hinv.
  - pose proof (sourcePreferences_inv activities) as Hinv.
    rewrite top3_length, (distinct_labels _ _ _ Hinv).
    repeat split.
    + eapply top3_NoDup, Hinv.
    + intros c. eapply top3_In, Hinv.
Qed.

Lemma rank_lt (l : list string) (x : string) (i : nat) :
  rank l x = Some i -> (i < List.length l)%nat.
Proof.
  revert i. induction l as [| y l IH]; intros i; simpl; [discriminate |].
  destruct (String.eqb y x); [intros [= <-]; lia |].
  destruct (rank l x) as [j |]; simpl; [| discriminate].
  intros [= <-]. specialize (IH j eq_refl). lia.
Qed.

Lemma categoryScore_range (tc : list string) (c : string) :
  (List.length tc <= 3)%nat ->
  (0 <= categoryScore tc c /\ categoryScore tc c <= 30)%Q.
Proof.
  intros Hlen. unfold categoryScore.
  destruct (rank tc c) as [i |] eqn:Hr; [| split; discriminate].
  apply rank_lt in Hr.
  split; [change 0%Q with (inject_Z 0) | change 30%Q with (inject_Z 30)];
    rewrite <- Zle_Qle; lia.
Qed.

Lemma sourceScore_range (ts : list string) (c : string) :
  (List.length ts <= 3)%nat ->
  (0 <= sourceScore ts c /\ sourceScore ts c <= 15)%Q.
Proof.
  intros Hlen. unfold sourceScore.
  destruct (rank ts c) as [i |] eqn:Hr; [| split; discriminate].
  apply rank_lt in Hr.
  split; [change 0%Q with (inject_Z 0) | change 15%Q with (inject_Z 15)];
    rewrite <- Zle_Qle; lia.
Qed.

Lemma recencyScore_range (now_ms published_ms : Z) :
  (0 <= recencyScore now_ms published_ms)%Q
  /\ (published_ms <= now_ms ->
      (recencyScore now_ms published_ms <= 24)%Q).
Proof.
  unfold recencyScore. split; [apply Q.le_max_l |].
  intros Hle. apply Q.max_lub; [discriminate |].
  assert (H : (0 <= ageInHours now_ms published_ms)%Q).
  { unfold ageInHours. apply Qle_shift_div_l; [reflexivity |].
    rewrite Qmult_0_l. change 0%Q with (inject_Z 0).
    rewrite <- Zle_Qle. lia. }
  lra.
Qed.

(** X10: the score of a recommendation is never negative, and it is at most
    69 (30 + 15 + 24) for an article that was not published after the clock
    readings of the run. *)
Theorem score_bounds (w : World) (req : Request) (resp : Response)
    (s : hstate) (recs : list ScoredArticle) (tc ts : list string)
    (sa : ScoredArticle) :
  generate_recommendations w req = (resp, s) ->
  body resp = Recommendations recs tc ts ->
  In sa recs ->
  (0 <= score sa)%Q
  /\ ((forall k, published_at (article sa) <= clock w k) ->
      (score sa <= 69)%Q).
Proof.
  intros Hrun Hbody Hin.
  destruct (Recommendations.recommendation_is_scored _ _ _ _ _ _ _ _
              Hrun Hbody Hin) as (k & Hk).
  assert (Hlen : (List.length tc <= 3 /\ List.length ts <= 3)%nat).
  { destruct (recommendations_inv _ _ _ _ _ _ _ Hrun Hbody)
      as (h & user & acts & activities & arts & recent & inter & Hrec).
    destruct Hrec as (_ & _ & _ & _ & _ & _ & _ & _ & -> & -> & _).
    unfold topCategories, topSources. rewrite !top3_length. lia. }
  destruct Hlen as [Htc Hts].
  pose proof (Recommendations.score_article_formula tc ts (clock w k)
                (article sa)) as Hf.
  rewrite <- Hk in Hf.
  destruct (categoryScore_range tc (category (article sa)) Htc) as [Hc0 Hc1].
  destruct (sourceScore_range ts (source (article sa)) Hts) as [Hs0 Hs1].
  destruct (recencyScore_range (clock w k) (published_at (article sa)))
    as [Hr0 Hr1].
  split; [lra |]. intros Hpub. specialize (Hr1 (Hpub k)). lra.
Qed.

Lemma score_bounds_witness :
  (0 <= score Samples.scored_sports)%Q
  /\ ((forall k, published_at (article Samples.scored_sports)
                 <= clock Samples.rec_world k) ->
      (score Samples.scored_sports <= 69)%Q).
Proof.
  refine (score_bounds Samples.rec_world Samples.rec_request _ _ _
            ["sports"; "technology"] ["espn"; "bbc"; "cnn"]
            Samples.scored_sports _ _ _).
  - apply surjective_pairing.
  - vm_compute. reflexivity.
  - vm_compute. left. reflexivity.
Defined.

Lemma rec_after_true (x y : ScoredArticle) :
  by_score_desc x y = true <-> (score x < score y)%Q.
Proof.
  unfold by_score_desc. rewrite negb_true_iff. split.
  - intros H. destruct (Qlt_le_dec (score x) (score y)) as [Hlt | Hle];
      [exact Hlt |].
    assert (Hb : Qle_bool (score y - score x) 0 = true)
      by (apply Qle_bool_iff; lra).
    congruence.
  - intros H. destruct (Qle_bool (score y - score x) 0) eqn:Hb;
      [| reflexivity].
    apply Qle_bool_iff in Hb. lra.
Qed.

Lemma rec_after_false (x y : ScoredArticle) :
  by_score_desc x y = false <-> (score y <= score x)%Q.
Proof.
  split.
  - intros H. destruct (Qlt_le_dec (score x) (score y)) as [Hlt | Hle];
      [| exact Hle].
    apply rec_after_true in Hlt. congruence.
  - intros H. destruct (by_score_desc x y) eqn:Hb; [| reflexivity].
    apply rec_after_true in Hb. lra.
Qed.

Lemma rec_after_asym (x y : ScoredArticle) :
  by_score_desc x y = true -> by_score_desc y x = false.
Proof. rewrite rec_after_true, rec_after_false. lra. Qed.

Lemma rec_after_negtrans (x y z : ScoredArticle) :
  by_score_desc x y = false -> by_score_desc y z = false ->
  by_score_desc x z = false.
Proof. rewrite !rec_after_false. lra. Qed.

Lemma map_article_scored_from (w : World) (tc ts : list string) (n : nat)
    (l : list Article) :
  map article (scored_from w tc ts n l) = l.
Proof.
  revert n. induction l as [| a l IH]; intros n; simpl;
    [reflexivity | now rewrite IH].
Qed.

Lemma precedes_filter {A} (f : A -> bool) (l : list A) (a b : A) :
  precedes (filter f l) a b -> precedes l a b.
Proof.
  intros (l1 & l2 & Heq & Hin). revert l1 Heq.
  induction l as [| x l IH]; intros l1 Heq; simpl in Heq.
  - destruct l1; discriminate.
  - destruct (f x).
    + destruct l1 as [| y l1]; simpl in Heq.
      * injection Heq as -> Hl. apply precedes_head.
        assert (H : In b (filter f l)) by now rewrite Hl.
        now apply filter_In in H.
      * injection Heq as _ Hl. apply precedes_cons. now apply (IH l1).
    + apply precedes_cons. now apply (IH l1).
Qed.

(** X11: the recommendations are in descending order of score, and two of
    equal score are in the order of the article pool (newest first, as the
    articles query delivers it). *)
Theorem recommendations_ranked (w : World) (req : Request) (resp : Response)
    (s : hstate) (recs : list ScoredArticle) (tc ts : list string) :
  generate_recommendations w req = (resp, s) ->
  body resp = Recommendations recs tc ts ->
  exists arts pool,
    select_articles w (clock w 1 - 7 * ms_per_day) = inr arts
    /\ data arts = Some pool
    /\ forall i j x y,
         (i < j)%nat ->
         nth_error recs i = Some x -> nth_error recs j = Some y ->
         (score y < score x)%Q
         \/ ((score y == score x)%Q
             /\ precedes pool (article x) (article y)).
Proof.
  intros Hrun Hbody.
  destruct (recommendations_inv _ _ _ _ _ _ _ Hrun Hbody)
    as (h & user & acts & activities & arts & pool & inter & Hrec).
  destruct Hrec as (_ & _ & _ & Harts & Hpool & _ & _ & _ & _ & _ & ->).
  exists arts, pool. split; [exact Harts | split; [exact Hpool |]].
  intros i j x y Hij Hx Hy.
  match type of Hx with
  | nth_error (slice0 (sort _ ?l) 20) _ = _ => set (scored := l) in *
  end.
  destruct (slice0_prefix (sort by_score_desc scored) 20) as (n & Hn).
  rewrite Hn in Hx, Hy.
  apply firstn_nth in Hx as [_ Hx]. apply firstn_nth in Hy as [_ Hy].
  pose proof (StronglySorted_nth _ _
                (sort_stable by_score_desc rec_after_asym rec_after_negtrans
                   scored) i j x y Hij Hx Hy) as [Hlt | (Ha & Hb & Hp)].
  - left. now apply rec_after_true.
  - right. apply rec_after_false in Ha, Hb. split; [lra |].
    apply (precedes_map article) in Hp. unfold scored in Hp.
    rewrite map_article_scored_from in Hp.
    eapply precedes_filter, Hp.
Qed.

Lemma recommendations_ranked_witness :
  exists arts pool,
    select_articles Samples.rec_world
      (clock Samples.rec_world 1 - 7 * ms_per_day) = inr arts
    /\ data arts = Some pool
    /\ forall i j x y,
         (i < j)%nat ->
         nth_error
           MoreSamples.sample_recs i = Some x ->
         nth_error
           MoreSamples.sample_recs j = Some y ->
         (score y < score x)%Q
         \/ ((score y == score x)%Q
             /\ precedes pool (article x) (article y)).
Proof.
  refine (recommendations_ranked Samples.rec_world Samples.rec_request _ _
            MoreSamples.sample_recs
            ["sports"; "technology"] ["espn"; "bbc"; "cnn"] _ _).
  - apply surjective_pairing.
  - vm_compute. reflexivity.
Defined.

(** X12: the recommendations are articles of the pool the articles query
    returned, none of them invented, and there are exactly min(20, n) of
    them, n being the number of pool articles outside the interacted set. *)
Theorem recommendations_from_pool (w : World) (req : Request)
    (resp : Response) (s : hstate) (recs : list ScoredArticle)
    (tc ts : list string) :
  generate_recommendations w req = (resp, s) ->
  body resp = Recommendations recs tc ts ->
  exists user arts pool inter,
    select_articles w (clock w 1 - 7 * ms_per_day) = inr arts
    /\ data arts = Some pool
    /\ select_interacted w user = inr inter
    /\ List.length recs
       = Nat.min 20 (List.length (candidates_of (interacted_of inter) pool))
    /\ (forall sa, In sa recs ->
        In (article sa) (candidates_of (interacted_of inter) pool)).
Proof.
  intros Hrun Hbody.
  destruct (recommendations_inv _ _ _ _ _ _ _ Hrun Hbody)
    as (h & user & acts & activities & arts & pool & inter & Hrec).
  destruct Hrec as (_ & _ & _ & Harts & Hpool & Hinter & _ & _ & _ & _ & ->).
  exists user, arts, pool, inter. repeat split; try assumption.
  - rewrite slice0_firstn by lia. rewrite length_firstn.
    rewrite (sort_length by_score_desc), scored_from_length. reflexivity.
  - intros sa Hin.
    apply Recommendations.slice0_incl, sort_In, scored_from_In in Hin
      as (k & Hin & _).
    exact Hin.
Qed.

Lemma recommendations_from_pool_witness :
  exists user arts pool inter,
    select_articles Samples.rec_world
      (clock Samples.rec_world 1 - 7 * ms_per_day) = inr arts
    /\ data arts = Some pool
    /\ select_interacted Samples.rec_world user = inr inter
    /\ List.length MoreSamples.sample_recs
       = Nat.min 20 (List.length (candidates_of (interacted_of inter) pool))
    /\ (forall sa,
          In sa MoreSamples.sample_recs ->
          In (article sa) (candidates_of (interacted_of inter) pool)).
Proof.
  refine (recommendations_from_pool Samples.rec_world Samples.rec_request
            _ _ MoreSamples.sample_recs
            ["sports"; "technology"] ["espn"; "bbc"; "cnn"] _ _).
  - apply surjective_pairing.
  - vm_compute. reflexivity.
Defined.

(** X13: the weight a label accumulates does not depend on the order in
    which the activity rows arrive, and the weights of two batches of rows
    add up; only the breaking of ties looks at the order. *)
Theorem weights_order_independent :
  (forall l1 l2 k,
     Permutation l1 l2 ->
     map_get (categoryPreferences l1) k = map_get (categoryPreferences l2) k
     /\ map_get (sourcePreferences l1) k = map_get (sourcePreferences l2) k)
  /\ (forall l1 l2 k,
        or_zero (map_get (categoryPreferences (l1 ++ l2)) k)
        = or_zero (map_get (categoryPreferences l1) k)
          + or_zero (map_get (categoryPreferences l2) k)
        /\ or_zero (map_get (sourcePreferences (l1 ++ l2)) k)
           = or_zero (map_get (sourcePreferences l1) k)
             + or_zero (map_get (sourcePreferences l2) k)).
Proof.
  split.
  - intros l1 l2 k Hperm.
    rewrite !(Aggregator.preferences_get _ _ _ _ (categoryPreferences_inv _)).
    rewrite !(Aggregator.preferences_get _ _ _ _ (sourcePreferences_inv _)).
    rewrite !(accumulated_perm _ l1 l2 k Hperm).
    split.
    + destruct (in_dec string_dec k (map article_category l1)) as [H1 | H1],
               (in_dec string_dec k (map article_category l2)) as [H2 | H2];
        try reflexivity; exfalso.
      * apply H2. eapply Permutation_in; [apply Permutation_map, Hperm | exact H1].
      * apply H1. eapply Permutation_in;
          [apply Permutation_map, Permutation_sym, Hperm | exact H2].
    + destruct (in_dec string_dec k (map article_source l1)) as [H1 | H1],
               (in_dec string_dec k (map article_source l2)) as [H2 | H2];
        try reflexivity; exfalso.
      * apply H2. eapply Permutation_in; [apply Permutation_map, Hperm | exact H1].
      * apply H1. eapply Permutation_in;
          [apply Permutation_map, Permutation_sym, Hperm | exact H2].
  - intros l1 l2 k.
    rewrite !(preferences_weight _ _ _ _ (categoryPreferences_inv _)).
    rewrite !(preferences_weight _ _ _ _ (sourcePreferences_inv _)).
    split; apply accumulated_app.
Qed.

Lemma weights_order_independent_witness :
  map_get (categoryPreferences Samples.activities) "technology"
  = map_get (categoryPreferences (rev Samples.activities)) "technology"
  /\ map_get (sourcePreferences Samples.activities) "technology"
     = map_get (sourcePreferences (rev Samples.activities)) "technology".
Proof.
  apply (proj1 weights_order_independent Samples.activities
           (rev Samples.activities) "technology").
  apply Permutation_rev.
Defined.

End RecommendExtra.

(** ** bert_search: the paths of a run, the trimmed query *)

Module SearchExtra.
Import JS Spec SpecExtra JSFacts BertSearch SearchFacts.

Lemma embedding_eq (w : World) (q : jsstring) (st : hstate) :
  getOpenAIEmbedding w q embedding_model st
  = match api_key w with
    | Some (String c k) =>
        let st' := {| calls := calls st ++ [EvEmbedding q];
                      ticks := ticks st |} in
        match openai_embeddings w (String c k) q embedding_model with
        | inl e => (inl e, st')
        | inr res =>
            if ok res then (res_embedding res, st')
            else (inl (new_Error
                         (String.append "OpenAI embedding request failed: "
                            (String.append (res_status res)
                               (String.append " " (text res))))), st')
        end
    | _ => (inl (new_Error
                   "Missing OPENAI_API_KEY (or EMBEDDING_API_KEY) in env"), st)
    end.
Proof.
  unfold getOpenAIEmbedding, api_key, bind, call, throw.
  destruct (match OPENAI_API_KEY w with
            | Some k => Some k
            | None => EMBEDDING_API_KEY w
            end) as [[| c k] |]; try reflexivity.
  destruct (openai_embeddings w _ q embedding_model) as [e | res];
    [reflexivity |].
  destruct (ok res); reflexivity.
Qed.

(** The run of a search whose query is not blank. *)
Lemma search_eq (w : World) (req : Request) (c : N) (q : jsstring) :
  method req <> "OPTIONS" ->
  query_text req = c :: q ->
  bert_search w req
  = match getOpenAIEmbedding w (c :: q) embedding_model init with
    | (inl e, st) =>
        ({| status := 500; body := ErrorBody "Internal server error" e |}, st)
    | (inr qe, st) =>
        let k := requested_top_k req in
        match rpc_outcome w qe k with
        | Some response =>
            (response,
             {| calls := calls st ++ [EvRpcMatchNews k]; ticks := ticks st |})
        | None =>
            let t := clock w (ticks st) - 7 * ms_per_day in
            let st' := {| calls := (calls st ++ [EvRpcMatchNews k])
                                   ++ [EvSelectCandidates t];
                          ticks := S (ticks st) |} in
            match fallback_outcome w qe k t with
            | inl e =>
                ({| status := 500;
                    body := ErrorBody "Internal server error" e |}, st')
            | inr response => (response, st')
            end
        end
    end.
Proof.
  intros Hm Hq. unfold bert_search, serve, handler_body.
  destruct (String.eqb_spec (method req) "OPTIONS"); [contradiction |].
  rewrite requested_top_k_eq.
  unfold query_text in Hq.
  assert (Hq' : trim match query match json req with
                                 | Some b => b
                                 | None => {| query := None; top_k := None |}
                                 end
                     with Some s => s | None => [] end = c :: q).
  { rewrite <- Hq. destruct (json req); reflexivity. }
  rewrite Hq'. fold embedding_model.
  unfold bind at 1.
  destruct (getOpenAIEmbedding w (c :: q) embedding_model init)
    as [[e | qe] st]; [reflexivity |].
  unfold bind at 1. rewrite rpc_search_run. cbv zeta.
  destruct (rpc_outcome w qe (requested_top_k req)); [reflexivity |].
  rewrite fallback_search_run. reflexivity.
Qed.

(** X14: a search whose query is not blank is answered with a 500 whenever
    [getOpenAIEmbedding] throws, the detail being [String(err)] of what was
    thrown: "Error: Missing OPENAI_API_KEY (or EMBEDDING_API_KEY) in env"
    without an API key (an OPENAI_API_KEY set to the empty string hides a
    usable EMBEDDING_API_KEY; the provider is then not called), what a
    throwing call to the provider or the reading of its body threw, and
    "Error: OpenAI embedding request failed: <status> <text>" for an answer
    that is not 2xx; in none of these cases is the server-side search or the
    candidates table tried.  A 2xx answer whose [data[0]] has no embedding
    is no failure: the value read, [undefined], is taken for the query
    embedding and the server-side search is called with it, its rows being
    returned if it delivers any. *)
Theorem embedding_failure_is_fatal (w : World) (req : Request) (c : N)
    (q : jsstring) :
  method req <> "OPTIONS" ->
  query_text req = c :: q ->
  (OPENAI_API_KEY w = Some ""
   \/ (OPENAI_API_KEY w = None
       /\ (EMBEDDING_API_KEY w = None \/ EMBEDDING_API_KEY w = Some "")) ->
   bert_search w req
   = ({| status := 500;
         body :=
           ErrorBody "Internal server error"
             "Error: Missing OPENAI_API_KEY (or EMBEDDING_API_KEY) in env" |},
      init))
  /\ (forall key, api_key w = Some key -> key <> "" ->
      (forall e,
         openai_embeddings w key (c :: q) embedding_model = inl e ->
         bert_search w req
         = ({| status := 500; body := ErrorBody "Internal server error" e |},
            {| calls := [EvEmbedding (c :: q)]; ticks := 0 |}))
      /\ (forall res,
           openai_embeddings w key (c :: q) embedding_model = inr res ->
           ok res = false ->
           bert_search w req
           = ({| status := 500;
                 body :=
                   ErrorBody "Internal server error"
                     (String.append "Error: OpenAI embedding request failed: "
                        (String.append (res_status res)
                           (String.append " " (text res)))) |},
              {| calls := [EvEmbedding (c :: q)]; ticks := 0 |}))
      /\ (forall res e,
           openai_embeddings w key (c :: q) embedding_model = inr res ->
           ok res = true -> res_embedding res = inl e ->
           bert_search w req
           = ({| status := 500; body := ErrorBody "Internal server error" e |},
              {| calls := [EvEmbedding (c :: q)]; ticks := 0 |}))
      /\ (forall res,
           openai_embeddings w key (c :: q) embedding_model = inr res ->
           ok res = true -> res_embedding res = inr None ->
           firstn 2 (calls (snd (bert_search w req)))
           = [EvEmbedding (c :: q); EvRpcMatchNews (requested_top_k req)]
           /\ (forall qr r rows,
                 rpc_match_news w None (requested_top_k req) = inr qr ->
                 error qr = None -> data qr = Some (r :: rows) ->
                 fst (bert_search w req)
                 = {| status := 200;
                      body := Recommendations (map inl (r :: rows)) |}))).
Proof.
  intros Hm Hq. rewrite (search_eq w req c q Hm Hq), embedding_eq.
  unfold api_key. split.
  - intros [-> | [-> [-> | ->]]]; reflexivity.
  - intros key Hkey Hne. unfold api_key in Hkey. rewrite Hkey.
    destruct key as [| c0 k]; [contradiction |]. cbv zeta.
    split; [| split; [| split]].
    + intros e ->. reflexivity.
    + intros res -> ->. reflexivity.
    + intros res e -> -> ->. reflexivity.
    + intros res -> -> ->. cbn [init calls ticks app]. split.
      * destruct (rpc_outcome w None (requested_top_k req)); [reflexivity |].
        destruct (fallback_outcome _ _ _ _); reflexivity.
      * intros qr r rows Hrpc Herr Hdata. unfold rpc_outcome.
        rewrite Hrpc, Herr, Hdata. reflexivity.
Qed.

Lemma embedding_failure_is_fatal_witness :
  EMBEDDING_API_KEY MoreSamples.masked_key_world = Some "sk"
  /\ bert_search MoreSamples.masked_key_world (Samples.search (Some 10))
     = ({| status := 500;
           body :=
             ErrorBody "Internal server error"
               "Error: Missing OPENAI_API_KEY (or EMBEDDING_API_KEY) in env" |},
        init).
Proof.
  split; [reflexivity |].
  refine (proj1 (embedding_failure_is_fatal MoreSamples.masked_key_world
                   (Samples.search (Some 10)) 110%N [101; 119; 115]%N
                   _ eq_refl) _).
  - discriminate.
  - left. reflexivity.
Defined.

Lemma embedding_success (w : World) (q : jsstring) (qe : option (list Q)) :
  fst (getOpenAIEmbedding w q embedding_model init) = inr qe ->
  getOpenAIEmbedding w q embedding_model init
  = (inr qe, {| calls := [EvEmbedding q]; ticks := 0 |}).
Proof.
  rewrite embedding_eq.
  destruct (api_key w) as [[| c k] |]; try discriminate.
  cbv zeta.
  destruct (openai_embeddings w _ q embedding_model) as [e | res];
    [discriminate |].
  destruct (ok res); [| discriminate].
  simpl. now intros ->.
Qed.

(** X15: when the server-side search answers without error and with at
    least one row, the response is those rows, unchanged and in the order
    given, and the candidates table is not read; when it throws, errs, or
    answers with no data or no row, the candidates of the last seven days
    are fetched next. *)
Theorem rpc_rows_returned_as_is (w : World) (req : Request) (c : N)
    (q : jsstring) (qe : option (list Q)) :
  method req <> "OPTIONS" ->
  query_text req = c :: q ->
  fst (getOpenAIEmbedding w (c :: q) embedding_model init) = inr qe ->
  (forall qr r rows,
     rpc_match_news w qe (requested_top_k req) = inr qr ->
     error qr = None -> data qr = Some (r :: rows) ->
     bert_search w req
     = ({| status := 200; body := Recommendations (map inl (r :: rows)) |},
        {| calls := [EvEmbedding (c :: q);
                     EvRpcMatchNews (requested_top_k req)];
           ticks := 0 |}))
  /\ ((exists e, rpc_match_news w qe (requested_top_k req) = inl e)
      \/ (exists qr,
            rpc_match_news w qe (requested_top_k req) = inr qr
            /\ (error qr <> None \/ data qr = None \/ data qr = Some [])) ->
      calls (snd (bert_search w req))
      = [EvEmbedding (c :: q); EvRpcMatchNews (requested_top_k req);
         EvSelectCandidates (clock w 0 - 7 * ms_per_day)]).
Proof.
  intros Hm Hq Hemb.
  rewrite (search_eq w req c q Hm Hq), (embedding_success w _ qe Hemb).
  cbv zeta. cbn [calls ticks app]. unfold rpc_outcome. split.
  - intros qr r rows -> -> ->. reflexivity.
  - intros [(e & ->) | (qr & -> & Hqr)].
    + destruct (fallback_outcome _ _ _ _); reflexivity.
    + destruct (error qr) as [e |].
      * destruct (fallback_outcome _ _ _ _); reflexivity.
      * destruct Hqr as [Hqr | [-> | ->]]; [contradiction | |];
          destruct (fallback_outcome _ _ _ _); reflexivity.
Qed.

Lemma rpc_rows_returned_as_is_witness :
  bert_search Samples.rpc_world (Samples.search (Some 1))
  = ({| status := 200;
        body := Recommendations [inl (Samples.matched "aligned" 1)] |},
     {| calls := [EvEmbedding Samples.news_query; EvRpcMatchNews 1];
        ticks := 0 |}).
Proof.
  refine (proj1 (rpc_rows_returned_as_is Samples.rpc_world
                   (Samples.search (Some 1)) 110%N [101; 119; 115]%N (Some [1%Q])
                   _ eq_refl eq_refl)
            {| data := Some [Samples.matched "aligned" 1]; error := None |}
            (Samples.matched "aligned" 1) [] eq_refl eq_refl eq_refl).
  discriminate.
Defined.

(** X16: once the candidates are to be fetched, a fetch that throws is
    answered with a 500 whose detail is [String(err)] of what it threw; a
    fetch that answers with an error is answered with a 500 whose detail is
    "[object Object]" whatever the error says, the handler throwing the
    error object of the answer as it is; a fetch without data or without a
    row is answered with an empty 200. *)
Theorem fallback_fetch_outcomes (w : World) (req : Request) (c : N)
    (q : jsstring) (qe : option (list Q)) :
  method req <> "OPTIONS" ->
  query_text req = c :: q ->
  fst (getOpenAIEmbedding w (c :: q) embedding_model init) = inr qe ->
  rpc_outcome w qe (requested_top_k req) = None ->
  (forall e,
     select_candidates w (clock w 0 - 7 * ms_per_day) = inl e ->
     fst (bert_search w req)
     = {| status := 500; body := ErrorBody "Internal server error" e |})
  /\ (forall res e,
        select_candidates w (clock w 0 - 7 * ms_per_day) = inr res ->
        error res = Some e ->
        fst (bert_search w req)
        = {| status := 500;
             body := ErrorBody "Internal server error" "[object Object]" |})
  /\ (forall res,
        select_candidates w (clock w 0 - 7 * ms_per_day) = inr res ->
        error res = None -> data res = None \/ data res = Some [] ->
        fst (bert_search w req)
        = {| status := 200; body := Recommendations [] |}).
Proof.
  intros Hm Hq Hemb Hrpc.
  rewrite (search_eq w req c q Hm Hq), (embedding_success w _ qe Hemb).
  cbv zeta. rewrite Hrpc. cbn [calls ticks app]. unfold fallback_outcome.
  repeat split.
  - intros e ->. reflexivity.
  - intros res e -> ->. reflexivity.
  - intros res -> -> [-> | ->]; [reflexivity |].
    now rewrite rank_candidates_nil.
Qed.

Lemma fallback_fetch_outcomes_witness :
  rpc_outcome MoreSamples.failing_candidates_world (Some [1%Q]) 10 = None
  /\ select_candidates MoreSamples.failing_candidates_world
       (clock MoreSamples.failing_candidates_world 0 - 7 * ms_per_day)
     = inr {| data := None;
              error := Some "permission denied for table news_articles" |}
  /\ fst (bert_search MoreSamples.failing_candidates_world
            (Samples.search (Some 10)))
     = {| status := 500;
          body := ErrorBody "Internal server error" "[object Object]" |}.
Proof.
  split; [reflexivity | split; [reflexivity |]].
  refine (proj1 (proj2 (fallback_fetch_outcomes
                          MoreSamples.failing_candidates_world
                          (Samples.search (Some 10)) 110%N [101; 119; 115]%N
                          (Some [1%Q]) _ eq_refl eq_refl eq_refl))
            {| data := None;
               error := Some "permission denied for table news_articles" |}
            "permission denied for table news_articles" eq_refl eq_refl).
  discriminate.
Defined.

(** X17: the in-memory ranking contains only candidates that carry an
    embedding, each with its own fields and with the computed similarity (0
    when the computation fails) as score; when top_k is at least their
    number, it contains every one of them exactly once. *)
Theorem ranking_only_embedded :
  (forall w q candidates k s,
     In s (rank_candidates w q candidates k) ->
     exists c emb,
       In c candidates /\ embedding c = Some emb
       /\ s = score_candidate w q c
       /\ s_id s = id c
       /\ score s = match cosineSimilarity w q emb with
                    | Some sim => sim
                    | None => 0%Q
                    end)
  /\ (forall w q candidates k,
        Z.of_nat (List.length (filter has_embedding candidates)) <= k ->
        Permutation (rank_candidates w q candidates k)
                    (map (score_candidate w q)
                         (filter has_embedding candidates))).
Proof.
  split.
  - intros w q candidates k s Hin. unfold rank_candidates in Hin.
    apply Recommendations.slice0_incl, sort_In, in_map_iff in Hin
      as (c & <- & Hc).
    apply filter_In in Hc as [Hc He]. unfold has_embedding in He.
    destruct (embedding c) as [emb |] eqn:Hemb; [| discriminate].
    exists c, emb. repeat split; try assumption.
    unfold score_candidate. simpl. now rewrite Hemb.
  - intros w q candidates k Hk. unfold rank_candidates.
    rewrite slice0_firstn by lia.
    rewrite firstn_all2.
    + apply sort_perm.
    + rewrite (sort_length by_score_desc), length_map. lia.
Qed.

Lemma ranking_only_embedded_witness :
  Permutation
    (rank_candidates Samples.fallback_world (Some [1%Q])
       [Samples.broken; Samples.opposite; Samples.bare; Samples.aligned] 10)
    (map (score_candidate Samples.fallback_world (Some [1%Q]))
         (filter has_embedding
            [Samples.broken; Samples.opposite; Samples.bare; Samples.aligned])).
Proof.
  apply (proj2 ranking_only_embedded Samples.fallback_world (Some [1%Q])
           [Samples.broken; Samples.opposite; Samples.bare; Samples.aligned]
           10).
  vm_compute. discriminate.
Defined.

Lemma trimStart_split (q : jsstring) :
  exists pre, q = pre ++ trimStart q /\ blank pre.
Proof.
  induction q as [| c q (pre & Heq & Hpre)]; simpl.
  - exists []. split; [reflexivity | constructor].
  - destruct (is_space c) eqn:Hc.
    + exists (c :: pre). split; [simpl; now f_equal | now constructor].
    + exists []. split; [reflexivity | constructor].
Qed.

Lemma trimStart_clean (q : jsstring) : starts_clean (trimStart q).
Proof.
  induction q as [| c q IH]; simpl; [exact I |].
  destruct (is_space c) eqn:Hc; [exact IH | exact Hc].
Qed.

Lemma trimStart_fix (q : jsstring) : starts_clean q -> trimStart q = q.
Proof. destruct q as [| c q]; simpl; [reflexivity | now intros ->]. Qed.

Lemma blank_rev (q : jsstring) : blank q -> blank (rev q).
Proof. unfold blank. apply Forall_rev. Qed.

(** The last character of a clean string stays last behind a prefix cut. *)
Lemma starts_clean_rev_suffix (pre u : jsstring) :
  starts_clean (rev (pre ++ u)) -> u <> [] -> starts_clean (rev u).
Proof.
  intros H Hu. rewrite rev_app_distr in H.
  destruct (rev u) as [| c r] eqn:Hr.
  - exfalso. apply Hu. apply (f_equal (@rev N)) in Hr.
    now rewrite rev_involutive in Hr.
  - exact H.
Qed.

Lemma trim_split (q : jsstring) :
  exists pre post, q = pre ++ trim q ++ post /\ blank pre /\ blank post.
Proof.
  destruct (trimStart_split q) as (pre & Hq & Hpre).
  destruct (trimStart_split (rev (trimStart q))) as (post & Hr & Hpost).
  exists pre, (rev post). split; [| split; [exact Hpre | now apply blank_rev]].
  unfold trim. rewrite <- rev_app_distr, <- Hr, rev_involutive. exact Hq.
Qed.

Lemma trim_clean (q : jsstring) :
  starts_clean (trim q) /\ starts_clean (rev (trim q)).
Proof.
  unfold trim. rewrite rev_involutive. split; [| apply trimStart_clean].
  destruct (trimStart_split (rev (trimStart q))) as (post & Hr & _).
  set (u := trimStart (rev (trimStart q))) in *.
  destruct u as [| c u'] eqn:Hu; [exact I |].
  apply (starts_clean_rev_suffix post); [| discriminate].
  rewrite <- Hr, rev_involutive. apply trimStart_clean.
Qed.

(** [trim] removes white space at both ends and nothing else: the string is
    its trimmed text between two runs of white space, the trimmed text
    neither begins nor ends with white space, trimming twice is trimming
    once, and the trimmed text is empty exactly for a string of white space
    only. *)
Lemma trim_laws (q : jsstring) :
  (exists pre post, q = pre ++ trim q ++ post /\ blank pre /\ blank post)
  /\ starts_clean (trim q) /\ starts_clean (rev (trim q))
  /\ trim (trim q) = trim q
  /\ (trim q = [] <-> blank q).
Proof.
  destruct (trim_clean q) as [Hc1 Hc2].
  split; [apply trim_split | split; [exact Hc1 | split; [exact Hc2 | split]]].
  - unfold trim at 1. rewrite (trimStart_fix _ Hc1), (trimStart_fix _ Hc2).
    apply rev_involutive.
  - split; [| apply trim_blank].
    intros Hnil. destruct (trim_split q) as (pre & post & Hq & Hpre & Hpost).
    rewrite Hnil in Hq. rewrite Hq. unfold blank in *.
    apply Forall_app. now split.
Qed.

Lemma query_text_blank (req : Request) : query_text req = [] <-> blank_query req.
Proof.
  unfold query_text, blank_query.
  destruct (json req) as [b |].
  - destruct (query b) as [s |]; [apply trim_laws |].
    split; [intros _; exact I | reflexivity].
  - split; [intros _; exact I | reflexivity].
Qed.

Lemma search_blank_eq (w : World) (req : Request) :
  method req <> "OPTIONS" ->
  query_text req = [] ->
  bert_search w req = ({| status := 200; body := Recommendations [] |}, init).
Proof.
  intros Hm Hq. unfold bert_search, serve, handler_body.
  destruct (String.eqb_spec (method req) "OPTIONS"); [contradiction |].
  unfold query_text in Hq.
  assert (Hq' : trim match query match json req with
                                 | Some b => b
                                 | None => {| query := None; top_k := None |}
                                 end
                     with Some s => s | None => [] end = []).
  { destruct (json req); exact Hq. }
  now rewrite Hq'.
Qed.

(** X18: with an API key configured, the embedding provider is called
    exactly for the searches whose query is not blank, first of all calls,
    and the text it is given is the trimmed query. *)
Theorem provider_called_iff_not_blank (w : World) (req : Request)
    (key : string) :
  method req <> "OPTIONS" ->
  api_key w = Some key -> key <> "" ->
  (existsb is_embedding_call (calls (snd (bert_search w req))) = true
   <-> ~ blank_query req)
  /\ (~ blank_query req ->
      hd_error (calls (snd (bert_search w req)))
      = Some (EvEmbedding (query_text req))).
Proof.
  intros Hm Hkey Hne.
  destruct (query_text req) as [| c q] eqn:Hq.
  - assert (Hb : blank_query req) by now apply query_text_blank.
    rewrite (search_blank_eq w req Hm Hq). simpl. split; [| contradiction].
    split; [discriminate | contradiction].
  - assert (Hnb : ~ blank_query req).
    { intros Hb. apply query_text_blank in Hb. congruence. }
    rewrite (search_eq w req c q Hm Hq), embedding_eq, Hkey.
    destruct key as [| c0 k]; [contradiction |]. cbv zeta.
    cbn [init calls ticks app].
    assert (Hleaf : forall (resp : Response) (st : hstate),
              hd_error (calls st) = Some (EvEmbedding (c :: q)) ->
              (existsb is_embedding_call (calls (snd (resp, st))) = true
               <-> ~ blank_query req)
              /\ (~ blank_query req ->
                  hd_error (calls (snd (resp, st)))
                  = Some (EvEmbedding (c :: q)))).
    { intros resp st Hhd. cbn [snd].
      destruct (calls st) as [| ev l]; [discriminate |].
      injection Hhd as ->. simpl.
      split; [split; [intros _; exact Hnb | reflexivity] | reflexivity]. }
    destruct (openai_embeddings w _ _ _) as [e | res];
      [now apply Hleaf |].
    destruct (ok res); [| now apply Hleaf].
    destruct (res_embedding res) as [e | qe]; [now apply Hleaf |].
    destruct (rpc_outcome w qe (requested_top_k req));
      [now apply Hleaf |].
    cbn [calls ticks app].
    destruct (fallback_outcome _ _ _ _); now apply Hleaf.
Qed.

Lemma provider_called_iff_not_blank_witness :
  query_text MoreSamples.padded_search = Samples.news_query
  /\ (existsb is_embedding_call
         (calls (snd (bert_search Samples.fallback_world
                        MoreSamples.padded_search))) = true
      <-> ~ blank_query MoreSamples.padded_search).
Proof.
  split; [reflexivity |].
  refine (proj1 (provider_called_iff_not_blank Samples.fallback_world
                   MoreSamples.padded_search "sk" _ eq_refl _)).
  - discriminate.
  - discriminate.
Defined.

End SearchExtra.

(** ** The browser side *)

Module FeedFacts.
Import JS Spec SpecExtra JSFacts NewsFilters NewsFeed.

Lemma subseq_refl {A} (l : list A) : subseq l l.
Proof. induction l; constructor; assumption. Qed.

Lemma subseq_filter {A} (f : A -> bool) (l : list A) : subseq (filter f l) l.
Proof.
  induction l as [| x l IH]; simpl; [constructor |].
  destruct (f x); constructor; exact IH.
Qed.

Lemma subseq_firstn {A} (n : nat) (l : list A) : subseq (firstn n l) l.
Proof.
  revert l. induction n as [| n IH]; intros [| x l]; simpl.
  - constructor.
  - constructor. clear x. induction l; constructor; assumption.
  - constructor.
  - apply subseq_keep, IH.
Qed.

Lemma subseq_In {A} (sub l : list A) (x : A) :
  subseq sub l -> In x sub -> In x l.
Proof.
  induction 1 as [| y sub l _ IH | y sub l _ IH]; simpl; intros Hin.
  - exact Hin.
  - right. now apply IH.
  - destruct Hin as [-> | Hin]; [now left | right; now apply IH].
Qed.

Lemma filter_if {A} (b : bool) (f : A -> bool) (l : list A) :
  (if b then filter f l else l) = filter (fun a => negb b || f a) l.
Proof.
  destruct b; simpl; [reflexivity |].
  induction l as [| x l IH]; simpl; [reflexivity | now rewrite <- IH].
Qed.

Lemma filter_filter {A} (f g : A -> bool) (l : list A) :
  filter f (filter g l) = filter (fun a => g a && f a) l.
Proof.
  induction l as [| x l IH]; simpl; [reflexivity |].
  destruct (g x); simpl; [destruct (f x) |]; now rewrite IH.
Qed.

(** The five conditional filters amount to one. *)
Lemma displayed_eq (env : Env) (q : string) (filters : Filters) (now : Z)
    (fetched : list NewsArticle) :
  displayed env q filters now fetched
  = firstn 20 (filter (passes env q filters now) fetched).
Proof.
  unfold displayed. cbv zeta. rewrite slice0_firstn by lia.
  change (Z.to_nat 20) with 20%nat. f_equal.
  rewrite !filter_if, !filter_filter. apply filter_ext.
  intros a. unfold passes. now rewrite !andb_assoc.
Qed.

Lemma displayed_unfiltered (env : Env) (filters : Filters) (now : Z)
    (fetched : list NewsArticle) :
  prop filters "category" = "" -> prop filters "source" = "" ->
  prop filters "language" = "" -> prop filters "dateRange" = "" ->
  displayed env "" filters now fetched = firstn 20 fetched.
Proof.
  intros Hc Hs Hl Hd. rewrite displayed_eq. f_equal.
  unfold passes. rewrite Hc, Hs, Hl, Hd. simpl.
  induction fetched as [| x l IH]; simpl; [reflexivity | now rewrite IH].
Qed.

(** X19: the feed shows the first 20, in the order fetched, of the articles
    that pass the search and every filter that is set: never more than 20,
    never an article that was not fetched, and, with no search text and no
    filter set, simply the first 20 fetched. *)
Theorem feed_shows_first_20_passing (env : Env) (q : string)
    (filters : Filters) (now : Z) (fetched : list NewsArticle) :
  displayed env q filters now fetched
  = firstn 20 (filter (passes env q filters now) fetched)
  /\ (List.length (displayed env q filters now fetched) <= 20)%nat
  /\ subseq (displayed env q filters now fetched) fetched
  /\ (forall a, In a (displayed env q filters now fetched) ->
      In a fetched /\ passes env q filters now a = true)
  /\ (q = "" -> prop filters "category" = "" -> prop filters "source" = "" ->
      prop filters "language" = "" -> prop filters "dateRange" = "" ->
      displayed env q filters now fetched = firstn 20 fetched).
Proof.
  rewrite displayed_eq. split; [reflexivity | split; [| split; [| split]]].
  - apply firstn_le_length.
  - assert (Htrans : forall (a b c : list NewsArticle),
              subseq a b -> subseq b c -> subseq a c).
    { intros a b c Hab Hbc. revert a Hab.
      induction Hbc as [| x b c _ IH | x b c _ IH]; intros a Hab.
      - exact Hab.
      - constructor. now apply IH.
      - inversion Hab; subst; constructor; now apply IH. }
    eapply Htrans; [apply subseq_firstn | apply subseq_filter].
  - intros a Hin. apply Recommendations.firstn_incl in Hin.
    now apply filter_In in Hin.
  - intros -> Hc Hs Hl Hd. rewrite <- displayed_eq.
    now apply displayed_unfiltered.
Qed.

(** X20: whatever [invoke] answers, [fetchArticles] ends with [loading]
    off; on an error, a rejected call or a missing body it leaves the
    articles on screen as they were and raises exactly one toast; on an
    answer it raises none; a feed of at most 20 articles stays one. *)
Theorem fetchArticles_outcomes (env : Env)
    (invoke : exn + QueryResult InvokeData) (q : string) (filters : Filters)
    (now : Z) (st : State) :
  loading (fetchArticles env invoke q filters now st) = false
  /\ ((List.length (articles st) <= 20)%nat ->
      (List.length (articles (fetchArticles env invoke q filters now st))
       <= 20)%nat)
  /\ ((exists e, invoke = inl e)
      \/ (exists r, invoke = inr r /\ (error r <> None \/ data r = None)) ->
      articles (fetchArticles env invoke q filters now st) = articles st
      /\ toasts (fetchArticles env invoke q filters now st)
         = toasts st ++ ["Failed to fetch latest news articles"])
  /\ (forall r d, invoke = inr r -> error r = None -> data r = Some d ->
      toasts (fetchArticles env invoke q filters now st) = toasts st
      /\ articles (fetchArticles env invoke q filters now st)
         = displayed env q filters now
             (match d_articles d with Some l => l | None => [] end)).
Proof.
  unfold fetchArticles.
  destruct invoke as [e | [[d |] [err |]]]; cbn [loading articles toasts].
  1, 2, 4, 5: (split; [reflexivity | split; [tauto | split]];
               [intros _; split; reflexivity
               | intros r d' [= <-] Herr Hd; simpl in Herr, Hd; discriminate]).
  split; [reflexivity | split; [| split]].
  - intros _. rewrite displayed_eq. apply firstn_le_length.
  - intros [(e & He) | (r & [= <-] & [Hr | Hr])]; simpl in *;
      [discriminate | contradiction | discriminate].
  - intros r d' [= <-] _ [= <-]. split; reflexivity.
Qed.

Lemma filter_none {A} (f : A -> bool) (l : list A) :
  (forall a, In a l -> f a = false) -> filter f l = [].
Proof.
  induction l as [| x l IH]; simpl; intros H; [reflexivity |].
  rewrite (H x (or_introl eq_refl)). apply IH. intros a Ha. apply H. now right.
Qed.

(** X21: fetch-news labels every article "sports" or "technology" and
    "en"; so on the articles of its response the feed is empty as soon as
    the category filter is set to any other category, or the language
    filter to any other language. *)
Theorem other_categories_show_nothing (w : FetchNews.World)
    (req : FetchNews.Request) (resp : FetchNews.Response) (s : hstate)
    (arts : list NewsArticle) (total : Z) (env : Env) (q : string)
    (filters : Filters) (now : Z) :
  FetchNews.fetch_news w req = (resp, s) ->
  FetchNews.body resp = FetchNews.Articles arts total ->
  (prop filters "category" <> "" /\ prop filters "category" <> "sports"
   /\ prop filters "category" <> "technology")
  \/ (prop filters "language" <> "" /\ prop filters "language" <> "en") ->
  displayed env q filters now arts = [].
Proof.
  intros Hrun Hbody Hother. rewrite displayed_eq.
  rewrite filter_none; [reflexivity |].
  intros a Hin.
  pose proof (News.fetch_news_inv _ _ _ _ _ _ _ Hrun Hbody Hin) as Hcat.
  destruct (NewsExtra.articles_inv _ _ _ _ _ _ Hrun Hbody)
    as (r & d & raw & _ & _ & _ & Hall & _).
  destruct (NewsExtra.Forall2_In_r _ _ _ _ Hall Hin)
    as (x & _ & b64 & _ & Heq).
  assert (Hlang : FetchNews.language a = "en") by (rewrite Heq; reflexivity).
  unfold passes. rewrite Hcat, Hlang. unfold FetchNews.classify.
  destruct Hother as [(H0 & H1 & H2) | (H0 & H1)].
  - assert (Hf : String.eqb
                   (if includes (JS.toLowerCase (FetchNews.t_title a)) "sport"
                    then "sports" else "technology")
                   (prop filters "category") = false).
    { destruct (includes _ _); apply String.eqb_neq; congruence. }
    rewrite Hf. unfold FetchNews.truthy.
    destruct (String.eqb_spec (prop filters "category") "");
      [contradiction |].
    simpl. now rewrite !andb_false_r.
  - assert (Hf : String.eqb "en" (prop filters "language") = false)
      by (apply String.eqb_neq; congruence).
    rewrite Hf. unfold FetchNews.truthy.
    destruct (String.eqb_spec (prop filters "language") "");
      [contradiction |].
    simpl. now rewrite !andb_false_r.
Qed.

Lemma other_categories_show_nothing_witness :
  prop (handleFilterChange clearFilters "category" "politics") "category"
  = "politics"
  /\ displayed MoreSamples.browser ""
       (handleFilterChange clearFilters "category" "politics") 0
       [Samples.transformed_headline]
     = [].
Proof.
  split; [reflexivity |].
  refine (other_categories_show_nothing Samples.news_world
            Samples.news_request _ _ [Samples.transformed_headline] 1
            MoreSamples.browser ""
            (handleFilterChange clearFilters "category" "politics") 0 _ _ _).
  - apply surjective_pairing.
  - vm_compute. reflexivity.
  - left. repeat split; discriminate.
Defined.

Lemma get_with_prop_same (f : Filters) (k v : string) :
  get (with_prop f k v) k = Some v.
Proof.
  induction f as [| [k0 v0] f IH]; simpl.
  - now rewrite String.eqb_refl.
  - destruct (String.eqb_spec k0 k) as [-> | Hne]; simpl.
    + now rewrite String.eqb_refl.
    + destruct (String.eqb_spec k0 k); [contradiction | exact IH].
Qed.

Lemma get_with_prop_other (f : Filters) (k k' v : string) :
  k' <> k -> get (with_prop f k v) k' = get f k'.
Proof.
  intros Hne. induction f as [| [k0 v0] f IH]; simpl.
  - destruct (String.eqb_spec k k'); [congruence | reflexivity].
  - destruct (String.eqb_spec k0 k) as [-> | Hne0]; simpl.
    + destruct (String.eqb_spec k k'); [congruence | reflexivity].
    + now rewrite IH.
Qed.

Lemma keys_with_prop (f : Filters) (k v : string) :
  get f k <> None -> map fst (with_prop f k v) = map fst f.
Proof.
  induction f as [| [k0 v0] f IH]; simpl; [congruence |].
  destruct (String.eqb_spec k0 k) as [-> | Hne]; simpl; intros H;
    [reflexivity | now rewrite IH].
Qed.

Lemma no_active_filter (f : Filters) (k : string) :
  activeFiltersCount f = 0%nat -> prop f k = "".
Proof.
  unfold activeFiltersCount, prop.
  induction f as [| [k0 v0] f IH]; simpl; [reflexivity |].
  unfold FetchNews.truthy at 1.
  destruct (String.eqb_spec v0 "") as [-> | Hne]; simpl; [| discriminate].
  intros H. destruct (String.eqb k0 k); [reflexivity | now apply IH].
Qed.

(** X22: a filter change sets the one property it names and leaves the
    others, adding no property when the name is one the object has; the
    count of active filters is at most the number of properties and 0 after
    "Clear All"; and whenever that count is 0 and there is no search text,
    the feed is the first 20 articles fetched. *)
Theorem filter_change_laws :
  (forall f k v, get (handleFilterChange f k v) k = Some v)
  /\ (forall f k k' v, k' <> k ->
       get (handleFilterChange f k v) k' = get f k')
  /\ (forall f k v, get f k <> None ->
       map fst (handleFilterChange f k v) = map fst f)
  /\ (forall f, (activeFiltersCount f <= List.length f)%nat)
  /\ activeFiltersCount clearFilters = 0%nat
  /\ (forall env f now fetched,
       activeFiltersCount f = 0%nat ->
       displayed env "" f now fetched = firstn 20 fetched).
Proof.
  repeat split.
  - apply get_with_prop_same.
  - intros f k k' v. apply get_with_prop_other.
  - apply keys_with_prop.
  - intros f. unfold activeFiltersCount.
    rewrite <- (length_map snd f). apply filter_length_le.
  - intros env f now fetched Hcount.
    apply displayed_unfiltered; now apply no_active_filter.
Qed.

End FeedFacts.

Module CardFacts.
Import JS Spec SpecExtra NewsCard.

(** X23: without a user nothing is recorded; with one, the row carries the
    article's identifier, category and source, and the aggregator weighs it
    3 for a click, 5 for a bookmark, 2 for a dwell of more than 30 seconds
    and 1 otherwise, on the category and on the source of that article. *)
Theorem tracked_activity_weights :
  (forall article kind dwell, trackActivity None article kind dwell = None)
  /\ (forall user article kind dwell,
        exists row,
          trackActivity (Some user) article kind dwell = Some row
          /\ article_id row = FetchNews.id article
          /\ activity_type row = kind
          /\ dwell_time row = match dwell with Some d => d | None => 0 end
          /\ Recommend.categoryPreferences [stored row]
             = [(FetchNews.category article, Recommend.weight (stored row))]
          /\ Recommend.sourcePreferences [stored row]
             = [(FetchNews.source article, Recommend.weight (stored row))]
          /\ Recommend.weight (stored row)
             = if String.eqb kind "click" then 3
               else if String.eqb kind "bookmark" then 5
               else if String.eqb kind "dwell"
                       && (30 <? match dwell with Some d => d | None => 0 end)
                    then 2
               else 1).
Proof.
  split; [reflexivity |].
  intros user article kind dwell. eexists. split; [reflexivity |].
  assert (Hd : (match dwell with
                | Some d => if d =? 0 then 0 else d
                | None => 0
                end) = match dwell with Some d => d | None => 0 end).
  { destruct dwell as [d |]; [| reflexivity].
    destruct (Z.eqb_spec d 0); congruence. }
  cbn [article_id activity_type dwell_time]. rewrite Hd.
  repeat split.
Qed.

(** X24: when the cleanup of a card runs for a user with a start time, a
    dwell is recorded exactly when at least 2500 ms have passed; the
    recorded time is the number of seconds rounded to the nearest, and the
    aggregator gives the dwell weight 2 exactly when at least 30500 ms have
    passed, weight 1 below that. *)
Theorem dwell_thresholds (user : string) (article : NewsFeed.NewsArticle)
    (start now : Z) :
  start <> 0 ->
  (on_unmount (Some user) article (Some start) now = None
   <-> now - start < 2500)
  /\ (forall row,
        on_unmount (Some user) article (Some start) now = Some row ->
        activity_type row = "dwell"
        /\ dwell_time row = dwell_seconds now start
        /\ 1000 * dwell_time row - 500 <= now - start
                                       < 1000 * dwell_time row + 500
        /\ (Recommend.weight (stored row) = 2 <-> 30500 <= now - start)
        /\ (Recommend.weight (stored row) = 1 <-> now - start < 30500)).
Proof.
  intros Hstart. unfold on_unmount, dwell_seconds.
  destruct (Z.eqb_spec start 0); [contradiction |]. cbv zeta.
  pose proof (Z.div_mod (now - start + 500) 1000 ltac:(lia)) as Hdiv.
  pose proof (Z.mod_pos_bound (now - start + 500) 1000 ltac:(lia)) as Hmod.
  set (d := (now - start + 500) / 1000) in *.
  destruct (Z.ltb_spec 2 d) as [Hd | Hd].
  - split; [split; [discriminate | lia] |].
    intros row. unfold trackActivity. intros [= <-].
    cbn [activity_type dwell_time].
    destruct (Z.eqb_spec d 0); [lia |].
    split; [reflexivity | split; [reflexivity | split; [lia |]]].
    unfold Recommend.weight, stored. cbn.
    destruct (Z.eqb_spec d 0); [lia |].
    destruct (Z.ltb_spec 30 d); split; split; intros; lia.
  - split; [split; [lia | reflexivity] | discriminate].
Qed.

Lemma dwell_thresholds_witness :
  on_unmount (Some "u1") MoreSamples.reader_article (Some 1000) 31500
  = trackActivity (Some "u1") MoreSamples.reader_article "dwell" (Some 31)
  /\ (on_unmount (Some "u1") MoreSamples.reader_article (Some 1000) 31500
      = None <-> 31500 - 1000 < 2500).
Proof.
  split; [reflexivity |].
  apply (dwell_thresholds "u1" MoreSamples.reader_article 1000 31500).
  discriminate.
Defined.

End CardFacts.

Module SearchBarFacts.
Import JS Spec SpecExtra JSFacts BertSearch SearchFacts SearchExtra.

(** The response of the search handler to a request that is not a
    preflight: a 200 with recommendations or a 500 with an error. *)
Lemma response_shape (w : World) (req : Request) :
  method req <> "OPTIONS" ->
  (exists recs,
     fst (bert_search w req)
     = {| status := 200; body := Recommendations recs |})
  \/ (exists detail,
        fst (bert_search w req)
        = {| status := 500;
             body := ErrorBody "Internal server error" detail |}).
Proof.
  intros Hm. destruct (query_text req) as [| c q] eqn:Hq.
  - left. rewrite (search_blank_eq w req Hm Hq). now eexists.
  - rewrite (search_eq w req c q Hm Hq).
    destruct (getOpenAIEmbedding w (c :: q) embedding_model init)
      as [[e | qe] st]; [right; now eexists |].
    cbv zeta. unfold rpc_outcome, fallback_outcome.
    destruct (rpc_match_news w qe _) as [e | qr].
    2: destruct (error qr).
    3: destruct (data qr) as [[| r rows] |].
    4: { left. now eexists. }
    all: destruct (select_candidates w _) as [e' | res];
      [right; now eexists |];
      destruct (error res); [right; now eexists | left; now eexists].
Qed.

(** X25: a search sent by the client never asks for a count, so the handler
    ranks for 10; [queryBertSearch] gives [null] exactly when the handler
    answers 500, and otherwise the recommendations, at most 10 of them when
    the server-side search returns at most the 10 rows asked for. *)
Theorem client_search_outcomes (w : World) (url : string) (query : jsstring) :
  (forall q qr rows,
     rpc_match_news w q 10 = inr qr -> data qr = Some rows ->
     (List.length rows <= 10)%nat) ->
  let request := {| method := "POST";
                    json := Some {| BertSearch.query := Some query;
                                    top_k := None |} |} in
  requested_top_k request = 10
  /\ match SearchBar.queryBertSearch (served_by w) url query with
     | None => status (fst (bert_search w request)) = 500
     | Some (Recommendations recs) =>
         fst (bert_search w request)
         = {| status := 200; body := Recommendations recs |}
         /\ (List.length recs <= 10)%nat
     | Some _ => False
     end.
Proof.
  intros Hrpc request. split; [reflexivity |].
  unfold SearchBar.queryBertSearch, served_by. fold request.
  assert (Hm : method request <> "OPTIONS") by discriminate.
  destruct (response_shape w request Hm) as [(recs & Hr) | (detail & Hr)];
    rewrite Hr; simpl; [| reflexivity].
  split; [reflexivity |].
  destruct (bert_search w request) as [resp s] eqn:Hrun. simpl in Hr. subst resp.
  destruct (search_inv w request _ s recs Hrun eq_refl)
    as [-> | [(q & qr & rows & H1 & H2 & ->) | (q & cands & ->)]].
  - simpl. lia.
  - rewrite length_map. eapply Hrpc; eassumption.
  - rewrite length_map.
    pose proof (rank_candidates_length w q cands (requested_top_k request))
      as Hlen.
    change (requested_top_k request) with 10 in *. cbv zeta in Hlen.
    change (10 <? 0) with false in Hlen. cbv iota in Hlen. lia.
Qed.

Lemma client_search_outcomes_witness :
  SearchBar.queryBertSearch (served_by Samples.fallback_world) "" Samples.news_query
  = Some (Recommendations
            (map inr
               (rank_candidates Samples.fallback_world (Some [1%Q])
                  [Samples.broken; Samples.opposite; Samples.bare;
                   Samples.aligned] 10)))
  /\ requested_top_k (Samples.search None) = 10.
Proof.
  split; [reflexivity |].
  refine (proj1 (client_search_outcomes Samples.fallback_world ""
                   Samples.news_query _)).
  intros q qr rows [= <-]. discriminate.
Defined.

(** X26: [handleSubmit] never completes: called with the submit event it
    prevents the default and calls itself with the query string, on which
    [preventDefault] is not a function; so every submit ends in that
    TypeError, and "clear" empties the query and then throws before it
    collapses the bar. *)
Theorem submit_always_throws :
  (forall fuel query e,
     SearchBar.handleSubmit fuel query e <> SearchBar.Returned)
  /\ (forall fuel query,
        SearchBar.handleSubmit (S (S fuel)) query SearchBar.FormEvent
        = SearchBar.Threw "TypeError: e.preventDefault is not a function")
  /\ (forall fuel query,
        SearchBar.handleClear (S fuel) query
        = (SearchBar.Threw "TypeError: e.preventDefault is not a function",
           [SearchBar.SetQuery ""])).
Proof.
  split; [| split].
  - intros fuel. induction fuel as [| fuel IH]; intros query e; simpl.
    + discriminate.
    + destruct e; simpl; [apply IH | discriminate].
  - reflexivity.
  - reflexivity.
Qed.

End SearchBarFacts.
